(** * Project3: off-axis CAVE renderer (main.cpp)

    A shallow embedding of the scene code of [main.cpp]: the PPM loader,
    the [ColorCubeScene] constructor, [ColorCubeScene::render] with its
    three off-axis frustum computations, and [ColorCubeScene::checkInput].

    Numbers.  The C++ code computes on [float].  Here every [float] is a
    real number and the arithmetic is exact: rounding, infinities and NaN
    are not modelled.  The literal [0.001f] is [1/1000], [0.01f] is
    [1/100], and so on.  Theorems about equalities of computed values are
    therefore statements about the exact arithmetic the code approximates;
    theorems about guards and control flow do not depend on it.

    GLM.  [glm::vec3], [glm::vec4] and [glm::mat4] are records; a [mat4]
    is stored by columns, as in GLM, so that [m[i]] is column [i].  The GLM
    functions the scene calls are transcribed from GLM's definitions
    (right-handed, depth range -1..1, the library's defaults). *)

From Stdlib Require Import Reals Lra Lia ZArith List Bool String.
From Stdlib Require Import RNsatz.
Import ListNotations.

Local Open Scope R_scope.

(** ** GLM vectors and matrices *)

Module Glm.

Record vec3 : Type := Vec3 { x3 : R; y3 : R; z3 : R }.
Record vec4 : Type := Vec4 { x4 : R; y4 : R; z4 : R; w4 : R }.

(** Column-major 4x4 matrix: [colN m] is the C++ [m[N]]. *)
Record mat4 : Type := Mat4 { col0 : vec4; col1 : vec4; col2 : vec4; col3 : vec4 }.

(** [vec3()] of the GLM version the scene is written for is the zero
    vector (the scene equally relies on [mat4()] being the identity, see
    [boxtransform] and [pyr_transform]). *)
Definition vec3_zero : vec3 := Vec3 0 0 0.

Definition add3 (a b : vec3) : vec3 := Vec3 (x3 a + x3 b) (y3 a + y3 b) (z3 a + z3 b).
Definition sub3 (a b : vec3) : vec3 := Vec3 (x3 a - x3 b) (y3 a - y3 b) (z3 a - z3 b).
Definition smul3 (k : R) (a : vec3) : vec3 := Vec3 (x3 a * k) (y3 a * k) (z3 a * k).

Definition add4 (a b : vec4) : vec4 :=
  Vec4 (x4 a + x4 b) (y4 a + y4 b) (z4 a + z4 b) (w4 a + w4 b).
Definition smul4 (a : vec4) (k : R) : vec4 :=
  Vec4 (x4 a * k) (y4 a * k) (z4 a * k) (w4 a * k).

(** [vec4(v, w)] and [vec3(v4)]. *)
Definition vec4_of (v : vec3) (w : R) : vec4 := Vec4 (x3 v) (y3 v) (z3 v) w.
Definition vec3_of (v : vec4) : vec3 := Vec3 (x4 v) (y4 v) (z4 v).

(** [glm::dot] and [glm::cross] on [vec3]. *)
Definition dot (a b : vec3) : R := x3 a * x3 b + y3 a * y3 b + z3 a * z3 b.
Definition cross (a b : vec3) : vec3 :=
  Vec3 (y3 a * z3 b - y3 b * z3 a)
       (z3 a * x3 b - z3 b * x3 a)
       (x3 a * y3 b - x3 b * y3 a).

(** [glm::normalize(v)] is [v * inversesqrt(dot(v, v))]. *)
Definition inversesqrt (a : R) : R := 1 / sqrt a.
Definition normalize (v : vec3) : vec3 := smul3 (inversesqrt (dot v v)) v.

(** [mat4(1.0f)]. *)
Definition mat4_id : mat4 :=
  Mat4 (Vec4 1 0 0 0) (Vec4 0 1 0 0) (Vec4 0 0 1 0) (Vec4 0 0 0 1).

(** [m * v]: the linear combination of the columns. *)
Definition mul_mv (m : mat4) (v : vec4) : vec4 :=
  add4 (add4 (add4 (smul4 (col0 m) (x4 v)) (smul4 (col1 m) (y4 v)))
             (smul4 (col2 m) (z4 v)))
       (smul4 (col3 m) (w4 v)).

(** [m1 * m2]: column [j] of the product is [m1 * m2[j]]. *)
Definition mul_mm (m1 m2 : mat4) : mat4 :=
  Mat4 (mul_mv m1 (col0 m2)) (mul_mv m1 (col1 m2))
       (mul_mv m1 (col2 m2)) (mul_mv m1 (col3 m2)).

(** [glm::transpose]. *)
Definition transpose (m : mat4) : mat4 :=
  Mat4 (Vec4 (x4 (col0 m)) (x4 (col1 m)) (x4 (col2 m)) (x4 (col3 m)))
       (Vec4 (y4 (col0 m)) (y4 (col1 m)) (y4 (col2 m)) (y4 (col3 m)))
       (Vec4 (z4 (col0 m)) (z4 (col1 m)) (z4 (col2 m)) (z4 (col3 m)))
       (Vec4 (w4 (col0 m)) (w4 (col1 m)) (w4 (col2 m)) (w4 (col3 m))).

(** [glm::frustum(left, right, bottom, top, nearVal, farVal)]: only the
    seven entries below are nonzero. *)
Definition frustum (left right bottom top nearVal farVal : R) : mat4 :=
  Mat4 (Vec4 ((2 * nearVal) / (right - left)) 0 0 0)
       (Vec4 0 ((2 * nearVal) / (top - bottom)) 0 0)
       (Vec4 ((right + left) / (right - left))
             ((top + bottom) / (top - bottom))
             (- (farVal + nearVal) / (farVal - nearVal))
             (-1))
       (Vec4 0 0 (- (2 * farVal * nearVal) / (farVal - nearVal)) 0).

(** [glm::translate(m, v)]. *)
Definition translate (m : mat4) (v : vec3) : mat4 :=
  Mat4 (col0 m) (col1 m) (col2 m)
       (add4 (add4 (add4 (smul4 (col0 m) (x3 v)) (smul4 (col1 m) (y3 v)))
                   (smul4 (col2 m) (z3 v)))
             (col3 m)).

(** [glm::scale(m, v)]. *)
Definition scale (m : mat4) (v : vec3) : mat4 :=
  Mat4 (smul4 (col0 m) (x3 v)) (smul4 (col1 m) (y3 v)) (smul4 (col2 m) (z3 v)) (col3 m).

(** [glm::rotate(m, angle, v)], angle in radians. *)
Definition rotate (m : mat4) (angle : R) (v : vec3) : mat4 :=
  let c := cos angle in
  let s := sin angle in
  let axis := normalize v in
  let temp := smul3 (1 - c) axis in
  let r00 := c + x3 temp * x3 axis in
  let r01 := x3 temp * y3 axis + s * z3 axis in
  let r02 := x3 temp * z3 axis - s * y3 axis in
  let r10 := y3 temp * x3 axis - s * z3 axis in
  let r11 := c + y3 temp * y3 axis in
  let r12 := y3 temp * z3 axis + s * x3 axis in
  let r20 := z3 temp * x3 axis + s * y3 axis in
  let r21 := z3 temp * y3 axis - s * x3 axis in
  let r22 := c + z3 temp * z3 axis in
  Mat4 (add4 (add4 (smul4 (col0 m) r00) (smul4 (col1 m) r01)) (smul4 (col2 m) r02))
       (add4 (add4 (smul4 (col0 m) r10) (smul4 (col1 m) r11)) (smul4 (col2 m) r12))
       (add4 (add4 (smul4 (col0 m) r20) (smul4 (col1 m) r21)) (smul4 (col2 m) r22))
       (col3 m).

(** [glm::radians(degrees)]. *)
Definition radians (degrees : R) : R := degrees * (PI / 180).

End Glm.

Import Glm.

(** ** The off-axis frustum computation of [render]

    [render] repeats one block three times, for [leftWallVerts],
    [rightWallVerts] and [floorVerts]; the definitions below are that
    block with the array of four corners as a parameter. *)

(** A C++ [vec3 a[4]]. *)
Record verts4 : Type := Verts4 { at0 : vec3; at1 : vec3; at2 : vec3; at3 : vec3 }.

Module OffAxis.

Definition nearVal : R := 1 / 1000.   (* 0.001f *)
Definition farVal : R := 1000.        (* 1000.f *)

Section Block.
Variable verts : verts4.
Variable eyePos : vec3.

Definition va : vec3 := sub3 (at0 verts) eyePos.
Definition vb : vec3 := sub3 (at1 verts) eyePos.
Definition vc : vec3 := sub3 (at3 verts) eyePos.

Definition vr : vec3 := normalize (sub3 (at1 verts) (at0 verts)).
Definition vu : vec3 := normalize (sub3 (at3 verts) (at0 verts)).
Definition vn : vec3 := normalize (cross vr vu).

Definition dist : R := - dot vn va.
Definition l : R := dot vr va * nearVal / dist.
Definition r : R := dot vr vb * nearVal / dist.
Definition b : R := dot vu va * nearVal / dist.
Definition t : R := dot vu vc * nearVal / dist.

(** [M = mat4(1); M[0] = vec4(vr,0); M[1] = vec4(vu,0); M[2] = vec4(vn,0);
    M = transpose(M)]. *)
Definition M : mat4 :=
  transpose (Mat4 (vec4_of vr 0) (vec4_of vu 0) (vec4_of vn 0) (col3 mat4_id)).

(** [T = mat4(1); T[3] = vec4(-eyePos.x, -eyePos.y, -eyePos.z, 1)]. *)
Definition T : mat4 :=
  Mat4 (col0 mat4_id) (col1 mat4_id) (col2 mat4_id)
       (Vec4 (- x3 eyePos) (- y3 eyePos) (- z3 eyePos) 1).

(** [glm::frustum(l, r, b, t, 0.001f, 1000.f) * M * T]. *)
Definition quadProjection : mat4 :=
  mul_mm (mul_mm (frustum l r b t nearVal farVal) M) T.
End Block.

(** Clip-space image of a world point, and its x and y after the
    perspective divide. *)
Definition clip (verts : verts4) (eyePos p : vec3) : vec4 :=
  mul_mv (quadProjection verts eyePos) (vec4_of p 1).
Definition ndc_x (v : vec4) : R := x4 v / w4 v.
Definition ndc_y (v : vec4) : R := y4 v / w4 v.

(** *** The shape of a wall *)

(** The two edges at corner 0, and their lengths. *)
Definition edge_right (c : verts4) : vec3 := sub3 (at1 c) (at0 c).
Definition edge_up (c : verts4) : vec3 := sub3 (at3 c) (at0 c).
Definition side_right (c : verts4) : R := sqrt (dot (edge_right c) (edge_right c)).
Definition side_up (c : verts4) : R := sqrt (dot (edge_up c) (edge_up c)).

(** The spec's invariant of a surface: the tangents have a nonzero cross
    product, and the four corners lie in one plane. *)
Definition non_degenerate (c : verts4) : Prop :=
  cross (edge_right c) (edge_up c) <> vec3_zero.
Definition coplanar (c : verts4) : Prop :=
  dot (cross (edge_right c) (edge_up c)) (sub3 (at2 c) (at0 c)) = 0.

(** A rectangle: the edges at corner 0 are perpendicular and corner 2 is
    opposite corner 0. *)
Definition rectangle (c : verts4) : Prop :=
  dot (edge_right c) (edge_up c) = 0 /\ at2 c = add3 (at1 c) (edge_up c).

(** A clip-space point on the boundary of the canonical square, and a
    wall all of whose corners are. *)
Definition on_boundary (v : vec4) : Prop :=
  (ndc_x v = 1 \/ ndc_x v = -1) /\ (ndc_y v = 1 \/ ndc_y v = -1).
Definition fills_image (c : verts4) (e : vec3) : Prop :=
  on_boundary (clip c e (at0 c)) /\ on_boundary (clip c e (at1 c)) /\
  on_boundary (clip c e (at2 c)) /\ on_boundary (clip c e (at3 c)).

(** The unit quad centred at the origin and facing +Z. *)
Definition unit_quad : verts4 :=
  Verts4 (Vec3 (- (1 / 2)) (- (1 / 2)) 0) (Vec3 (1 / 2) (- (1 / 2)) 0)
         (Vec3 (1 / 2) (1 / 2) 0) (Vec3 (- (1 / 2)) (1 / 2) 0).

(** A sheared quad: a parallelogram in the plane z = 0 whose sides are
    not perpendicular. *)
Definition sheared_quad : verts4 :=
  Verts4 (Vec3 0 0 0) (Vec3 1 0 0) (Vec3 4 4 0) (Vec3 3 4 0).

(** *** Guards on the distance *)

(** What one block does with its entry of [quadProjections]: the source
    is straight-line code ending in the assignment. *)
Inductive BlockOutcome : Type :=
| block_assigned (m : mat4)
| block_skipped
| block_rejected.

Definition block_outcome (verts : verts4) (eyePos : vec3) : BlockOutcome :=
  block_assigned (quadProjection verts eyePos).

(** The block with its distance clamped from below to [eps], in the
    words of the spec. *)
Definition clamped_projection (eps : R) (verts : verts4) (eyePos : vec3) : mat4 :=
  let d := Rmax (dist verts eyePos) eps in
  mul_mm (mul_mm (frustum (dot (vr verts) (va verts eyePos) * nearVal / d)
                          (dot (vr verts) (vb verts eyePos) * nearVal / d)
                          (dot (vu verts) (va verts eyePos) * nearVal / d)
                          (dot (vu verts) (vc verts eyePos) * nearVal / d)
                          nearVal farVal)
                 (M verts))
         (T eyePos).

(** A guard on [dist] with threshold [eps], in the words of the spec:
    below the threshold the block clamps, skips or rejects. *)
Definition guards_dist (eps : R) : Prop :=
  forall (verts : verts4) (eyePos : vec3),
    Rabs (dist verts eyePos) < eps ->
    block_outcome verts eyePos = block_assigned (clamped_projection eps verts eyePos)
    \/ block_outcome verts eyePos = block_skipped
    \/ block_outcome verts eyePos = block_rejected.

End OffAxis.

(** ** Oculus SDK types, as far as the scene reads them *)

(** [ovrEye_Left = 0], [ovrEye_Right = 1].  The scene subscripts its
    arrays of two with an [ovrEyeType], with [ovrHand_Left]/[ovrHand_Right]
    (0 and 1) and with its own [LEFT]/[RIGHT] macros (0 and 1). *)
Inductive ovrEyeType : Type := ovrEye_Left | ovrEye_Right.

Definition LEFT : ovrEyeType := ovrEye_Left.      (* #define LEFT 0 *)
Definition RIGHT : ovrEyeType := ovrEye_Right.    (* #define RIGHT 1 *)
Definition ovrHand_Left : ovrEyeType := ovrEye_Left.
Definition ovrHand_Right : ovrEyeType := ovrEye_Right.

(** The C++ truth value of an [ovrEyeType], as in [if (!eye)] and
    [eye && broken]. *)
Definition eye_true (eye : ovrEyeType) : bool :=
  match eye with ovrEye_Left => false | ovrEye_Right => true end.

(** [eye * 3 + i]. *)
Definition eye_times3 (eye : ovrEyeType) : Z :=
  match eye with ovrEye_Left => 0%Z | ovrEye_Right => 3%Z end.

(** A C++ array of two and of three. *)
Record arr2 (A : Type) : Type := Arr2 { elt0 : A; elt1 : A }.
Arguments Arr2 {A} _ _.
Arguments elt0 {A} _.
Arguments elt1 {A} _.

Definition sub2 {A : Type} (a : arr2 A) (i : ovrEyeType) : A :=
  match i with ovrEye_Left => elt0 a | ovrEye_Right => elt1 a end.
Definition upd2 {A : Type} (a : arr2 A) (i : ovrEyeType) (v : A) : arr2 A :=
  match i with
  | ovrEye_Left => Arr2 v (elt1 a)
  | ovrEye_Right => Arr2 (elt0 a) v
  end.

Record arr3 (A : Type) : Type := Arr3 { e0 : A; e1 : A; e2 : A }.
Arguments Arr3 {A} _ _ _.
Arguments e0 {A} _.
Arguments e1 {A} _.
Arguments e2 {A} _.

Record ovrVector2f : Type := Vector2f { x2 : R; y2 : R }.
Record ovrQuatf : Type := Quatf { qx : R; qy : R; qz : R; qw : R }.

(** [ovrPosef]; [ovr::toGlm] of the position is the same three floats. *)
Record ovrPosef : Type := Posef { Orientation : ovrQuatf; Position : vec3 }.

(** The fields of [ovrInputState] the scene reads.  [Buttons] is the
    [unsigned int] bit mask. *)
Record ovrInputState : Type := InputState {
  Buttons : Z;
  Thumbstick : arr2 ovrVector2f;
  HandTrigger : arr2 R
}.

(** The button bits of OVR_CAPI.h that the scene tests. *)
Definition ovrButton_A : Z := 0x001.
Definition ovrButton_B : Z := 0x002.
Definition ovrButton_X : Z := 0x100.
Definition ovrButton_LThumb : Z := 0x400.

(** [inputState.Buttons & button] as a C++ condition. *)
Definition button_set (inputState : ovrInputState) (button : Z) : bool :=
  negb (Z.eqb (Z.land (Buttons inputState) button) 0).

(** Comparisons of floats as C++ conditions. *)
Definition Rneb (a c : R) : bool := if Req_dec_T a c then false else true.
Definition Rgtb (a c : R) : bool := if Rgt_dec a c then true else false.
Definition Rltb (a c : R) : bool := if Rlt_dec a c then true else false.

(** ** The scene object *)

(** The members of [ColorCubeScene] that [render] and [checkInput] read or
    write, under their C++ names.  [leftwall], [rightwall] and [floor] stand
    for the [vertices] of the three [Quad] objects.  GL object names
    (programs, textures, the framebuffer) are not part of the record; the
    members [trackstate] and [inputstate] are written and read within one
    call of [render] and are locals here. *)
Record ColorCubeScene : Type := Scene {
  boxtransform : mat4;
  boxScale : R;
  leftwall : verts4;
  rightwall : verts4;
  floor : verts4;
  leftWallVerts : verts4;
  rightWallVerts : verts4;
  floorVerts : verts4;
  eyePos : arr2 vec3;
  quadProjections : arr3 mat4;
  posOnly : mat4;
  B_down : bool;
  A_down : bool;
  X_down : bool;
  track : bool;
  debug : bool;
  broken : bool;
  viewFromController : bool;
  handPoses : arr2 ovrPosef;
  triggerPressed : arr2 bool
}.

(** Assignments to single members. *)
Definition set_boxtransform (v : mat4) (s : ColorCubeScene) : ColorCubeScene :=
  Scene v (boxScale s) (leftwall s) (rightwall s) (floor s)
    (leftWallVerts s) (rightWallVerts s) (floorVerts s) (eyePos s)
    (quadProjections s) (posOnly s) (B_down s) (A_down s) (X_down s) (track s)
    (debug s) (broken s) (viewFromController s) (handPoses s) (triggerPressed s).
Definition set_boxScale (v : R) (s : ColorCubeScene) : ColorCubeScene :=
  Scene (boxtransform s) v (leftwall s) (rightwall s) (floor s)
    (leftWallVerts s) (rightWallVerts s) (floorVerts s) (eyePos s)
    (quadProjections s) (posOnly s) (B_down s) (A_down s) (X_down s) (track s)
    (debug s) (broken s) (viewFromController s) (handPoses s) (triggerPressed s).
Definition set_leftWallVerts (v : verts4) (s : ColorCubeScene) : ColorCubeScene :=
  Scene (boxtransform s) (boxScale s) (leftwall s) (rightwall s) (floor s)
    v (rightWallVerts s) (floorVerts s) (eyePos s)
    (quadProjections s) (posOnly s) (B_down s) (A_down s) (X_down s) (track s)
    (debug s) (broken s) (viewFromController s) (handPoses s) (triggerPressed s).
Definition set_rightWallVerts (v : verts4) (s : ColorCubeScene) : ColorCubeScene :=
  Scene (boxtransform s) (boxScale s) (leftwall s) (rightwall s) (floor s)
    (leftWallVerts s) v (floorVerts s) (eyePos s)
    (quadProjections s) (posOnly s) (B_down s) (A_down s) (X_down s) (track s)
    (debug s) (broken s) (viewFromController s) (handPoses s) (triggerPressed s).
Definition set_floorVerts (v : verts4) (s : ColorCubeScene) : ColorCubeScene :=
  Scene (boxtransform s) (boxScale s) (leftwall s) (rightwall s) (floor s)
    (leftWallVerts s) (rightWallVerts s) v (eyePos s)
    (quadProjections s) (posOnly s) (B_down s) (A_down s) (X_down s) (track s)
    (debug s) (broken s) (viewFromController s) (handPoses s) (triggerPressed s).
Definition set_eyePos (v : arr2 vec3) (s : ColorCubeScene) : ColorCubeScene :=
  Scene (boxtransform s) (boxScale s) (leftwall s) (rightwall s) (floor s)
    (leftWallVerts s) (rightWallVerts s) (floorVerts s) v
    (quadProjections s) (posOnly s) (B_down s) (A_down s) (X_down s) (track s)
    (debug s) (broken s) (viewFromController s) (handPoses s) (triggerPressed s).
Definition set_quadProjections (v : arr3 mat4) (s : ColorCubeScene) : ColorCubeScene :=
  Scene (boxtransform s) (boxScale s) (leftwall s) (rightwall s) (floor s)
    (leftWallVerts s) (rightWallVerts s) (floorVerts s) (eyePos s)
    v (posOnly s) (B_down s) (A_down s) (X_down s) (track s)
    (debug s) (broken s) (viewFromController s) (handPoses s) (triggerPressed s).
Definition set_posOnly (v : mat4) (s : ColorCubeScene) : ColorCubeScene :=
  Scene (boxtransform s) (boxScale s) (leftwall s) (rightwall s) (floor s)
    (leftWallVerts s) (rightWallVerts s) (floorVerts s) (eyePos s)
    (quadProjections s) v (B_down s) (A_down s) (X_down s) (track s)
    (debug s) (broken s) (viewFromController s) (handPoses s) (triggerPressed s).
Definition set_B_down (v : bool) (s : ColorCubeScene) : ColorCubeScene :=
  Scene (boxtransform s) (boxScale s) (leftwall s) (rightwall s) (floor s)
    (leftWallVerts s) (rightWallVerts s) (floorVerts s) (eyePos s)
    (quadProjections s) (posOnly s) v (A_down s) (X_down s) (track s)
    (debug s) (broken s) (viewFromController s) (handPoses s) (triggerPressed s).
Definition set_A_down (v : bool) (s : ColorCubeScene) : ColorCubeScene :=
  Scene (boxtransform s) (boxScale s) (leftwall s) (rightwall s) (floor s)
    (leftWallVerts s) (rightWallVerts s) (floorVerts s) (eyePos s)
    (quadProjections s) (posOnly s) (B_down s) v (X_down s) (track s)
    (debug s) (broken s) (viewFromController s) (handPoses s) (triggerPressed s).
Definition set_X_down (v : bool) (s : ColorCubeScene) : ColorCubeScene :=
  Scene (boxtransform s) (boxScale s) (leftwall s) (rightwall s) (floor s)
    (leftWallVerts s) (rightWallVerts s) (floorVerts s) (eyePos s)
    (quadProjections s) (posOnly s) (B_down s) (A_down s) v (track s)
    (debug s) (broken s) (viewFromController s) (handPoses s) (triggerPressed s).
Definition set_track (v : bool) (s : ColorCubeScene) : ColorCubeScene :=
  Scene (boxtransform s) (boxScale s) (leftwall s) (rightwall s) (floor s)
    (leftWallVerts s) (rightWallVerts s) (floorVerts s) (eyePos s)
    (quadProjections s) (posOnly s) (B_down s) (A_down s) (X_down s) v
    (debug s) (broken s) (viewFromController s) (handPoses s) (triggerPressed s).
Definition set_debug (v : bool) (s : ColorCubeScene) : ColorCubeScene :=
  Scene (boxtransform s) (boxScale s) (leftwall s) (rightwall s) (floor s)
    (leftWallVerts s) (rightWallVerts s) (floorVerts s) (eyePos s)
    (quadProjections s) (posOnly s) (B_down s) (A_down s) (X_down s) (track s)
    v (broken s) (viewFromController s) (handPoses s) (triggerPressed s).
Definition set_broken (v : bool) (s : ColorCubeScene) : ColorCubeScene :=
  Scene (boxtransform s) (boxScale s) (leftwall s) (rightwall s) (floor s)
    (leftWallVerts s) (rightWallVerts s) (floorVerts s) (eyePos s)
    (quadProjections s) (posOnly s) (B_down s) (A_down s) (X_down s) (track s)
    (debug s) v (viewFromController s) (handPoses s) (triggerPressed s).
Definition set_viewFromController (v : bool) (s : ColorCubeScene) : ColorCubeScene :=
  Scene (boxtransform s) (boxScale s) (leftwall s) (rightwall s) (floor s)
    (leftWallVerts s) (rightWallVerts s) (floorVerts s) (eyePos s)
    (quadProjections s) (posOnly s) (B_down s) (A_down s) (X_down s) (track s)
    (debug s) (broken s) v (handPoses s) (triggerPressed s).
Definition set_handPoses (v : arr2 ovrPosef) (s : ColorCubeScene) : ColorCubeScene :=
  Scene (boxtransform s) (boxScale s) (leftwall s) (rightwall s) (floor s)
    (leftWallVerts s) (rightWallVerts s) (floorVerts s) (eyePos s)
    (quadProjections s) (posOnly s) (B_down s) (A_down s) (X_down s) (track s)
    (debug s) (broken s) (viewFromController s) v (triggerPressed s).
Definition set_triggerPressed (v : arr2 bool) (s : ColorCubeScene) : ColorCubeScene :=
  Scene (boxtransform s) (boxScale s) (leftwall s) (rightwall s) (floor s)
    (leftWallVerts s) (rightWallVerts s) (floorVerts s) (eyePos s)
    (quadProjections s) (posOnly s) (B_down s) (A_down s) (X_down s) (track s)
    (debug s) (broken s) (viewFromController s) (handPoses s) v.

(** ** [ColorCubeScene::checkInput]

    The body of the function is a sequence of nine [if] statements; each
    is a definition below, under the comment it carries in the source. *)

Section CheckInput.
Variable inputState : ovrInputState.

(** On left thumbstick movement, change box size. *)
Definition change_box_size (s : ColorCubeScene) : ColorCubeScene :=
  let x := x2 (sub2 (Thumbstick inputState) ovrHand_Left) in
  if Rneb x 0 then
    let temp := boxScale s + x * (1 / 100) in
    if Rgtb temp (1 / 100) && Rltb temp 1 then set_boxScale temp s else s
  else s.

(** On left thumbstick press, reset box size. *)
Definition reset_box_size (s : ColorCubeScene) : ColorCubeScene :=
  if button_set inputState ovrButton_LThumb then set_boxScale (2 / 10) s else s.

(** On right thumbstick movement or left thumbstick vertical movement,
    translate box. *)
Definition translate_box (s : ColorCubeScene) : ColorCubeScene :=
  let right := sub2 (Thumbstick inputState) ovrHand_Right in
  let left := sub2 (Thumbstick inputState) ovrHand_Left in
  if Rneb (x2 right) 0 || Rneb (y2 right) 0 || Rneb (y2 left) 0 then
    set_boxtransform
      (translate (boxtransform s)
         (Vec3 (x2 right * (1 / 100)) (y2 right * (1 / 100))
               (y2 left * (- (1 / 100))))) s
  else s.

(** On B press, change head tracking mode. *)
Definition press_B (s : ColorCubeScene) : ColorCubeScene :=
  if button_set inputState ovrButton_B && negb (B_down s)
  then set_track (negb (track s)) (set_B_down true s) else s.
Definition release_B (s : ColorCubeScene) : ColorCubeScene :=
  if negb (button_set inputState ovrButton_B) then set_B_down false s else s.

(** Check A press. *)
Definition press_A (s : ColorCubeScene) : ColorCubeScene :=
  if button_set inputState ovrButton_A && negb (A_down s)
  then set_debug (negb (debug s)) (set_A_down true s) else s.
Definition release_A (s : ColorCubeScene) : ColorCubeScene :=
  if negb (button_set inputState ovrButton_A) then set_A_down false s else s.

(** Check X press. *)
Definition press_X (s : ColorCubeScene) : ColorCubeScene :=
  if button_set inputState ovrButton_X && negb (X_down s)
  then set_broken (negb (broken s)) (set_X_down true s) else s.
Definition release_X (s : ColorCubeScene) : ColorCubeScene :=
  if negb (button_set inputState ovrButton_X) then set_X_down false s else s.
End CheckInput.

(** [query] is the outcome of [ovr_GetInputState]: [Some inputState] when
    [OVR_SUCCESS] holds of the result, [None] otherwise.  The reference
    parameters of the C++ function are bound to the members of the same
    names at its only call. *)
Definition checkInput (query : option ovrInputState) (s : ColorCubeScene)
  : ColorCubeScene :=
  match query with
  | None => s
  | Some inputState =>
    let s := change_box_size inputState s in
    let s := reset_box_size inputState s in
    let s := translate_box inputState s in
    let s := press_B inputState s in
    let s := release_B inputState s in
    let s := press_A inputState s in
    let s := release_A inputState s in
    let s := press_X inputState s in
    let s := release_X inputState s in
    s
  end.

(** ** [ColorCubeScene::render] *)

(** What one call of [render] receives from outside the scene: its
    arguments, and the answers of the device during the call. *)
Record Frame : Type := MkFrame {
  projection : mat4;
  modelview : mat4;
  eye : ovrEyeType;
  RenderPose : arr2 ovrPosef;                 (* _sceneLayer.RenderPose *)
  checkInput_query : option ovrInputState;    (* ovr_GetInputState in checkInput *)
  HandPose_Right : ovrPosef;  (* trackstate.HandPoses[ovrHand_Right].ThePose *)
  trigger_query : option ovrInputState        (* ovr_GetInputState in render *)
}.

(** The [modelview] uniform of [shaderProg] during the wall passes. *)
Inductive SceneView : Type :=
| view_inverse_of_hand (pose : ovrPosef) (* glm::inverse(ovr::toGlm(handPoses[RIGHT])) *)
| view_matrix (m : mat4).

Inductive Surface : Type := LeftWall | RightWall | Floor.

(** One iteration of the render-to-texture loop. *)
Record WallPass : Type := MkWallPass {
  pass_target : Z;             (* subscript of renderedTextures *)
  pass_projection : mat4;      (* quadProjections[i] *)
  pass_boxTransform : mat4     (* scaledBoxTransform *)
}.

(** One wall of the CAVE drawn into the eye buffer, with the value the
    [broken] uniform of [screenShaderProg] has at that draw. *)
Record CaveDraw : Type := MkCaveDraw {
  cave_surface : Surface;
  cave_transform : mat4;
  cave_uBroken : Z;
  cave_texture : Z             (* subscript of renderedTextures *)
}.

(** The GL work of one call, as far as it depends on the scene. *)
Record Rendered : Type := MkRendered {
  scene_modelview : SceneView;
  wall_passes : list WallPass;
  cave_projection : mat4;
  cave_modelview : mat4;
  cave_draws : list CaveDraw;
  wireframes : list (list vec3)
}.

Definition vec3_all (k : R) : vec3 := Vec3 k k k.   (* glm::vec3(k) *)

Definition leftTransform : mat4 :=
  translate (scale (rotate mat4_id (radians 45) (Vec3 0 1 0)) (vec3_all (12 / 10)))
            (Vec3 (- 0) 0 (-1)).
Definition rightTransform : mat4 :=
  translate (scale (rotate mat4_id (radians (- 45)) (Vec3 0 1 0)) (vec3_all (12 / 10)))
            (Vec3 0 0 (-1)).
Definition floorTransform : mat4 :=
  translate
    (scale (rotate (rotate mat4_id (radians (- 90)) (Vec3 1 0 0))
                   (radians 45) (Vec3 0 0 1))
           (vec3_all (12 / 10)))
    (Vec3 0 0 (-1)).

(** [wallVerts[i] = transform * vec4(wall->vertices[i], 1.0f)], i = 0..3. *)
Definition transform_verts (transform : mat4) (vertices : verts4) : verts4 :=
  Verts4 (vec3_of (mul_mv transform (vec4_of (at0 vertices) 1)))
         (vec3_of (mul_mv transform (vec4_of (at1 vertices) 1)))
         (vec3_of (mul_mv transform (vec4_of (at2 vertices) 1)))
         (vec3_of (mul_mv transform (vec4_of (at3 vertices) 1))).

(** The pyramid of a wall: the eye, then corners 0, 1, 3, 2. *)
Definition pyramid_vertices (apex : vec3) (v : verts4) : list vec3 :=
  [apex; at0 v; at1 v; at3 v; at2 v].

(** The statements of [render] that write members, in order. *)
Section RenderSteps.
Variable f : Frame.

(** [handPoses[RIGHT] = trackstate.HandPoses[ovrHand_Right].ThePose]. *)
Definition read_hand_pose (s : ColorCubeScene) : ColorCubeScene :=
  set_handPoses (upd2 (handPoses s) RIGHT (HandPose_Right f)) s.

(** Finger triggers. *)
Definition read_trigger (s : ColorCubeScene) : ColorCubeScene :=
  match trigger_query f with
  | Some inputstate =>
    set_triggerPressed
      (upd2 (triggerPressed s) RIGHT
            (Rgtb (sub2 (HandTrigger inputstate) ovrHand_Right) (1 / 2))) s
  | None => s
  end.

(** [viewFromController = triggerPressed[RIGHT]]. *)
Definition pick_view_source (s : ColorCubeScene) : ColorCubeScene :=
  set_viewFromController (sub2 (triggerPressed s) RIGHT) s.

(** [if (viewFromController) { ... } else { if (track) posOnly[3] =
    modelview[3]; ... }]. *)
Definition follow_head_position (s : ColorCubeScene) : ColorCubeScene :=
  if viewFromController s then s
  else if track s
       then set_posOnly (Mat4 (col0 (posOnly s)) (col1 (posOnly s))
                              (col2 (posOnly s)) (col3 (modelview f))) s
       else s.

(** The update of [eyePos[eye]] at the head of "LEFT WALL MATH". *)
Definition update_eyePos (s : ColorCubeScene) : ColorCubeScene :=
  if viewFromController s then
    if track s then
      let p := Position (sub2 (handPoses s) RIGHT) in
      if negb (eye_true (eye f))   (* Left eye *)
      then set_eyePos (upd2 (eyePos s) (eye f)
                            (Vec3 (x3 p - 325 / 10000) (y3 p) (z3 p))) s
      else set_eyePos (upd2 (eyePos s) (eye f)
                            (Vec3 (x3 p + 325 / 10000) (y3 p) (z3 p))) s
    else s
  else
    if track s
    then set_eyePos (upd2 (eyePos s) (eye f) (Position (sub2 (RenderPose f) (eye f)))) s
    else s.

(** LEFT WALL MATH. *)
Definition left_wall_math (s : ColorCubeScene) : ColorCubeScene :=
  let s := set_leftWallVerts (transform_verts leftTransform (leftwall s)) s in
  set_quadProjections
    (Arr3 (OffAxis.quadProjection (leftWallVerts s) (sub2 (eyePos s) (eye f)))
          (e1 (quadProjections s)) (e2 (quadProjections s))) s.

(** RIGHT WALL MATH. *)
Definition right_wall_math (s : ColorCubeScene) : ColorCubeScene :=
  let s := set_rightWallVerts (transform_verts rightTransform (rightwall s)) s in
  set_quadProjections
    (Arr3 (e0 (quadProjections s))
          (OffAxis.quadProjection (rightWallVerts s) (sub2 (eyePos s) (eye f)))
          (e2 (quadProjections s))) s.

(** FLOOR WALL MATH. *)
Definition floor_math (s : ColorCubeScene) : ColorCubeScene :=
  let s := set_floorVerts (transform_verts floorTransform (floor s)) s in
  set_quadProjections
    (Arr3 (e0 (quadProjections s)) (e1 (quadProjections s))
          (OffAxis.quadProjection (floorVerts s) (sub2 (eyePos s) (eye f)))) s.
End RenderSteps.

(** The state part of [render]: everything up to "MATHEMATICS END". *)
Definition render_update (f : Frame) (s : ColorCubeScene) : ColorCubeScene :=
  let s := checkInput (checkInput_query f) s in
  let s := read_hand_pose f s in
  let s := read_trigger f s in
  let s := pick_view_source s in
  let s := follow_head_position f s in
  let s := update_eyePos f s in
  let s := left_wall_math f s in
  let s := right_wall_math f s in
  let s := floor_math f s in
  s.

(** The GL part of [render], from the scene as [render_update] leaves it. *)
Definition render_output (f : Frame) (s : ColorCubeScene) : Rendered :=
  let eye := eye f in
  let scaledBoxTransform := scale (boxtransform s) (vec3_all (boxScale s)) in
  MkRendered
    (if viewFromController s
     then view_inverse_of_hand (sub2 (handPoses s) RIGHT)
     else view_matrix (posOnly s))
    [ MkWallPass (eye_times3 eye + 0) (e0 (quadProjections s)) scaledBoxTransform;
      MkWallPass (eye_times3 eye + 1) (e1 (quadProjections s)) scaledBoxTransform;
      MkWallPass (eye_times3 eye + 2) (e2 (quadProjections s)) scaledBoxTransform ]
    (projection f)
    (modelview f)
    [ MkCaveDraw LeftWall leftTransform 0 (eye_times3 eye);
      MkCaveDraw RightWall rightTransform 0 (eye_times3 eye + 1);
      MkCaveDraw Floor floorTransform
                 (if eye_true eye && broken s then 2 else 0)
                 (eye_times3 eye + 2) ]
    (if debug s
     then [ pyramid_vertices (sub2 (eyePos s) eye) (leftWallVerts s);
            pyramid_vertices (sub2 (eyePos s) eye) (rightWallVerts s);
            pyramid_vertices (sub2 (eyePos s) eye) (floorVerts s) ]
     else []).

Definition render (f : Frame) (s : ColorCubeScene) : ColorCubeScene * Rendered :=
  let s' := render_update f s in (s', render_output f s').

(** The scene after a sequence of calls of [render], and what they drew. *)
Fixpoint run (frames : list Frame) (s : ColorCubeScene) : ColorCubeScene :=
  match frames with
  | [] => s
  | f :: rest => run rest (render_update f s)
  end.

Fixpoint run_output (frames : list Frame) (s : ColorCubeScene) : list Rendered :=
  match frames with
  | [] => []
  | f :: rest => render_output f (render_update f s) :: run_output rest (render_update f s)
  end.

(** ** Start-up: the data of [loadPPM] and of the [ColorCubeScene] constructor *)

Module Startup.

Definition bytes : Type := list Byte.byte.

(** The files [fopen(filename, "rb")] can open, with their contents;
    [None] is [fopen] returning [NULL]. *)
Definition FileSystem : Type := string -> option bytes.

(** What a call of [loadPPM] leaves behind: the returned pointer ([None]
    is the null pointer [0]), the two reference parameters, and the lines
    written to [std::cerr]. *)
Record PPM : Type := MkPPM {
  rawData : option bytes;
  width : Z;
  height : Z;
  cerr_lines : list string
}.

(** What the constructor threads through its calls: [imgWidth],
    [imgHeight], the texture uploads made so far and the lines written to
    [std::cerr]. *)
Inductive TexUpload : Type :=
| BoxTexture (faces : list (option bytes)) (w h : Z)
| QuadTexture (data : option bytes) (w h : Z).

Record CtorState : Type := MkCtorState {
  imgWidth : Z;
  imgHeight : Z;
  uploads : list TexUpload;
  cerr : list string
}.

Definition asset_box : string := "../Project3-Assets/vr_test_pattern.ppm".
Definition assets_left : list string :=
  [ "../Project3-Assets/left-ppm/px.ppm"; "../Project3-Assets/left-ppm/nx.ppm";
    "../Project3-Assets/left-ppm/py.ppm"; "../Project3-Assets/left-ppm/ny.ppm";
    "../Project3-Assets/left-ppm/pz.ppm"; "../Project3-Assets/left-ppm/nz.ppm" ]%string.
Definition assets_right : list string :=
  [ "../Project3-Assets/right-ppm/px.ppm"; "../Project3-Assets/right-ppm/nx.ppm";
    "../Project3-Assets/right-ppm/py.ppm"; "../Project3-Assets/right-ppm/ny.ppm";
    "../Project3-Assets/right-ppm/pz.ppm"; "../Project3-Assets/right-ppm/nz.ppm" ]%string.
Definition assets_bsk : list string :=
  [ "../Project3-Assets/bsk/SunSetLeft2048.ppm"; "../Project3-Assets/bsk/SunSetRight2048.ppm";
    "../Project3-Assets/bsk/SunSetUp2048.ppm"; "../Project3-Assets/bsk/SunSetDown2048.ppm";
    "../Project3-Assets/bsk/SunSetFront2048.ppm"; "../Project3-Assets/bsk/SunSetBack2048.ppm" ]%string.
Definition assets_walls : list string :=
  [ "../Project3-Assets/left-ppm/nx.ppm"; "../Project3-Assets/right-ppm/nx.ppm";
    "../Project3-Assets/left-ppm/pz.ppm"; "../Project3-Assets/right-ppm/pz.ppm";
    "../Project3-Assets/left-ppm/ny.ppm"; "../Project3-Assets/right-ppm/ny.ppm" ]%string.

(** Every file the constructor loads, in the order of the calls. *)
Definition texture_assets : list string :=
  asset_box :: assets_left ++ assets_right ++ assets_bsk ++ assets_walls.

(** The scene as the member initialisers and the constructor body leave
    it.  [Quad_vertices] is the [vertices] member of a [Quad()] (Quad.h is
    not among the sources); [handPoses] has no initialiser and is written
    before it is read.  [vec3()] is zero and [mat4()] the identity. *)
Definition initial_scene (Quad_vertices : verts4) (hands : arr2 ovrPosef)
  : ColorCubeScene :=
  {| boxtransform := translate mat4_id (Vec3 0 0 (-1));
     boxScale := 2 / 10;
     leftwall := Quad_vertices;
     rightwall := Quad_vertices;
     floor := Quad_vertices;
     leftWallVerts := Verts4 vec3_zero vec3_zero vec3_zero vec3_zero;
     rightWallVerts := Verts4 vec3_zero vec3_zero vec3_zero vec3_zero;
     floorVerts := Verts4 vec3_zero vec3_zero vec3_zero vec3_zero;
     eyePos := Arr2 vec3_zero vec3_zero;
     quadProjections := Arr3 mat4_id mat4_id mat4_id;
     posOnly := mat4_id;
     B_down := false;
     A_down := false;
     X_down := false;
     track := true;
     debug := false;
     broken := false;
     viewFromController := false;
     handPoses := hands;
     triggerPressed := Arr2 false false |}.

(** [imgWidth] and [imgHeight] are written by the first [loadPPM] before
    they are read; nothing has been uploaded or printed yet. *)
Definition ctor_start : CtorState := MkCtorState 0 0 [] [].

(** A file system on which no [fopen] succeeds. *)
Definition no_files : FileSystem := fun _ => None.

End Startup.

(** ** Vocabulary of the statements *)

(** *** Parts of the scene *)

(** The members that only [checkInput] writes. *)
Definition controls (s : ColorCubeScene) :=
  (boxtransform s, boxScale s, (track s, debug s, broken s), (A_down s, B_down s, X_down s)).

(** The members [checkInput] never writes. *)
Definition view_state (s : ColorCubeScene) :=
  (leftwall s, rightwall s, floor s, (leftWallVerts s, rightWallVerts s, floorVerts s),
   eyePos s, quadProjections s, posOnly s, (viewFromController s, handPoses s, triggerPressed s)).

(** The members an input query can change. *)
Definition interaction_state (s : ColorCubeScene) :=
  (controls s, triggerPressed s).


(** A statement of the source that leaves a part of the scene as it is. *)
Definition keeps {A : Type} (part : ColorCubeScene -> A)
           (step : ColorCubeScene -> ColorCubeScene) : Prop :=
  forall s, part (step s) = part s.

(** [render_update] in two phases: the statements before the wall
    mathematics, and the three blocks. *)
Definition before_wall_math (f : Frame) (s : ColorCubeScene) : ColorCubeScene :=
  update_eyePos f (follow_head_position f (pick_view_source (read_trigger f (read_hand_pose f s)))).
Definition wall_math (f : Frame) (s : ColorCubeScene) : ColorCubeScene :=
  floor_math f (right_wall_math f (left_wall_math f s)).

(** *** The scale input *)

(** One sample of the scale inputs: a left-thumbstick press gives 0.2;
    otherwise a nonzero x adds x * 0.01 when the sum is strictly between
    0.01 and 1.0. *)
Definition scale_input (i : ovrInputState) (scale : R) : R :=
  let x := x2 (sub2 (Thumbstick i) ovrHand_Left) in
  if button_set i ovrButton_LThumb then 2 / 10
  else if Rneb x 0 && (Rgtb (scale + x * (1 / 100)) (1 / 100) && Rltb (scale + x * (1 / 100)) 1)
       then scale + x * (1 / 100)
       else scale.

(** *** Edge-triggered buttons *)

(** One sample of an edge-triggered button, on the pair of the flag and
    its latch. *)
Definition edge (pressed : bool) (fl : bool * bool) : bool * bool :=
  (if pressed && negb (snd fl) then negb (fst fl) else fst fl, pressed).

Definition B_pair (s : ColorCubeScene) := (track s, B_down s).
Definition A_pair (s : ColorCubeScene) := (debug s, A_down s).
Definition X_pair (s : ColorCubeScene) := (broken s, X_down s).

Inductive EdgeButton : Type := Button_A | Button_B | Button_X.

Definition button_mask (btn : EdgeButton) : Z :=
  match btn with
  | Button_A => ovrButton_A
  | Button_B => ovrButton_B
  | Button_X => ovrButton_X
  end.

(** The flag a button toggles and the latch that remembers it is down. *)
Definition flag (btn : EdgeButton) (s : ColorCubeScene) : bool :=
  match btn with
  | Button_A => debug s
  | Button_B => track s
  | Button_X => broken s
  end.
Definition latch (btn : EdgeButton) (s : ColorCubeScene) : bool :=
  match btn with
  | Button_A => A_down s
  | Button_B => B_down s
  | Button_X => X_down s
  end.

(** The button is seen pressed in the frame's [checkInput]. *)
Definition held (btn : EdgeButton) (f : Frame) : bool :=
  match checkInput_query f with
  | Some i => button_set i (button_mask btn)
  | None => false
  end.

(** The frame does not show the button released: it is seen pressed, or
    the query fails. *)
Definition no_release (btn : EdgeButton) (f : Frame) : bool :=
  match checkInput_query f with
  | Some i => button_set i (button_mask btn)
  | None => true
  end.

(** How many of the frames change the flag. *)
Fixpoint toggles (btn : EdgeButton) (frames : list Frame) (s : ColorCubeScene) : nat :=
  match frames with
  | [] => 0
  | f :: rest =>
    (if Bool.eqb (flag btn (render_update f s)) (flag btn s) then 0 else 1)%nat
    + toggles btn rest (render_update f s)
  end.

(** *** Tracking *)

(** [track] is false when [eyePos] and [posOnly] are assigned, in every
    one of the frames. *)
Fixpoint tracking_off (frames : list Frame) (s : ColorCubeScene) : Prop :=
  match frames with
  | [] => True
  | f :: rest =>
    track (checkInput (checkInput_query f) s) = false /\ tracking_off rest (render_update f s)
  end.

(** The position [render] assigns to [eyePos[eye]] when it assigns one. *)
Definition tracked_eye (f : Frame) (fromController : bool) : vec3 :=
  if fromController then
    let p := Position (HandPose_Right f) in
    Vec3 (if eye_true (eye f) then x3 p + 325 / 10000 else x3 p - 325 / 10000) (y3 p) (z3 p)
  else Position (sub2 (RenderPose f) (eye f)).

Definition view_source (s : ColorCubeScene) := (track s, viewFromController s).

(** The three matrices of a scene whose eye is at the origin. *)
Definition origin_projections (Quad_vertices : verts4) : list mat4 :=
  [ OffAxis.quadProjection (transform_verts leftTransform Quad_vertices) vec3_zero;
    OffAxis.quadProjection (transform_verts rightTransform Quad_vertices) vec3_zero;
    OffAxis.quadProjection (transform_verts floorTransform Quad_vertices) vec3_zero ].

(** *** The fault-injection flag *)




(** *** Sample frames *)

Definition pose0 : ovrPosef := Posef (Quatf 0 0 0 1) (Vec3 0 0 0).
Definition input_with (buttons : Z) : ovrInputState :=
  InputState buttons (Arr2 (Vector2f 0 0) (Vector2f 0 0)) (Arr2 0 0).
Definition frame_with (eye : ovrEyeType) (q : option ovrInputState) : Frame :=
  MkFrame mat4_id mat4_id eye (Arr2 pose0 pose0) q pose0 q.
Definition scene0 : ColorCubeScene :=
  Startup.initial_scene OffAxis.unit_quad (Arr2 pose0 pose0).

(** Button A held over both eyes of a frame. *)
Definition held_A_frames : list Frame :=
  [frame_with ovrEye_Left (Some (input_with 1)); frame_with ovrEye_Right (Some (input_with 1))].

(** Button B held from the first call on, both eyes of the first frame. *)
Definition frames_B_held : list Frame :=
  [frame_with ovrEye_Left (Some (input_with 2)); frame_with ovrEye_Right (Some (input_with 2))].

(** Both eyes of a frame in which every query fails. *)
Definition frames_untracked : list Frame :=
  [frame_with ovrEye_Left None; frame_with ovrEye_Right None].

(** ** Further vocabulary *)

(** *** Points of a wall, and depth *)

Module WallGeometry.
Import OffAxis.

(** The point of the wall plane with coordinates [u], [v] along the two
    edges at corner 0: corner 0 is (0,0), corner 1 is (1,0), corner 3 is
    (0,1). *)
Definition wall_point (c : verts4) (u v : R) : vec3 :=
  add3 (at0 c) (add3 (smul3 u (edge_right c)) (smul3 v (edge_up c))).

(** The distance of [p] from the eye, measured against the wall normal. *)
Definition depth (c : verts4) (e p : vec3) : R := - dot (vn c) (sub3 p e).

(** Depth after the perspective divide. *)
Definition ndc_z (v : vec4) : R := z4 v / w4 v.

(** The eye moved by [dx] along the wall's right axis and by [dy] along
    its up axis. *)
Definition eye_moved (c : verts4) (e : vec3) (dx dy : R) : vec3 :=
  add3 e (add3 (smul3 dx (vr c)) (smul3 dy (vu c))).

End WallGeometry.

(** *** Stick translation *)

(** The vector one sample hands to [glm::translate] in [checkInput]; a
    failed query moves nothing. *)
Definition stick_translation (query : option ovrInputState) : vec3 :=
  match query with
  | Some i =>
    Vec3 (x2 (sub2 (Thumbstick i) ovrHand_Right) * (1 / 100))
         (y2 (sub2 (Thumbstick i) ovrHand_Right) * (1 / 100))
         (y2 (sub2 (Thumbstick i) ovrHand_Left) * (- (1 / 100)))
  | None => vec3_zero
  end.

Fixpoint total_translation (frames : list Frame) : vec3 :=
  match frames with
  | [] => vec3_zero
  | f :: rest => add3 (stick_translation (checkInput_query f)) (total_translation rest)
  end.

(** *** Samples of buttons and of the trigger *)

(** The successful samples of a button over the frames, in order. *)
Definition button_samples (btn : EdgeButton) (frames : list Frame) : list bool :=
  flat_map (fun f => match checkInput_query f with
                     | Some i => [button_set i (button_mask btn)]
                     | None => []
                     end) frames.

(** Transitions from released to pressed, from a latch at [down]. *)
Fixpoint rising_edges (down : bool) (samples : list bool) : nat :=
  match samples with
  | [] => 0
  | p :: rest => ((if p && negb down then 1 else 0) + rising_edges p rest)%nat
  end.

(** The successful samples of the right hand trigger against 0.5. *)
Definition trigger_samples (frames : list Frame) : list bool :=
  flat_map (fun f => match trigger_query f with
                     | Some i => [Rgtb (sub2 (HandTrigger i) ovrHand_Right) (1 / 2)]
                     | None => []
                     end) frames.

(** *** Parts of a matrix, render targets *)

(** The first three columns of a matrix: its rotation and scale. *)
Definition linear_part (m : mat4) := (col0 m, col1 m, col2 m).

(** The subscripts of [renderedTextures] the wall passes render into. *)
Definition targets (out : Rendered) : list Z := map pass_target (wall_passes out).

(** *** More sample inputs *)

Definition stick_input (x : R) : ovrInputState :=
  InputState 0 (Arr2 (Vector2f x 0) (Vector2f 0 0)) (Arr2 0 0).
Definition trigger_input (t : R) : ovrInputState :=
  InputState 0 (Arr2 (Vector2f 0 0) (Vector2f 0 0)) (Arr2 0 t).

(** ** The conversions of namespace [ovr] *)

Module Ovr.

(** [ovr::for_each_eye]. *)
Definition for_each_eye {S : Type} (function : ovrEyeType -> S -> S) (s : S) : S :=
  function ovrEye_Right (function ovrEye_Left s).

(** [ovrMatrix4f]: [float M[4][4]], row by row. *)
Record ovrMatrix4f : Type := Matrix4f { M0 : vec4; M1 : vec4; M2 : vec4; M3 : vec4 }.

(** [glm::make_mat4(&om.M[0][0])]: sixteen floats in the order of the
    memory, four to a column. *)
Definition make_mat4 (om : ovrMatrix4f) : mat4 := Mat4 (M0 om) (M1 om) (M2 om) (M3 om).

(** [toGlm(const ovrMatrix4f &)]. *)
Definition toGlm_Matrix4f (om : ovrMatrix4f) : mat4 := transpose (make_mat4 om).

(** [fromGlm(const mat4 &)]: [memcpy] of the transposed matrix. *)
Definition fromGlm_mat4 (m : mat4) : ovrMatrix4f :=
  let transposed := transpose m in
  Matrix4f (col0 transposed) (col1 transposed) (col2 transposed) (col3 transposed).

(** [glm::mat4_cast] of a quaternion, from GLM's definition. *)
Definition mat4_cast (q : ovrQuatf) : mat4 :=
  let qxx := qx q * qx q in
  let qyy := qy q * qy q in
  let qzz := qz q * qz q in
  let qxz := qx q * qz q in
  let qxy := qx q * qy q in
  let qyz := qy q * qz q in
  let qwx := qw q * qx q in
  let qwy := qw q * qy q in
  let qwz := qw q * qz q in
  Mat4 (Vec4 (1 - 2 * (qyy + qzz)) (2 * (qxy + qwz)) (2 * (qxz - qwy)) 0)
       (Vec4 (2 * (qxy - qwz)) (1 - 2 * (qxx + qzz)) (2 * (qyz + qwx)) 0)
       (Vec4 (2 * (qxz + qwy)) (2 * (qyz - qwx)) (1 - 2 * (qxx + qyy)) 0)
       (Vec4 0 0 0 1).

(** [toGlm(const ovrPosef &)]. *)
Definition toGlm_Posef (op : ovrPosef) : mat4 :=
  let orientation := mat4_cast (Orientation op) in
  let translation := translate mat4_id (Position op) in
  mul_mm translation orientation.

(** The product of a row of an [ovrMatrix4f] with a column vector. *)
Definition row_times (r v : vec4) : R :=
  x4 r * x4 v + y4 r * y4 v + z4 r * z4 v + w4 r * w4 v.

(** A quaternion of length one. *)
Definition unit_quat (q : ovrQuatf) : Prop :=
  qx q * qx q + qy q * qy q + qz q * qz q + qw q * qw q = 1.

(** The image of a point under a matrix. *)
Definition transform_point (m : mat4) (p : vec3) : vec3 := vec3_of (mul_mv m (vec4_of p 1)).

End Ovr.

(** ** [glm::inverse] *)

Module GlmInverse.

(** Products and differences of [vec4], component by component. *)
Definition vmul (a b : vec4) : vec4 :=
  Vec4 (x4 a * x4 b) (y4 a * y4 b) (z4 a * z4 b) (w4 a * w4 b).
Definition vsub (a b : vec4) : vec4 :=
  Vec4 (x4 a - x4 b) (y4 a - y4 b) (z4 a - z4 b) (w4 a - w4 b).

(** [glm::inverse] of a [mat4], in the steps of GLM's definition; [mcr]
    below is the C++ [m[c][r]]. *)
Section Inverse.
Variable m : mat4.

Let m00 := x4 (col0 m).
Let m01 := y4 (col0 m).
Let m02 := z4 (col0 m).
Let m03 := w4 (col0 m).
Let m10 := x4 (col1 m).
Let m11 := y4 (col1 m).
Let m12 := z4 (col1 m).
Let m13 := w4 (col1 m).
Let m20 := x4 (col2 m).
Let m21 := y4 (col2 m).
Let m22 := z4 (col2 m).
Let m23 := w4 (col2 m).
Let m30 := x4 (col3 m).
Let m31 := y4 (col3 m).
Let m32 := z4 (col3 m).
Let m33 := w4 (col3 m).

(** The matrix [Inverse] of the definition, before the division. *)
Definition cofactors : mat4 :=
  let Coef00 := m22 * m33 - m32 * m23 in
  let Coef02 := m12 * m33 - m32 * m13 in
  let Coef03 := m12 * m23 - m22 * m13 in
  let Coef04 := m21 * m33 - m31 * m23 in
  let Coef06 := m11 * m33 - m31 * m13 in
  let Coef07 := m11 * m23 - m21 * m13 in
  let Coef08 := m21 * m32 - m31 * m22 in
  let Coef10 := m11 * m32 - m31 * m12 in
  let Coef11 := m11 * m22 - m21 * m12 in
  let Coef12 := m20 * m33 - m30 * m23 in
  let Coef14 := m10 * m33 - m30 * m13 in
  let Coef15 := m10 * m23 - m20 * m13 in
  let Coef16 := m20 * m32 - m30 * m22 in
  let Coef18 := m10 * m32 - m30 * m12 in
  let Coef19 := m10 * m22 - m20 * m12 in
  let Coef20 := m20 * m31 - m30 * m21 in
  let Coef22 := m10 * m31 - m30 * m11 in
  let Coef23 := m10 * m21 - m20 * m11 in
  let Fac0 := Vec4 Coef00 Coef00 Coef02 Coef03 in
  let Fac1 := Vec4 Coef04 Coef04 Coef06 Coef07 in
  let Fac2 := Vec4 Coef08 Coef08 Coef10 Coef11 in
  let Fac3 := Vec4 Coef12 Coef12 Coef14 Coef15 in
  let Fac4 := Vec4 Coef16 Coef16 Coef18 Coef19 in
  let Fac5 := Vec4 Coef20 Coef20 Coef22 Coef23 in
  let Vec0 := Vec4 m10 m00 m00 m00 in
  let Vec1 := Vec4 m11 m01 m01 m01 in
  let Vec2 := Vec4 m12 m02 m02 m02 in
  let Vec3 := Vec4 m13 m03 m03 m03 in
  let Inv0 := add4 (vsub (vmul Vec1 Fac0) (vmul Vec2 Fac1)) (vmul Vec3 Fac2) in
  let Inv1 := add4 (vsub (vmul Vec0 Fac0) (vmul Vec2 Fac3)) (vmul Vec3 Fac4) in
  let Inv2 := add4 (vsub (vmul Vec0 Fac1) (vmul Vec1 Fac3)) (vmul Vec3 Fac5) in
  let Inv3 := add4 (vsub (vmul Vec0 Fac2) (vmul Vec1 Fac4)) (vmul Vec2 Fac5) in
  let SignA := Vec4 1 (-1) 1 (-1) in
  let SignB := Vec4 (-1) 1 (-1) 1 in
  Mat4 (vmul Inv0 SignA) (vmul Inv1 SignB) (vmul Inv2 SignA) (vmul Inv3 SignB).

(** [Dot1], the determinant. *)
Definition determinant : R :=
  let Inverse := cofactors in
  let Row0 := Vec4 (x4 (col0 Inverse)) (x4 (col1 Inverse))
                   (x4 (col2 Inverse)) (x4 (col3 Inverse)) in
  let Dot0 := vmul (col0 m) Row0 in
  (x4 Dot0 + y4 Dot0) + (z4 Dot0 + w4 Dot0).

Definition inverse : mat4 :=
  let Inverse := cofactors in
  let OneOverDeterminant := 1 / determinant in
  Mat4 (smul4 (col0 Inverse) OneOverDeterminant) (smul4 (col1 Inverse) OneOverDeterminant)
       (smul4 (col2 Inverse) OneOverDeterminant) (smul4 (col3 Inverse) OneOverDeterminant).
End Inverse.

(** The inverse of a pose by hand: the transposed rotation after the
    translation by the negated position. *)
Definition neg3 (p : vec3) : vec3 := Vec3 (- x3 p) (- y3 p) (- z3 p).
Definition rigid_inverse (op : ovrPosef) : mat4 :=
  mul_mm (transpose (Ovr.mat4_cast (Orientation op)))
         (translate mat4_id (neg3 (Position op))).

End GlmInverse.

(** ** [RiftApp]: the layout of the render target *)

Module RiftLayout.
Local Open Scope Z_scope.

Record ovrSizei : Type := Sizei { w : Z; h : Z }.
Record ovrVector2i : Type := Vector2i { x : Z; y : Z }.
Record ovrRecti : Type := Recti { Pos : ovrVector2i; Size : ovrSizei }.
Record uvec2 : Type := Uvec2 { ux : Z; uy : Z }.

(** Conversion to [unsigned int] and to [int], both of 32 bits. *)
Definition to_uint (z : Z) : Z := z mod 2 ^ 32.
Definition to_int (z : Z) : Z := (z + 2 ^ 31) mod 2 ^ 32 - 2 ^ 31.

Record Layout : Type := MkLayout {
  Viewport : arr2 ovrRecti;           (* _sceneLayer.Viewport *)
  _renderTargetSize : uvec2;
  _mirrorSize : uvec2
}.

(** The four statements of the constructor's loop that place an eye;
    [eyeSize] is the answer of [ovr_GetFovTextureSize]. *)
Definition place_eye (eyeSize : ovrEyeType -> ovrSizei) (eye : ovrEyeType) (l : Layout)
  : Layout :=
  let vp := Recti (Pos (sub2 (Viewport l) eye)) (eyeSize eye) in
  let vp := Recti (Vector2i (to_int (ux (_renderTargetSize l))) 0) (Size vp) in
  let size := Uvec2 (ux (_renderTargetSize l))
                    (Z.max (uy (_renderTargetSize l)) (to_uint (h (eyeSize eye)))) in
  let size := Uvec2 (to_uint (ux size + to_uint (w (eyeSize eye)))) (uy size) in
  MkLayout (upd2 (Viewport l) eye vp) size (_mirrorSize l).

(** The members as the constructor finds them: [_sceneLayer] is cleared
    by [memset], the two [uvec2] are zero. *)
Definition layout0 : Layout :=
  MkLayout (Arr2 (Recti (Vector2i 0 0) (Sizei 0 0)) (Recti (Vector2i 0 0) (Sizei 0 0)))
           (Uvec2 0 0) (Uvec2 0 0).

(** [RiftApp::RiftApp], as far as it lays out the render target. *)
Definition RiftApp_ctor (eyeSize : ovrEyeType -> ovrSizei) : Layout :=
  let l := Ovr.for_each_eye (place_eye eyeSize) layout0 in
  (* _mirrorSize = _renderTargetSize; _mirrorSize /= 4; *)
  MkLayout (Viewport l) (_renderTargetSize l)
           (Uvec2 (ux (_renderTargetSize l) / 4) (uy (_renderTargetSize l) / 4)).

(** The columns and rows of the render target a viewport covers. *)
Definition covers_x (v : ovrRecti) (i : Z) : Prop := x (Pos v) <= i < x (Pos v) + w (Size v).
Definition covers_y (v : ovrRecti) (j : Z) : Prop := y (Pos v) <= j < y (Pos v) + h (Size v).

(** The texture size of a Rift eye at the default resolution. *)
Definition rift_eye : ovrEyeType -> ovrSizei := fun _ => Sizei 1344 1600.

End RiftLayout.

(** ** [RiftApp::draw] and [ExampleApp::renderScene] *)

Module Draw.

(** What the device answers during one call of [render]. *)
Record DeviceAnswers : Type := MkAnswers {
  input_answer : option ovrInputState;     (* ovr_GetInputState in checkInput *)
  hand_answer : ovrPosef;                  (* HandPoses[ovrHand_Right].ThePose *)
  trigger_answer : option ovrInputState    (* ovr_GetInputState in render *)
}.

(** [ExampleApp::renderScene]: the call of [cubeScene->render] it makes. *)
Definition renderScene (projection headPose : mat4) (eye : ovrEyeType)
           (RenderPose : arr2 ovrPosef) (device : DeviceAnswers) : Frame :=
  MkFrame projection (GlmInverse.inverse headPose) eye RenderPose
          (input_answer device) (hand_answer device) (trigger_answer device).

(** The lambda of [RiftApp::draw], on [_sceneLayer.RenderPose] and the
    calls of [render] made so far. *)
Definition draw_eye (_eyeProjections : arr2 mat4) (eyePoses : arr2 ovrPosef)
           (device : arr2 DeviceAnswers) (eye : ovrEyeType)
           (st : arr2 ovrPosef * list Frame) : arr2 ovrPosef * list Frame :=
  let RenderPose := upd2 (fst st) eye (sub2 eyePoses eye) in
  (RenderPose,
   snd st ++ [renderScene (sub2 _eyeProjections eye)
                          (Ovr.toGlm_Posef (sub2 eyePoses eye))
                          eye RenderPose (sub2 device eye)]).

(** [RiftApp::draw]: [eyePoses] is the answer of [ovr_GetEyePoses]. *)
Definition draw (_eyeProjections : arr2 mat4) (eyePoses : arr2 ovrPosef)
           (device : arr2 DeviceAnswers) (RenderPose : arr2 ovrPosef)
  : arr2 ovrPosef * list Frame :=
  Ovr.for_each_eye (draw_eye _eyeProjections eyePoses device) (RenderPose, []).

(** A device that answers no query. *)
Definition silent : DeviceAnswers := MkAnswers None pose0 None.

End Draw.

(** ** The body of [loadPPM] *)

Module PpmFile.
Local Open Scope nat_scope.

Definition bytes : Type := Startup.bytes.

(** How a call can end: it returns, it never returns, it leaves by an
    exception, or it does something the language leaves undefined (a read
    of an array that was never written, a signed overflow).  [OutOfFuel]
    is the model's own: the fuel of the loops has run out. *)
Inductive Outcome (A : Type) : Type :=
| Returns (a : A)
| Hangs
| Throws
| Undefined
| OutOfFuel.
Arguments Returns {A} _.
Arguments Hangs {A}.
Arguments Throws {A}.
Arguments Undefined {A}.
Arguments OutOfFuel {A}.

Definition andThen {A B : Type} (c : Outcome A) (k : A -> Outcome B) : Outcome B :=
  match c with
  | Returns a => k a
  | Hangs => Hangs
  | Throws => Throws
  | Undefined => Undefined
  | OutOfFuel => OutOfFuel
  end.

Definition newline : Byte.byte := Byte.x0a.
Definition space : Byte.byte := Byte.x20.
Definition hash : Byte.byte := Byte.x23.      (* '#' *)
Definition minus : Byte.byte := Byte.x2d.
Definition plus : Byte.byte := Byte.x2b.
Definition NUL : Byte.byte := Byte.x00.

(** [isspace] and [isdigit] in the "C" locale. *)
Definition isspace (c : Byte.byte) : bool :=
  match c with
  | Byte.x20 | Byte.x09 | Byte.x0a | Byte.x0b | Byte.x0c | Byte.x0d => true
  | _ => false
  end.
Definition isdigit (c : Byte.byte) : bool :=
  match c with
  | Byte.x30 | Byte.x31 | Byte.x32 | Byte.x33 | Byte.x34
  | Byte.x35 | Byte.x36 | Byte.x37 | Byte.x38 | Byte.x39 => true
  | _ => false
  end.
Definition digit (c : Byte.byte) : Z := Z.of_N (Byte.to_N c) - 48.

Definition BUFSIZE : nat := 128.
Definition INT_MAX : Z := 2147483647.
Definition INT_MIN : Z := -2147483648.

(** The characters one [fgets(buf, n, fp)] stores when [fp] is not at its
    end: at most [room = n - 1] of them, the last one a newline if one
    comes early enough; and the rest of the file. *)
Fixpoint fgets_chars (room : nat) (fp : bytes) : bytes * bytes :=
  match room, fp with
  | O, _ => ([], fp)
  | _, [] => ([], [])
  | S room', c :: rest =>
    if Byte.eqb c newline then ([c], rest)
    else let (line, fp') := fgets_chars room' rest in (c :: line, fp')
  end.

(** [fgets(buf[0], BUFSIZE, fp)]: [None] is the null pointer, returned at
    the end of the file with the buffer left as it was. *)
Definition fgets (fp : bytes) : option (bytes * bytes) :=
  match fp with
  | [] => None
  | _ => Some (fgets_chars (BUFSIZE - 1) fp)
  end.

(** [buf[0][0] == '#']. *)
Definition starts_with_hash (buf : bytes) : bool :=
  match buf with
  | c :: _ => Byte.eqb c hash
  | [] => false
  end.

(** [do { fgets(buf[0], BUFSIZE, fp); } while (buf[0][0] == '#');] with
    [buf0] the buffer on entry ([None]: never written).  The result is the
    buffer and the file position on exit.  At the end of the file every
    [fgets] leaves the buffer as it is, so a buffer that starts with '#'
    then keeps the loop running. *)
Fixpoint skip_comments (fuel : nat) (buf0 : option bytes) (fp : bytes)
  : Outcome (bytes * bytes) :=
  match fuel with
  | O => OutOfFuel
  | S fuel' =>
    match fgets fp with
    | Some (line, fp') =>
      if starts_with_hash line then skip_comments fuel' (Some line) fp'
      else Returns (line, fp')
    | None =>
      match buf0 with
      | None => Undefined
      | Some line => if starts_with_hash line then Hangs else Returns (line, fp)
      end
    end
  end.

(** The C string in a buffer: the characters before the first NUL. *)
Fixpoint c_str (buf : bytes) : bytes :=
  match buf with
  | [] => []
  | c :: rest => if Byte.eqb c NUL then [] else c :: c_str rest
  end.

Fixpoint skip_spaces (s : bytes) : bytes :=
  match s with
  | [] => []
  | c :: rest => if isspace c then skip_spaces rest else s
  end.

(** The longest prefix without white space, and what follows it. *)
Fixpoint token (s : bytes) : bytes * bytes :=
  match s with
  | [] => ([], [])
  | c :: rest =>
    if isspace c then ([], s)
    else let (t, s') := token rest in (c :: t, s')
  end.

(** [sscanf(buf[0], "%s %s", buf[1], buf[2])]: what [buf[1]] and [buf[2]]
    hold afterwards, [None] for an array the call did not write. *)
Definition sscanf (buf0 : bytes) : option bytes * option bytes :=
  let (t1, s1) := token (skip_spaces (c_str buf0)) in
  match t1 with
  | [] => (None, None)
  | _ =>
    let (t2, _) := token (skip_spaces s1) in
    match t2 with
    | [] => (Some t1, None)
    | _ => (Some t1, Some t2)
    end
  end.

(** The value of the leading decimal digits of [s], from [acc]. *)
Fixpoint digits_value (acc : Z) (s : bytes) : Z :=
  match s with
  | [] => acc
  | c :: rest => if isdigit c then digits_value (10 * acc + digit c) rest else acc
  end.

(** [atoi]: white space, an optional sign, decimal digits.  A value that
    an [int] cannot hold is undefined behaviour. *)
Definition in_int (v : Z) : bool := (INT_MIN <=? v)%Z && (v <=? INT_MAX)%Z.

Definition atoi (s : bytes) : Outcome Z :=
  let s := skip_spaces s in
  let v := match s with
           | c :: rest =>
             if Byte.eqb c minus then (- digits_value 0 rest)%Z
             else if Byte.eqb c plus then digits_value 0 rest
                  else digits_value 0 s
           | [] => 0%Z
           end in
  if in_int v then Returns v else Undefined.

(** [atoi] of an array that may not have been written. *)
Definition atoi_buf (buf : option bytes) : Outcome Z :=
  match buf with
  | Some s => atoi s
  | None => Undefined
  end.

(** A product of two [int]s. *)
Definition int_mul (a b : Z) : Outcome Z :=
  if in_int (a * b) then Returns (a * b)%Z else Undefined.

Notation "x <- c ;; k" := (andThen c (fun x => k))
  (at level 61, c at next level, right associativity).

(** [loadPPM] from the first [fgets] on; [fp] is what the opened file
    holds.  [new unsigned char[n]] throws for a negative [n] and is taken
    to succeed otherwise; [fread(rawData, n, 1, fp)] returns 1 when [n] is
    positive and [n] bytes are left, and 0 otherwise. *)
Definition read_opened (fp : bytes) : Outcome Startup.PPM :=
  (* Read magic number *)
  let (buf0, fp) := match fgets fp with
                    | Some (line, fp') => (Some line, fp')
                    | None => (None, fp)
                    end in
  (* Read width and height *)
  r <- skip_comments (S (List.length fp)) buf0 fp ;;
  let (buf0, fp) := r : bytes * bytes in
  let (buf1, buf2) := sscanf buf0 in
  width <- atoi_buf buf1 ;;
  height <- atoi_buf buf2 ;;
  (* Read maxval *)
  r <- skip_comments (S (List.length fp)) (Some buf0) fp ;;
  let fp := snd (r : bytes * bytes) in
  (* Read image data *)
  wh <- int_mul width height ;;
  size <- int_mul wh 3 ;;
  if (size <? 0)%Z then Throws
  else
    if (0 <? size)%Z && (size <=? Z.of_nat (List.length fp))%Z
    then Returns (Startup.MkPPM (Some (firstn (Z.to_nat size) fp)) width height [])
    else Returns (Startup.MkPPM None 0 0 ["error parsing ppm file, incomplete data"%string]).

(** The whole function on a file system. *)
Definition loadPPM (fs : Startup.FileSystem) (filename : string) : Outcome Startup.PPM :=
  match fs filename with
  | None =>
    Returns (Startup.MkPPM None 0 0
               [String.append "error reading ppm file, could not locate " filename])
  | Some fp => read_opened fp
  end.

(** *** Files *)

(** A line of text, without its newline: short enough for one [fgets]. *)
Definition text_line (l : bytes) : bool :=
  (List.length l <=? BUFSIZE - 2)%nat && forallb (fun c => negb (Byte.eqb c newline)) l.

Definition comment_line (l : bytes) : bool := text_line l && starts_with_hash l.

(** Lines written one after the other, each closed by a newline. *)
Definition lines (ls : list bytes) : bytes := List.concat (map (fun l => l ++ [newline]) ls).

(** A decimal number: digits only, at least one. *)
Definition number (t : bytes) : bool :=
  match t with
  | [] => false
  | _ => forallb isdigit t
  end.

(** The number a string of decimal digits stands for. *)
Definition decimal_value (t : bytes) : Z :=
  fold_left (fun acc c => (10 * acc + digit c)%Z) t 0%Z.

(** The header of a PPM file as [loadPPM] accepts it: a first line, the
    two sizes on one line, and one more line, with comment lines before
    the second and the third. *)
Definition header (magic : bytes) (comments1 : list bytes) (w h : bytes)
           (comments2 : list bytes) (maxval : bytes) : bytes :=
  magic ++ [newline] ++ lines comments1 ++ (w ++ [space] ++ h) ++ [newline]
        ++ lines comments2 ++ maxval ++ [newline].

Definition well_formed_header (magic : bytes) (comments1 : list bytes) (w h : bytes)
           (comments2 : list bytes) (maxval : bytes) : bool :=
  text_line magic && forallb comment_line comments1
  && number w && number h && text_line (w ++ [space] ++ h)
  && forallb comment_line comments2
  && text_line maxval && negb (starts_with_hash maxval).

(** The number of bytes of pixel data a header announces. *)
Definition image_size (w h : bytes) : Z := (decimal_value w * decimal_value h * 3)%Z.

(** *** Sample files *)

Definition text (s : string) : bytes := list_byte_of_string s.

(** A file system with one file, under every name. *)
Definition on_disk (content : bytes) : Startup.FileSystem := fun _ => Some content.

(** A header for two pixels in a row, and one for no pixel. *)
Definition header_2x1 : bytes :=
  header (text "P6") [text "# two pixels"] (text "2") (text "1") [] (text "255").
Definition header_0x1 : bytes :=
  header (text "P6") [] (text "0") (text "1") [] (text "255").

End PpmFile.

(** ** What [loadPPM] promises *)

Module Assets.

(** Every file the constructor asks for is missing or is one on which
    [loadPPM] returns. *)
Definition assets_readable (fs : Startup.FileSystem) : Prop :=
  forall name, In name Startup.texture_assets ->
               exists p, PpmFile.loadPPM fs name = PpmFile.Returns p.

(** What [loadPPM] promises about a result [p]: a null pointer comes
    with width and height 0 and a line on [cerr], any other pointer with
    width * height * 3 bytes and no output. *)
Definition contract (p : Startup.PPM) : Prop :=
  match Startup.rawData p with
  | None => Startup.width p = 0%Z /\ Startup.height p = 0%Z /\
            List.length (Startup.cerr_lines p) = 1%nat
  | Some data =>
    Z.of_nat (List.length data) = (Startup.width p * Startup.height p * 3)%Z /\
    (0 < Startup.width p * Startup.height p)%Z /\ Startup.cerr_lines p = []
  end.

End Assets.

(** ** The [ColorCubeScene] constructor *)

Module Construction.
Import Startup.

(** The constructor runs in a monad of its own: it threads [imgWidth],
    [imgHeight], the texture uploads made so far and [std::cerr], and it
    ends the way a call can end: it returns, or one of its calls of
    [loadPPM] does not. *)
Definition Ctor (A : Type) : Type := CtorState -> PpmFile.Outcome A * CtorState.

Definition ret {A : Type} (a : A) : Ctor A := fun st => (PpmFile.Returns a, st).
Definition bind {A B : Type} (c : Ctor A) (k : A -> Ctor B) : Ctor B :=
  fun st =>
    match c st with
    | (PpmFile.Returns a, st') => k a st'
    | (PpmFile.Hangs, st') => (PpmFile.Hangs, st')
    | (PpmFile.Throws, st') => (PpmFile.Throws, st')
    | (PpmFile.Undefined, st') => (PpmFile.Undefined, st')
    | (PpmFile.OutOfFuel, st') => (PpmFile.OutOfFuel, st')
    end.

Notation "x <- c ;; k" := (bind c (fun x => k))
  (at level 61, c at next level, right associativity).
Notation "c ;;; k" := (bind c (fun _ => k))
  (at level 61, right associativity).

(** Modelled from the spec: [Box::loadBoxTexture] and
    [Quad::loadQuadTexture] are defined in Box.h and Quad.h, which are not
    among the sources; the spec has them copy the image data into a GPU
    texture.  The model records the call with its arguments. *)
Definition loadBoxTexture (faces : list (option bytes)) (w h : Z) : Ctor unit :=
  fun st => (PpmFile.Returns tt,
             MkCtorState (imgWidth st) (imgHeight st)
                         (uploads st ++ [BoxTexture faces w h]) (cerr st)).
Definition loadQuadTexture (data : option bytes) (w h : Z) : Ctor unit :=
  fun st => (PpmFile.Returns tt,
             MkCtorState (imgWidth st) (imgHeight st)
                         (uploads st ++ [QuadTexture data w h]) (cerr st)).

Section Files.
Variable fs : FileSystem.

(** [loadPPM(filename, imgWidth, imgHeight)] as the constructor calls it.
    A call that returns has written the two members and its lines; a call
    that does not return has printed nothing, and the constructor ends
    with it (the members go with the object when [new[]] throws). *)
Definition load (filename : string) : Ctor (option bytes) :=
  fun st =>
    match PpmFile.loadPPM fs filename with
    | PpmFile.Returns p =>
      (PpmFile.Returns (rawData p),
       MkCtorState (width p) (height p) (uploads st) (cerr st ++ cerr_lines p))
    | PpmFile.Hangs => (PpmFile.Hangs, st)
    | PpmFile.Throws => (PpmFile.Throws, st)
    | PpmFile.Undefined => (PpmFile.Undefined, st)
    | PpmFile.OutOfFuel => (PpmFile.OutOfFuel, st)
    end.

(** Six [push_back(loadPPM(...))] in a row. *)
Fixpoint load_faces (filenames : list string) : Ctor (list (option bytes)) :=
  match filenames with
  | [] => ret []
  | f :: rest =>
    d <- load f ;;
    ds <- load_faces rest ;;
    ret (d :: ds)
  end.

Definition width_now : Ctor Z := fun st => (PpmFile.Returns (imgWidth st), st).
Definition height_now : Ctor Z := fun st => (PpmFile.Returns (imgHeight st), st).

(** One wall texture: [data = loadPPM(...); loadQuadTexture(data,
    imgWidth, imgHeight)]. *)
Definition load_wall (filename : string) : Ctor unit :=
  data <- load filename ;;
  w <- width_now ;;
  h <- height_now ;;
  loadQuadTexture data w h.

Fixpoint load_walls (filenames : list string) : Ctor unit :=
  match filenames with
  | [] => ret tt
  | f :: rest => load_wall f ;;; load_walls rest
  end.

(** A skybox: six loads, then [loadBoxTexture(vec, imgWidth, imgWidth)]. *)
Definition load_skybox (filenames : list string) : Ctor unit :=
  faces <- load_faces filenames ;;
  w <- width_now ;;
  loadBoxTexture faces w w.

(** The loads and uploads of the constructor's body. *)
Definition load_textures : Ctor unit :=
  (* Load calibration cube textures *)
  imgData <- load asset_box ;;
  w <- width_now ;;
  h <- height_now ;;
  loadBoxTexture (repeat imgData 6) w h ;;;
  (* Load skybox textures *)
  load_skybox assets_left ;;;
  load_skybox assets_right ;;;
  (* Load biggerskybox textures *)
  load_skybox assets_bsk ;;;
  load_walls assets_walls.

Definition ColorCubeScene_ctor (Quad_vertices : verts4) (hands : arr2 ovrPosef)
  : Ctor ColorCubeScene :=
  load_textures ;;;
  ret (initial_scene Quad_vertices hands).
End Files.

(** *** Vocabulary of the statements about the constructor *)

(** What a call of [loadPPM] that returns [p] does to the state. *)
Definition loaded (p : PPM) (st : CtorState) : CtorState :=
  MkCtorState (width p) (height p) (uploads st) (cerr st ++ cerr_lines p).




(** [image] tells what [loadPPM] returns for each file of the
    constructor. *)
Definition loads (fs : FileSystem) (image : string -> PPM) : Prop :=
  forall name, In name texture_assets -> PpmFile.loadPPM fs name = PpmFile.Returns (image name).

(** The uploads of a constructor whose loads return [image]. *)
Definition box_upload (image : string -> PPM) (filenames : list string) : TexUpload :=
  BoxTexture (map (fun n => rawData (image n)) filenames)
             (width (image (last filenames EmptyString)))
             (width (image (last filenames EmptyString))).
Definition wall_upload (image : string -> PPM) (filename : string) : TexUpload :=
  QuadTexture (rawData (image filename)) (width (image filename)) (height (image filename)).
Definition ctor_uploads (image : string -> PPM) : list TexUpload :=
  BoxTexture (repeat (rawData (image asset_box)) 6)
             (width (image asset_box)) (height (image asset_box))
  :: box_upload image assets_left :: box_upload image assets_right
  :: box_upload image assets_bsk
  :: map (wall_upload image) assets_walls.

(** Its lines on [std::cerr], and the state it ends in. *)
Definition ctor_cerr (image : string -> PPM) : list string :=
  flat_map (fun n => cerr_lines (image n)) texture_assets.
Definition ctor_end (image : string -> PPM) : CtorState :=
  MkCtorState (width (image (last assets_walls EmptyString)))
              (height (image (last assets_walls EmptyString)))
              (ctor_uploads image) (ctor_cerr image).




End Construction.

(** ** The application: [main], [GlfwApp::run] and the key handlers *)

Module App.
Local Open Scope Z_scope.

(** The calls into GLFW, GLEW and the Oculus SDK that start and end
    something, the scene's construction and destruction, the work of
    one pass of the frame loop, and the lines written to the console. *)
Inductive Call : Type :=
| ovr_Initialize
| ovr_Shutdown
| glfwInit
| glfwSetErrorCallback
| glfwTerminate
| ovr_Create
| ovr_Destroy
| glfwCreateWindow (width height : Z)
| glfwDestroyWindow
| glewInit
| ovr_CreateTextureSwapChainGL (width height : Z)
| ovr_GetTextureSwapChainLength
| ovr_CreateMirrorTextureGL (width height : Z)
| ovr_RecenterTrackingOrigin
| new_ColorCubeScene
| delete_ColorCubeScene
| glfwPollEvents
| glfwSetWindowShouldClose
| draw (frame : Z)
| glfwSwapBuffers
| cout (line : string)
| cerr (line : string).

(** What [glfwPollEvents] delivers: a key event for [KeyCallback], the
    user asking the window to close, or an error for [ErrorCallback]. *)
Inductive Event : Type :=
| KeyEvent (key action : Z)
| CloseRequest
| ErrorEvent (description : string).

Definition GLFW_PRESS : Z := 1.
Definition GLFW_KEY_ESCAPE : Z := 256.
Definition GLFW_KEY_R : Z := 82.

(** [glfwCreateWindow] returns a window, or a null pointer; GLFW may
    have reported the failure to [ErrorCallback] before it returns. *)
Inductive WindowAnswer : Type :=
| WindowCreated
| WindowFailed (reported : option string).

(** The answers of the platform to the calls that can fail, the files
    on its disk, and the events of the successive calls of
    [glfwPollEvents]. *)
Record Platform : Type := MkPlatform {
  ovr_Initialize_ok : bool;
  glfwInit_ok : bool;
  ovr_Create_ok : bool;
  eyeSize : ovrEyeType -> RiftLayout.ovrSizei;    (* ovr_GetFovTextureSize *)
  glfwCreateWindow_answer : WindowAnswer;
  glewInit_ok : bool;
  swap_chain_ok : bool;
  swap_chain_length : option Z;                   (* None: the query fails *)
  mirror_texture_ok : bool;
  scene_exception : option string;   (* what() of an exception of the scene's constructor
                                        before it loads its textures *)
  files : Startup.FileSystem;
  new_failure : string;              (* what() of the exception of a failing new[] *)
  polls : list (list Event)
}.

(** The members of the application object that the control flow reads,
    and the calls made so far. *)
Record AppState : Type := MkApp {
  calls : list Call;
  window : bool;           (* window != nullptr *)
  frame : Z;
  should_close : bool;     (* glfwWindowShouldClose(window) *)
  cubeScene : bool         (* the shared_ptr holds a scene *)
}.

Definition log (c : Call) (st : AppState) : AppState :=
  MkApp (calls st ++ [c]) (window st) (frame st) (should_close st) (cubeScene st).
Definition set_window (v : bool) (st : AppState) : AppState :=
  MkApp (calls st) v (frame st) (should_close st) (cubeScene st).
Definition set_frame (v : Z) (st : AppState) : AppState :=
  MkApp (calls st) (window st) v (should_close st) (cubeScene st).
Definition set_should_close (v : bool) (st : AppState) : AppState :=
  MkApp (calls st) (window st) (frame st) v (cubeScene st).
Definition set_cubeScene (v : bool) (st : AppState) : AppState :=
  MkApp (calls st) (window st) (frame st) (should_close st) v.

(** A piece of the program: it returns, it throws a [std::exception]
    with the given [what()], it is still in the frame loop when the
    events run out, or it has met a [loadPPM] that does not return: one
    that hangs, one whose behaviour is undefined, or one on which the
    model's fuel has run out. *)
Inductive Result (A : Type) : Type :=
| Returned (a : A)
| Threw (what : string)
| Running
| Hung
| Undefined
| OutOfFuel.
Arguments Returned {A} _.
Arguments Threw {A} _.
Arguments Running {A}.
Arguments Hung {A}.
Arguments Undefined {A}.
Arguments OutOfFuel {A}.

Definition Run (A : Type) : Type := AppState -> Result A * AppState.

Definition ret {A : Type} (a : A) : Run A := fun st => (Returned a, st).
Definition bind {A B : Type} (c : Run A) (k : A -> Run B) : Run B :=
  fun st =>
    match c st with
    | (Returned a, st') => k a st'
    | (Threw what, st') => (Threw what, st')
    | (Running, st') => (Running, st')
    | (Hung, st') => (Hung, st')
    | (Undefined, st') => (Undefined, st')
    | (OutOfFuel, st') => (OutOfFuel, st')
    end.
Definition FAIL {A : Type} (X : string) : Run A := fun st => (Threw X, st).
Definition call (c : Call) : Run unit := fun st => (Returned tt, log c st).
Definition modify (f : AppState -> AppState) : Run unit := fun st => (Returned tt, f st).
Definition get {A : Type} (f : AppState -> A) : Run A := fun st => (Returned (f st), st).

Notation "x <- c ;; k" := (bind c (fun x => k))
  (at level 61, c at next level, right associativity).
Notation "c ;;; k" := (bind c (fun _ => k))
  (at level 61, right associativity).

(** A destructor runs when its object goes, by a return or by an
    exception, and not when the body does not end; [unwinding] is the
    second case alone: a base that is complete when a later constructor
    throws. *)
Definition finally {A : Type} (body : Run A) (destructor : AppState -> AppState) : Run A :=
  fun st =>
    match body st with
    | (Returned a, st') => (Returned a, destructor st')
    | (Threw what, st') => (Threw what, destructor st')
    | other => other
    end.
Definition unwinding {A : Type} (body : Run A) (destructor : AppState -> AppState)
  : Run A :=
  fun st =>
    match body st with
    | (Threw what, st') => (Threw what, destructor st')
    | other => other
    end.

(** *** Constructors and destructors *)

Definition GlfwApp_ctor (p : Platform) : Run unit :=
  call glfwInit ;;;
  (if negb (glfwInit_ok p) then FAIL "Failed to initialize GLFW" else ret tt) ;;;
  call glfwSetErrorCallback.

Definition GlfwApp_dtor (st : AppState) : AppState :=
  let st := if window st then log glfwDestroyWindow st else st in
  log glfwTerminate st.

Definition RiftManagerApp_ctor (p : Platform) : Run unit :=
  call ovr_Create ;;;
  (if negb (ovr_Create_ok p) then FAIL "Unable to create HMD session" else ret tt).

Definition RiftManagerApp_dtor (st : AppState) : AppState := log ovr_Destroy st.

(** [~ExampleApp]: the [shared_ptr] member lets go of the scene. *)
Definition ExampleApp_members_dtor (st : AppState) : AppState :=
  if cubeScene st then set_cubeScene false (log delete_ColorCubeScene st) else st.

(** The destructors of a complete [ExampleApp], in their order. *)
Definition ExampleApp_dtor (st : AppState) : AppState :=
  GlfwApp_dtor (RiftManagerApp_dtor (ExampleApp_members_dtor st)).

(** [ExampleApp()]: the bases in the order [GlfwApp], [RiftManagerApp];
    the bodies of [RiftApp()] and [ExampleApp()] call nothing that can
    fail.  A base that is complete is destroyed when a later one throws. *)
Definition ExampleApp_ctor (p : Platform) : Run unit :=
  GlfwApp_ctor p ;;;
  unwinding (RiftManagerApp_ctor p) GlfwApp_dtor.

(** *** [run] *)

(** [glfw::createWindow(_mirrorSize)], the default position. *)
Definition createWindow (p : Platform) (size : RiftLayout.uvec2) : Run unit :=
  call (glfwCreateWindow (RiftLayout.ux size) (RiftLayout.uy size)) ;;;
  match glfwCreateWindow_answer p with
  | WindowCreated => ret tt
  | WindowFailed (Some description) => FAIL description       (* ErrorCallback *)
  | WindowFailed None => FAIL "Unable to create rendering window"
  end.

Definition postCreate (p : Platform) : Run unit :=
  call glewInit ;;;
  (if negb (glewInit_ok p) then FAIL "Failed to initialize GLEW" else ret tt).

Definition RiftApp_initGl (p : Platform) (l : RiftLayout.Layout) : Run unit :=
  call (ovr_CreateTextureSwapChainGL (RiftLayout.ux (RiftLayout._renderTargetSize l))
                                     (RiftLayout.uy (RiftLayout._renderTargetSize l))) ;;;
  (if negb (swap_chain_ok p) then FAIL "Failed to create swap textures" else ret tt) ;;;
  call ovr_GetTextureSwapChainLength ;;;
  (match swap_chain_length p with
   | Some length => if length =? 0 then FAIL "Unable to count swap chain textures"
                    else ret tt
   | None => FAIL "Unable to count swap chain textures"
   end) ;;;
  call (ovr_CreateMirrorTextureGL (RiftLayout.ux (RiftLayout._mirrorSize l))
                                  (RiftLayout.uy (RiftLayout._mirrorSize l))) ;;;
  (if negb (mirror_texture_ok p) then FAIL "Could not create mirror texture" else ret tt).

(** [new ColorCubeScene()].  What the constructor does before it loads
    its textures is not among the sources (oglplus, [LoadShaders], [Quad],
    [Box]): it can throw, and it is taken to print nothing on
    [std::cerr].  The loads follow: their lines go to [std::cerr], and
    the constructor ends as they end, a failing [new[]] of [loadPPM]
    being an exception. *)
Definition new_scene (p : Platform) : Run unit :=
  call new_ColorCubeScene ;;;
  (match scene_exception p with
   | Some what => FAIL what
   | None => ret tt
   end) ;;;
  fun st =>
    let (r, c) := Construction.load_textures (files p) Startup.ctor_start in
    let st' := MkApp (calls st ++ map cerr (Startup.cerr c))
                     (window st) (frame st) (should_close st) (cubeScene st) in
    match r with
    | PpmFile.Returns _ => (Returned tt, st')
    | PpmFile.Throws => (Threw (new_failure p), st')
    | PpmFile.Hangs => (Hung, st')
    | PpmFile.Undefined => (Undefined, st')
    | PpmFile.OutOfFuel => (OutOfFuel, st')
    end.

Definition ExampleApp_initGl (p : Platform) (l : RiftLayout.Layout) : Run unit :=
  RiftApp_initGl p l ;;;
  call ovr_RecenterTrackingOrigin ;;;
  new_scene p ;;;
  modify (set_cubeScene true).

(** [cubeScene.reset()]. *)
Definition shutdownGl : Run unit := modify ExampleApp_members_dtor.

(** [GlfwApp::onKey]. *)
Definition GlfwApp_onKey (key action : Z) : Run unit :=
  if negb (action =? GLFW_PRESS) then ret tt
  else if key =? GLFW_KEY_ESCAPE
       then call glfwSetWindowShouldClose ;;; modify (set_should_close true)
       else ret tt.

(** [RiftApp::onKey]. *)
Definition RiftApp_onKey (key action : Z) : Run unit :=
  if (action =? GLFW_PRESS) && (key =? GLFW_KEY_R)
  then call ovr_RecenterTrackingOrigin
  else GlfwApp_onKey key action.

Definition deliver (e : Event) : Run unit :=
  match e with
  | KeyEvent key action => RiftApp_onKey key action     (* KeyCallback *)
  | CloseRequest => modify (set_should_close true)
  | ErrorEvent description => FAIL description          (* ErrorCallback *)
  end.

Fixpoint deliver_all (events : list Event) : Run unit :=
  match events with
  | [] => ret tt
  | e :: rest => deliver e ;;; deliver_all rest
  end.

(** [while (!glfwWindowShouldClose(window)) { ++frame; glfwPollEvents();
    update(); draw(); finishFrame(); }] over the events at hand. *)
Fixpoint frame_loop (polls : list (list Event)) : Run unit :=
  fun st =>
    if should_close st then (Returned tt, st)
    else
      match polls with
      | [] => (Running, st)
      | events :: rest =>
        (modify (fun st => set_frame (RiftLayout.to_uint (frame st + 1)) st) ;;;
         call glfwPollEvents ;;;
         deliver_all events ;;;
         n <- get frame ;;
         call (draw n) ;;;
         call glfwSwapBuffers ;;;
         frame_loop rest) st
      end.

(** [GlfwApp::run] on an [ExampleApp]. *)
Definition run (p : Platform) : Run Z :=
  let l := RiftLayout.RiftApp_ctor (eyeSize p) in
  (* window = createRenderingTarget(windowSize, windowPosition); *)
  createWindow p (RiftLayout._mirrorSize l) ;;;
  modify (set_window true) ;;;
  w <- get window ;;
  if negb w then call (cout "Unable to create OpenGL window") ;;; ret (-1)
  else
    postCreate p ;;;
    ExampleApp_initGl p l ;;;
    frame_loop (polls p) ;;;
    shutdownGl ;;;
    ret 0.

(** *** [main] *)

Definition app0 : AppState := MkApp [] false 0 false false.

(** The [try] block. *)
Definition try_block (p : Platform) : Run Z :=
  call ovr_Initialize ;;;
  (if negb (ovr_Initialize_ok p) then FAIL "Failed to initialize the Oculus SDK"
   else ret tt) ;;;
  (* result = ExampleApp().run(); *)
  ExampleApp_ctor p ;;;
  finally (run p) ExampleApp_dtor.

(** [main]: how it ends, with the value it returns, and the calls it has
    made.  The handler turns an exception into the result -1. *)
Definition main (p : Platform) : Result Z * list Call :=
  match try_block p app0 with
  | (Returned result, st) => (Returned result, calls st ++ [ovr_Shutdown])
  | (Threw what, st) => (Returned (-1), calls st ++ [cerr what; ovr_Shutdown])
  | (other, st) => (other, calls st)
  end.

(** The events of a poll close the window. *)
Definition closes (events : list Event) : bool :=
  existsb (fun e => match e with
                    | KeyEvent key action => (action =? GLFW_PRESS) && (key =? GLFW_KEY_ESCAPE)
                    | CloseRequest => true
                    | ErrorEvent _ => false
                    end) events.

(** The events of a poll bring no error. *)
Definition quiet (events : list Event) : bool :=
  forallb (fun e => match e with ErrorEvent _ => false | _ => true end) events.

(** Every call of the start-up before the loads of the scene's
    constructor succeeds. *)
Definition reaches_loads (p : Platform) : bool :=
  ovr_Initialize_ok p && glfwInit_ok p && ovr_Create_ok p
  && match glfwCreateWindow_answer p with WindowCreated => true | _ => false end
  && glewInit_ok p && swap_chain_ok p
  && match swap_chain_length p with Some n => negb (n =? 0) | None => false end
  && mirror_texture_ok p
  && match scene_exception p with None => true | Some _ => false end.

(** The lines the loads of the scene's constructor write to [std::cerr],
    and whether they all return. *)
Definition scene_lines (p : Platform) : list string :=
  Startup.cerr (snd (Construction.load_textures (files p) Startup.ctor_start)).
Definition loads_return (p : Platform) : bool :=
  match fst (Construction.load_textures (files p) Startup.ctor_start) with
  | PpmFile.Returns _ => true
  | _ => false
  end.

(** The start-up succeeds. *)
Definition starts_up (p : Platform) : bool := reaches_loads p && loads_return p.

(** *** Vocabulary of the statements about the application *)

(** The calls the frame loop makes. *)
Definition loop_call (c : Call) : Prop :=
  match c with
  | glfwPollEvents | glfwSetWindowShouldClose | ovr_RecenterTrackingOrigin
  | draw _ | glfwSwapBuffers => True
  | _ => False
  end.

(** A piece of the frame loop: it adds calls of the loop and leaves
    [window] and [cubeScene] as they are. *)
Definition loop_step {A : Type} (c : Run A) : Prop :=
  forall st, exists extra,
    calls (snd (c st)) = calls st ++ extra /\ Forall loop_call extra /\
    window (snd (c st)) = window st /\ cubeScene (snd (c st)) = cubeScene st.

(** The calls of a start-up in which nothing fails. *)
Definition startup_calls (p : Platform) : list Call :=
  let l := RiftLayout.RiftApp_ctor (eyeSize p) in
  [ ovr_Initialize; glfwInit; glfwSetErrorCallback; ovr_Create;
    glfwCreateWindow (RiftLayout.ux (RiftLayout._mirrorSize l))
                     (RiftLayout.uy (RiftLayout._mirrorSize l));
    glewInit;
    ovr_CreateTextureSwapChainGL (RiftLayout.ux (RiftLayout._renderTargetSize l))
                                 (RiftLayout.uy (RiftLayout._renderTargetSize l));
    ovr_GetTextureSwapChainLength;
    ovr_CreateMirrorTextureGL (RiftLayout.ux (RiftLayout._mirrorSize l))
                              (RiftLayout.uy (RiftLayout._mirrorSize l));
    ovr_RecenterTrackingOrigin; new_ColorCubeScene ]
  ++ map cerr (scene_lines p).

(** The calls that end a run that has started up. *)
Definition teardown_calls : list Call :=
  [delete_ColorCubeScene; ovr_Destroy; glfwDestroyWindow; glfwTerminate].

Definition is_cerr (c : Call) : bool :=
  match c with cerr _ => true | _ => false end.

(** The frames drawn, by their numbers, and the number of polls. *)
Definition draws (cs : list Call) : list Z :=
  flat_map (fun c => match c with draw n => [n] | _ => [] end) cs.
Definition poll_count (cs : list Call) : nat :=
  List.length (filter (fun c => match c with glfwPollEvents => true | _ => false end) cs).

(** The numbers of the next [n] frames after frame [f]. *)
Definition frame_numbers (f : Z) (n : nat) : list Z :=
  map (fun k => RiftLayout.to_uint (f + Z.of_nat k)) (seq 1 n).

(** What the handlers of a poll do to the state: they can ask the window
    to close, and they draw and poll nothing. *)
Definition handled (st st' : AppState) (closing : bool) : Prop :=
  should_close st' = should_close st || closing /\
  frame st' = frame st /\ draws (calls st') = draws (calls st) /\
  poll_count (calls st') = poll_count (calls st).

(** A platform on which every call succeeds, no texture file can be
    opened, and Escape is pressed in the first frame. *)
Definition sample_platform : Platform :=
  MkPlatform true true true RiftLayout.rift_eye WindowCreated true true (Some 3) true None
             Startup.no_files "std::bad_alloc"
             [[KeyEvent GLFW_KEY_ESCAPE GLFW_PRESS]].

End App.

(** ** Proof steps used throughout *)

Ltac break_conditions :=
  repeat match goal with
         | |- context [if ?c then _ else _] => destruct c eqn:?
         | |- context [match ?q with Some _ => _ | None => _ end] => destruct q eqn:?
         end.

Ltac unfold_steps :=
  unfold floor_math, right_wall_math, left_wall_math, update_eyePos,
    follow_head_position, pick_view_source, read_trigger, read_hand_pose,
    release_X, press_X, release_A, press_A, release_B, press_B,
    translate_box, reset_box_size, change_box_size; cbv zeta.

Ltac unfold_before_wall_math :=
  unfold before_wall_math, update_eyePos, follow_head_position, pick_view_source,
    read_trigger, read_hand_pose; cbv zeta.

Ltac keeps_step := intro; unfold_steps; break_conditions; reflexivity.


Ltac vec_calc :=
  unfold OffAxis.rectangle, OffAxis.coplanar, OffAxis.edge_right, OffAxis.edge_up,
    smul3, sub3, add3, cross, dot, vec3_zero;
  simpl;
  repeat match goal with
         | |- _ /\ _ => split
         | |- @eq vec3 _ _ => f_equal
         end;
  lra.

(** * Properties *)

(** ** The interaction controller and the frame loop *)

Section StepFrames.
Variable i : ovrInputState.
Variable f : Frame.

Lemma change_box_size_view : keeps view_state (change_box_size i). Proof. keeps_step. Qed.
Lemma reset_box_size_view : keeps view_state (reset_box_size i). Proof. keeps_step. Qed.
Lemma translate_box_view : keeps view_state (translate_box i). Proof. keeps_step. Qed.
Lemma press_B_view : keeps view_state (press_B i). Proof. keeps_step. Qed.
Lemma release_B_view : keeps view_state (release_B i). Proof. keeps_step. Qed.
Lemma press_A_view : keeps view_state (press_A i). Proof. keeps_step. Qed.
Lemma release_A_view : keeps view_state (release_A i). Proof. keeps_step. Qed.
Lemma press_X_view : keeps view_state (press_X i). Proof. keeps_step. Qed.
Lemma release_X_view : keeps view_state (release_X i). Proof. keeps_step. Qed.

Lemma read_hand_pose_controls : keeps controls (read_hand_pose f). Proof. keeps_step. Qed.
Lemma read_trigger_controls : keeps controls (read_trigger f). Proof. keeps_step. Qed.
Lemma pick_view_source_controls : keeps controls pick_view_source. Proof. keeps_step. Qed.
Lemma follow_head_position_controls : keeps controls (follow_head_position f).
Proof. keeps_step. Qed.
Lemma update_eyePos_controls : keeps controls (update_eyePos f). Proof. keeps_step. Qed.
Lemma left_wall_math_controls : keeps controls (left_wall_math f). Proof. keeps_step. Qed.
Lemma right_wall_math_controls : keeps controls (right_wall_math f). Proof. keeps_step. Qed.
Lemma floor_math_controls : keeps controls (floor_math f). Proof. keeps_step. Qed.
End StepFrames.

Lemma checkInput_view_state (q : option ovrInputState) (s : ColorCubeScene) :
  view_state (checkInput q s) = view_state s.
Proof.
  destruct q as [i |]; [| reflexivity].
  unfold checkInput; cbv zeta.
  rewrite release_X_view, press_X_view, release_A_view, press_A_view, release_B_view,
    press_B_view, translate_box_view, reset_box_size_view, change_box_size_view.
  reflexivity.
Qed.

Lemma render_update_controls (f : Frame) (s : ColorCubeScene) :
  controls (render_update f s) = controls (checkInput (checkInput_query f) s).
Proof.
  unfold render_update; cbv zeta.
  rewrite floor_math_controls, right_wall_math_controls, left_wall_math_controls,
    update_eyePos_controls, follow_head_position_controls, pick_view_source_controls,
    read_trigger_controls, read_hand_pose_controls.
  reflexivity.
Qed.

Section RenderControls.
Variable f : Frame.
Variable s : ColorCubeScene.

Lemma render_update_boxScale :
  boxScale (render_update f s) = boxScale (checkInput (checkInput_query f) s).
Proof. exact (f_equal (fun c => snd (fst (fst c))) (render_update_controls f s)). Qed.
Lemma render_update_track :
  track (render_update f s) = track (checkInput (checkInput_query f) s).
Proof. exact (f_equal (fun c => fst (fst (snd (fst c)))) (render_update_controls f s)). Qed.
Lemma render_update_debug :
  debug (render_update f s) = debug (checkInput (checkInput_query f) s).
Proof. exact (f_equal (fun c => snd (fst (snd (fst c)))) (render_update_controls f s)). Qed.
Lemma render_update_broken :
  broken (render_update f s) = broken (checkInput (checkInput_query f) s).
Proof. exact (f_equal (fun c => snd (snd (fst c))) (render_update_controls f s)). Qed.
Lemma render_update_A_down :
  A_down (render_update f s) = A_down (checkInput (checkInput_query f) s).
Proof. exact (f_equal (fun c => fst (fst (snd c))) (render_update_controls f s)). Qed.
Lemma render_update_B_down :
  B_down (render_update f s) = B_down (checkInput (checkInput_query f) s).
Proof. exact (f_equal (fun c => snd (fst (snd c))) (render_update_controls f s)). Qed.
Lemma render_update_X_down :
  X_down (render_update f s) = X_down (checkInput (checkInput_query f) s).
Proof. exact (f_equal (fun c => snd (snd c)) (render_update_controls f s)). Qed.
End RenderControls.

Section ButtonSteps.
Variable i : ovrInputState.

Lemma box_steps_B :
  keeps B_pair (fun s => translate_box i (reset_box_size i (change_box_size i s))).
Proof. keeps_step. Qed.
Lemma box_steps_A :
  keeps A_pair (fun s => translate_box i (reset_box_size i (change_box_size i s))).
Proof. keeps_step. Qed.
Lemma box_steps_X :
  keeps X_pair (fun s => translate_box i (reset_box_size i (change_box_size i s))).
Proof. keeps_step. Qed.

Lemma B_steps_B (s : ColorCubeScene) :
  B_pair (release_B i (press_B i s)) = edge (button_set i ovrButton_B) (B_pair s).
Proof.
  unfold release_B, press_B, edge, B_pair.
  destruct s as [bt bs lw rw fl lv rv fv ep qp po bd ad xd tr db br vf hp tp]; simpl.
  destruct (button_set i ovrButton_B), bd; reflexivity.
Qed.
Lemma B_steps_A : keeps A_pair (fun s => release_B i (press_B i s)). Proof. keeps_step. Qed.
Lemma B_steps_X : keeps X_pair (fun s => release_B i (press_B i s)). Proof. keeps_step. Qed.

Lemma A_steps_A (s : ColorCubeScene) :
  A_pair (release_A i (press_A i s)) = edge (button_set i ovrButton_A) (A_pair s).
Proof.
  unfold release_A, press_A, edge, A_pair.
  destruct s as [bt bs lw rw fl lv rv fv ep qp po bd ad xd tr db br vf hp tp]; simpl.
  destruct (button_set i ovrButton_A), ad; reflexivity.
Qed.
Lemma A_steps_B : keeps B_pair (fun s => release_A i (press_A i s)). Proof. keeps_step. Qed.
Lemma A_steps_X : keeps X_pair (fun s => release_A i (press_A i s)). Proof. keeps_step. Qed.

Lemma X_steps_X (s : ColorCubeScene) :
  X_pair (release_X i (press_X i s)) = edge (button_set i ovrButton_X) (X_pair s).
Proof.
  unfold release_X, press_X, edge, X_pair.
  destruct s as [bt bs lw rw fl lv rv fv ep qp po bd ad xd tr db br vf hp tp]; simpl.
  destruct (button_set i ovrButton_X), xd; reflexivity.
Qed.
Lemma X_steps_A : keeps A_pair (fun s => release_X i (press_X i s)). Proof. keeps_step. Qed.
Lemma X_steps_B : keeps B_pair (fun s => release_X i (press_X i s)). Proof. keeps_step. Qed.

Lemma checkInput_B (s : ColorCubeScene) :
  B_pair (checkInput (Some i) s) = edge (button_set i ovrButton_B) (B_pair s).
Proof.
  unfold checkInput; cbv zeta.
  rewrite (X_steps_B _), (A_steps_B _), B_steps_B, (box_steps_B s). reflexivity.
Qed.
Lemma checkInput_A (s : ColorCubeScene) :
  A_pair (checkInput (Some i) s) = edge (button_set i ovrButton_A) (A_pair s).
Proof.
  unfold checkInput; cbv zeta.
  rewrite (X_steps_A _), A_steps_A, (B_steps_A _), (box_steps_A s). reflexivity.
Qed.
Lemma checkInput_X (s : ColorCubeScene) :
  X_pair (checkInput (Some i) s) = edge (button_set i ovrButton_X) (X_pair s).
Proof.
  unfold checkInput; cbv zeta.
  rewrite X_steps_X, (A_steps_X _), (B_steps_X _), (box_steps_X s). reflexivity.
Qed.

Lemma button_steps_boxScale :
  keeps boxScale
    (fun s => release_X i (press_X i (release_A i (press_A i (release_B i (press_B i s)))))).
Proof.
  intros s.
  assert (H : forall step1 step2, keeps boxScale step1 -> keeps boxScale step2 ->
               forall s, boxScale (step2 (step1 s)) = boxScale s)
    by (intros ? ? H1 H2 ?; rewrite H2; apply H1).
  rewrite (H _ (release_X i)), (H _ (release_A i)), (H (press_B i) (release_B i));
    try reflexivity; keeps_step.
Qed.

Lemma checkInput_boxScale (s : ColorCubeScene) :
  boxScale (checkInput (Some i) s) = scale_input i (boxScale s).
Proof.
  unfold checkInput; cbv zeta. rewrite (button_steps_boxScale _).
  unfold_steps. unfold scale_input.
  destruct (button_set i ovrButton_LThumb), (Rneb (x2 (sub2 (Thumbstick i) ovrHand_Left)) 0);
    simpl; break_conditions; reflexivity.
Qed.
End ButtonSteps.

(** *** Scale bounds *)

Lemma scale_input_bounds (i : ovrInputState) (scale : R) :
  1 / 100 <= scale < 1 -> 1 / 100 <= scale_input i scale < 1.
Proof.
  intros H. unfold scale_input; cbv zeta.
  destruct (button_set i ovrButton_LThumb); [lra |].
  destruct (Rneb _ 0); simpl; [| exact H].
  unfold Rgtb, Rltb.
  destruct (Rgt_dec _ _), (Rlt_dec _ _); simpl; lra.
Qed.

Lemma render_boxScale (f : Frame) (s : ColorCubeScene) :
  boxScale (render_update f s) =
  match checkInput_query f with
  | Some i => scale_input i (boxScale s)
  | None => boxScale s
  end.
Proof.
  rewrite render_update_boxScale.
  destruct (checkInput_query f) as [i |]; [apply checkInput_boxScale | reflexivity].
Qed.

Lemma run_boxScale_bounds (frames : list Frame) (s : ColorCubeScene) :
  1 / 100 <= boxScale s < 1 -> 1 / 100 <= boxScale (run frames s) < 1.
Proof.
  revert s. induction frames as [| f rest IH]; intros s H; [exact H |].
  change (run (f :: rest) s) with (run rest (render_update f s)).
  apply IH. rewrite render_boxScale.
  destruct (checkInput_query f); [apply scale_input_bounds |]; exact H.
Qed.

(** C3: from the constructed scene, whatever the frames, [boxScale] stays
    in [0.01, 1.0); one call changes it by the rule of [scale_input]: a
    left-thumbstick press gives 0.2, otherwise a nonzero x adds x * 0.01
    when the sum is strictly between 0.01 and 1.0. *)
Theorem boxScale_stays_in_bounds
        (Quad_vertices : verts4) (hands : arr2 ovrPosef) (frames : list Frame) :
  boxScale (Startup.initial_scene Quad_vertices hands) = 2 / 10 /\
  1 / 100 <= boxScale (run frames (Startup.initial_scene Quad_vertices hands)) < 1 /\
  (forall (f : Frame) (s : ColorCubeScene),
      boxScale (render_update f s) =
      match checkInput_query f with
      | Some i => scale_input i (boxScale s)
      | None => boxScale s
      end) /\
  (forall (i : ovrInputState) (scale : R),
      (button_set i ovrButton_LThumb = true -> scale_input i scale = 2 / 10) /\
      (scale_input i scale <> scale -> button_set i ovrButton_LThumb = false ->
       scale_input i scale = scale + x2 (sub2 (Thumbstick i) ovrHand_Left) * (1 / 100) /\
       1 / 100 < scale_input i scale < 1)).
Proof.
  split; [reflexivity |].
  split; [apply run_boxScale_bounds; simpl; lra |].
  split; [exact render_boxScale |].
  intros i scale. unfold scale_input; cbv zeta. split.
  - intros ->. reflexivity.
  - intros Hne Hb. rewrite Hb in *. revert Hne.
    destruct (Rneb _ 0); simpl; [| intros Hne; contradiction Hne; reflexivity].
    unfold Rgtb, Rltb. destruct (Rgt_dec _ _), (Rlt_dec _ _); simpl; intros Hne;
      try (contradiction Hne; reflexivity).
    split; [reflexivity | lra].
Qed.

(** *** Edge-triggered buttons *)

Lemma render_edge (btn : EdgeButton) (f : Frame) (s : ColorCubeScene) :
  (flag btn (render_update f s), latch btn (render_update f s)) =
  match checkInput_query f with
  | Some i => edge (button_set i (button_mask btn)) (flag btn s, latch btn s)
  | None => (flag btn s, latch btn s)
  end.
Proof.
  destruct btn; cbn [flag latch button_mask].
  - rewrite render_update_debug, render_update_A_down.
    destruct (checkInput_query f) as [i |]; [apply checkInput_A | reflexivity].
  - rewrite render_update_track, render_update_B_down.
    destruct (checkInput_query f) as [i |]; [apply checkInput_B | reflexivity].
  - rewrite render_update_broken, render_update_X_down.
    destruct (checkInput_query f) as [i |]; [apply checkInput_X | reflexivity].
Qed.

Lemma no_release_keeps (btn : EdgeButton) (frames : list Frame) (s : ColorCubeScene) :
  latch btn s = true ->
  forallb (no_release btn) frames = true ->
  toggles btn frames s = 0%nat /\
  flag btn (run frames s) = flag btn s /\ latch btn (run frames s) = true.
Proof.
  revert s. induction frames as [| f rest IH]; intros s Hl Hall; [auto |].
  simpl in Hall. apply andb_true_iff in Hall as [Hf Hrest].
  pose proof (render_edge btn f s) as E. unfold no_release in Hf.
  destruct (checkInput_query f) as [i |].
  - rewrite Hf, Hl in E. unfold edge in E; simpl in E. injection E as Efl Ela.
    destruct (IH (render_update f s) Ela Hrest) as (T0 & F0 & L0).
    change (run (f :: rest) s) with (run rest (render_update f s)).
    cbn [toggles]. rewrite T0, F0, L0, Efl, eqb_reflx. auto.
  - injection E as Efl Ela. rewrite Hl in Ela.
    destruct (IH (render_update f s) Ela Hrest) as (T0 & F0 & L0).
    change (run (f :: rest) s) with (run rest (render_update f s)).
    cbn [toggles]. rewrite T0, F0, L0, Efl, eqb_reflx. auto.
Qed.

Lemma held_no_release (btn : EdgeButton) (frames : list Frame) :
  forallb (held btn) frames = true -> forallb (no_release btn) frames = true.
Proof.
  induction frames as [| f rest IH]; [reflexivity |]. simpl.
  intros H. apply andb_true_iff in H as [Hf Hrest]. rewrite (IH Hrest), andb_true_r.
  unfold held in Hf. unfold no_release. destruct (checkInput_query f); [exact Hf | discriminate].
Qed.

(** C4: a button held over one or more frames, starting released, toggles
    its flag exactly once, and no further frame toggles it as long as no
    frame shows the button released. *)
Theorem held_button_toggles_once
        (btn : EdgeButton) (frames : list Frame) (s : ColorCubeScene) :
  frames <> [] ->
  forallb (held btn) frames = true ->
  latch btn s = false ->
  toggles btn frames s = 1%nat /\
  flag btn (run frames s) = negb (flag btn s) /\
  latch btn (run frames s) = true /\
  (forall more,
      forallb (no_release btn) more = true ->
      toggles btn more (run frames s) = 0%nat /\
      flag btn (run more (run frames s)) = flag btn (run frames s)).
Proof.
  intros Hne Hall Hl.
  destruct frames as [| f rest]; [contradiction Hne; reflexivity |].
  simpl in Hall. apply andb_true_iff in Hall as [Hf Hrest].
  pose proof (render_edge btn f s) as E. unfold held in Hf.
  destruct (checkInput_query f) as [i |]; [| discriminate].
  rewrite Hf, Hl in E. unfold edge in E; simpl in E. injection E as Efl Ela.
  destruct (no_release_keeps btn rest (render_update f s) Ela (held_no_release btn rest Hrest))
    as (T0 & F0 & L0).
  change (run (f :: rest) s) with (run rest (render_update f s)).
  cbn [toggles].
  split; [rewrite T0, Efl; destruct (flag btn s); reflexivity |].
  split; [rewrite F0; exact Efl |].
  split; [exact L0 |].
  intros more H. destruct (no_release_keeps btn more _ L0 H) as (? & ? & ?); auto.
Qed.

Lemma held_A_frames_held : forallb (held Button_A) held_A_frames = true.
Proof. reflexivity. Qed.
Lemma held_A_frames_nonempty : held_A_frames <> [].
Proof. discriminate. Qed.
Lemma scene0_A_released : latch Button_A scene0 = false.
Proof. reflexivity. Qed.

(** C4 at button A held over the two eyes of the first frame. *)
Lemma held_button_toggles_once_witness :
  toggles Button_A held_A_frames scene0 = 1%nat.
Proof.
  exact (proj1 (held_button_toggles_once Button_A held_A_frames scene0
                  held_A_frames_nonempty held_A_frames_held scene0_A_released)).
Defined.

(** *** Failed queries *)

Section ViewFields.
Variable q : option ovrInputState.

Lemma checkInput_eyePos : keeps eyePos (checkInput q).
Proof.
  intros s. exact (f_equal (fun '(_, _, _, _, e, _, _, _) => e) (checkInput_view_state q s)).
Qed.
Lemma checkInput_posOnly : keeps posOnly (checkInput q).
Proof.
  intros s. exact (f_equal (fun '(_, _, _, _, _, _, p, _) => p) (checkInput_view_state q s)).
Qed.
Lemma checkInput_triggerPressed : keeps triggerPressed (checkInput q).
Proof.
  intros s.
  exact (f_equal (fun '(_, _, _, _, _, _, _, (_, _, t)) => t) (checkInput_view_state q s)).
Qed.
Lemma checkInput_walls : keeps (fun s => (leftwall s, rightwall s, floor s)) (checkInput q).
Proof.
  intros s.
  exact (f_equal (fun '(l, r, f, _, _, _, _, _) => (l, r, f)) (checkInput_view_state q s)).
Qed.
End ViewFields.

Lemma render_update_phases (f : Frame) (s : ColorCubeScene) :
  render_update f s = wall_math f (before_wall_math f (checkInput (checkInput_query f) s)).
Proof. reflexivity. Qed.

Lemma wall_math_result (f : Frame) (s : ColorCubeScene) :
  (leftWallVerts (wall_math f s), rightWallVerts (wall_math f s), floorVerts (wall_math f s))
  = (transform_verts leftTransform (leftwall s),
     transform_verts rightTransform (rightwall s),
     transform_verts floorTransform (floor s)) /\
  quadProjections (wall_math f s)
  = Arr3 (OffAxis.quadProjection (transform_verts leftTransform (leftwall s))
                                 (sub2 (eyePos s) (eye f)))
         (OffAxis.quadProjection (transform_verts rightTransform (rightwall s))
                                 (sub2 (eyePos s) (eye f)))
         (OffAxis.quadProjection (transform_verts floorTransform (floor s))
                                 (sub2 (eyePos s) (eye f))).
Proof. split; reflexivity. Qed.

Lemma wall_math_projections (f : Frame) (s : ColorCubeScene) :
  quadProjections (wall_math f s)
  = Arr3 (OffAxis.quadProjection (leftWallVerts (wall_math f s))
                                 (sub2 (eyePos (wall_math f s)) (eye f)))
         (OffAxis.quadProjection (rightWallVerts (wall_math f s))
                                 (sub2 (eyePos (wall_math f s)) (eye f)))
         (OffAxis.quadProjection (floorVerts (wall_math f s))
                                 (sub2 (eyePos (wall_math f s)) (eye f))).
Proof. reflexivity. Qed.

Lemma render_update_quadProjections (f : Frame) (s : ColorCubeScene) :
  quadProjections (render_update f s)
  = Arr3 (OffAxis.quadProjection (leftWallVerts (render_update f s))
                                 (sub2 (eyePos (render_update f s)) (eye f)))
         (OffAxis.quadProjection (rightWallVerts (render_update f s))
                                 (sub2 (eyePos (render_update f s)) (eye f)))
         (OffAxis.quadProjection (floorVerts (render_update f s))
                                 (sub2 (eyePos (render_update f s)) (eye f))).
Proof. rewrite render_update_phases. apply wall_math_projections. Qed.

Lemma before_wall_math_triggerPressed (f : Frame) (s : ColorCubeScene) :
  triggerPressed (before_wall_math f s) =
  match trigger_query f with
  | Some inputstate =>
    upd2 (triggerPressed s) RIGHT (Rgtb (sub2 (HandTrigger inputstate) ovrHand_Right) (1 / 2))
  | None => triggerPressed s
  end.
Proof. unfold_before_wall_math. break_conditions; reflexivity. Qed.

Lemma before_wall_math_walls (f : Frame) :
  keeps (fun s => (leftwall s, rightwall s, floor s)) (before_wall_math f).
Proof. intros s. unfold_before_wall_math. break_conditions; reflexivity. Qed.

Lemma keeps_track (step : ColorCubeScene -> ColorCubeScene) :
  keeps controls step -> keeps track step.
Proof. intros H s. exact (f_equal (fun c => fst (fst (snd (fst c)))) (H s)). Qed.

Section TrackOff.
Variable f : Frame.

Lemma read_hand_pose_position : keeps (fun s => (eyePos s, posOnly s)) (read_hand_pose f).
Proof. keeps_step. Qed.
Lemma read_trigger_position : keeps (fun s => (eyePos s, posOnly s)) (read_trigger f).
Proof. keeps_step. Qed.
Lemma pick_view_source_position : keeps (fun s => (eyePos s, posOnly s)) pick_view_source.
Proof. keeps_step. Qed.

Lemma follow_head_position_track_off (s : ColorCubeScene) :
  track s = false ->
  (eyePos (follow_head_position f s), posOnly (follow_head_position f s))
  = (eyePos s, posOnly s).
Proof.
  intros H. unfold follow_head_position. rewrite H.
  destruct (viewFromController s); reflexivity.
Qed.

Lemma update_eyePos_track_off (s : ColorCubeScene) :
  track s = false ->
  (eyePos (update_eyePos f s), posOnly (update_eyePos f s)) = (eyePos s, posOnly s).
Proof.
  intros H. unfold update_eyePos. rewrite H.
  destruct (viewFromController s); reflexivity.
Qed.

Lemma before_wall_math_track_off (s : ColorCubeScene) :
  track s = false ->
  (eyePos (before_wall_math f s), posOnly (before_wall_math f s)) = (eyePos s, posOnly s).
Proof.
  intros H. unfold before_wall_math.
  rewrite update_eyePos_track_off, follow_head_position_track_off.
  - rewrite (pick_view_source_position _), (read_trigger_position _),
      (read_hand_pose_position _). reflexivity.
  - rewrite (keeps_track _ pick_view_source_controls),
      (keeps_track _ (read_trigger_controls f)),
      (keeps_track _ (read_hand_pose_controls f)). exact H.
  - rewrite (keeps_track _ (follow_head_position_controls f)),
      (keeps_track _ pick_view_source_controls),
      (keeps_track _ (read_trigger_controls f)),
      (keeps_track _ (read_hand_pose_controls f)). exact H.
Qed.
End TrackOff.

Lemma render_update_triggerPressed (f : Frame) (s : ColorCubeScene) :
  triggerPressed (render_update f s) =
  match trigger_query f with
  | Some inputstate =>
    upd2 (triggerPressed s) RIGHT (Rgtb (sub2 (HandTrigger inputstate) ovrHand_Right) (1 / 2))
  | None => triggerPressed s
  end.
Proof.
  rewrite render_update_phases.
  change (triggerPressed (wall_math f ?x)) with (triggerPressed x).
  rewrite before_wall_math_triggerPressed, (checkInput_triggerPressed _ s). reflexivity.
Qed.

(** C7: a failed input query changes nothing.  When the query of
    [checkInput] fails, the scale, the box transform, the three flags and
    the three latches come out of the call as they went in; when the query
    for the finger triggers fails, so do the trigger flags; when both fail,
    the whole interaction state does.  [render_update] is a total function:
    the call has no outcome but its resulting scene. *)
Theorem failed_query_keeps_interaction_state (f : Frame) (s : ColorCubeScene) :
  (checkInput_query f = None ->
   checkInput (checkInput_query f) s = s /\ controls (render_update f s) = controls s) /\
  (trigger_query f = None -> triggerPressed (render_update f s) = triggerPressed s) /\
  (checkInput_query f = None -> trigger_query f = None ->
   interaction_state (render_update f s) = interaction_state s).
Proof.
  split; [intros Hq; split | split; [intros Ht | intros Hq Ht]].
  - rewrite Hq; reflexivity.
  - rewrite render_update_controls, Hq. reflexivity.
  - rewrite render_update_triggerPressed, Ht. reflexivity.
  - unfold interaction_state.
    rewrite render_update_controls, render_update_triggerPressed, Hq, Ht. reflexivity.
Qed.

(** C7 at a frame whose two queries fail. *)
Lemma failed_query_keeps_interaction_state_witness :
  interaction_state (render_update (frame_with ovrEye_Left None) scene0)
  = interaction_state scene0.
Proof.
  exact (proj2 (proj2 (failed_query_keeps_interaction_state
                         (frame_with ovrEye_Left None) scene0)) eq_refl eq_refl).
Defined.

(** *** Tracking switched off *)

Lemma render_update_track_off (f : Frame) (s : ColorCubeScene) :
  track (checkInput (checkInput_query f) s) = false ->
  eyePos (render_update f s) = eyePos s /\ posOnly (render_update f s) = posOnly s.
Proof.
  intros H. rewrite render_update_phases.
  change (eyePos (wall_math f ?x)) with (eyePos x).
  change (posOnly (wall_math f ?x)) with (posOnly x).
  pose proof (before_wall_math_track_off f _ H) as E. injection E as -> ->.
  split; [apply checkInput_eyePos | apply checkInput_posOnly].
Qed.

Lemma render_output_frozen_view (f : Frame) (s : ColorCubeScene) (m : mat4) :
  scene_modelview (render_output f s) = view_matrix m -> m = posOnly s.
Proof.
  unfold render_output; simpl. destruct (viewFromController s); [discriminate |].
  intros H; injection H as <-; reflexivity.
Qed.

(** C9: over frames in which tracking is off, the stored eye positions and
    [posOnly] (whose last column is the frozen position) stay as they were,
    the wall passes that use a stored matrix use that frozen [posOnly], and
    the CAVE is drawn with each frame's own [modelview], head orientation
    included. *)
Theorem tracking_off_freezes_position (frames : list Frame) (s : ColorCubeScene) :
  tracking_off frames s ->
  eyePos (run frames s) = eyePos s /\
  posOnly (run frames s) = posOnly s /\
  Forall (fun out => forall m, scene_modelview out = view_matrix m -> m = posOnly s)
         (run_output frames s) /\
  map cave_modelview (run_output frames s) = map modelview frames.
Proof.
  revert s. induction frames as [| f rest IH]; intros s H.
  - repeat split; constructor.
  - destruct H as [Hoff Hrest].
    destruct (render_update_track_off f s Hoff) as [He Hp].
    destruct (IH _ Hrest) as (IHe & IHp & IHv & IHm).
    cbn [run run_output map]. rewrite IHe, IHp, He, Hp, IHm.
    repeat split.
    constructor.
    + intros m Hm. rewrite <- Hp. exact (render_output_frozen_view f _ m Hm).
    + rewrite Hp in IHv. exact IHv.
Qed.

Lemma frames_untracked_off : tracking_off frames_untracked (set_track false scene0).
Proof.
  cbn [tracking_off frames_untracked]. repeat split.
Qed.

(** C9 at two calls whose queries fail, tracking switched off before. *)
Lemma tracking_off_freezes_position_witness :
  eyePos (run frames_untracked (set_track false scene0)) = eyePos (set_track false scene0).
Proof.
  exact (proj1 (tracking_off_freezes_position frames_untracked (set_track false scene0)
                  frames_untracked_off)).
Defined.

(** *** The eye position used by the frustum computation *)

Section EyePos.
Variable f : Frame.

Lemma update_eyePos_view_source : keeps view_source (update_eyePos f).
Proof. keeps_step. Qed.
Lemma update_eyePos_spec (s : ColorCubeScene) :
  sub2 (handPoses s) RIGHT = HandPose_Right f ->
  eyePos (update_eyePos f s) =
  if track s then upd2 (eyePos s) (eye f) (tracked_eye f (viewFromController s))
  else eyePos s.
Proof.
  intros H. unfold update_eyePos, tracked_eye; cbv zeta. rewrite H.
  destruct (viewFromController s), (track s), (eye f); reflexivity.
Qed.

Lemma before_wall_math_eyePos (s : ColorCubeScene) :
  eyePos (before_wall_math f s) =
  if track (before_wall_math f s)
  then upd2 (eyePos s) (eye f) (tracked_eye f (viewFromController (before_wall_math f s)))
  else eyePos s.
Proof.
  unfold before_wall_math.
  set (s4 := follow_head_position f (pick_view_source (read_trigger f (read_hand_pose f s)))).
  pose proof (update_eyePos_view_source s4) as Hv. unfold view_source in Hv.
  injection Hv as -> ->.
  assert (H4 : eyePos s4 = eyePos s /\ sub2 (handPoses s4) RIGHT = HandPose_Right f).
  { unfold s4, follow_head_position, pick_view_source, read_trigger, read_hand_pose.
    break_conditions; split; reflexivity. }
  destruct H4 as [He Hh]. rewrite (update_eyePos_spec s4 Hh), He. reflexivity.
Qed.
End EyePos.

Lemma render_update_eyePos (f : Frame) (s : ColorCubeScene) :
  eyePos (render_update f s) =
  if track (render_update f s)
  then upd2 (eyePos s) (eye f) (tracked_eye f (viewFromController (render_update f s)))
  else eyePos s.
Proof.
  rewrite render_update_phases.
  change (eyePos (wall_math f ?x)) with (eyePos x).
  change (track (wall_math f ?x)) with (track x).
  change (viewFromController (wall_math f ?x)) with (viewFromController x).
  rewrite before_wall_math_eyePos, (checkInput_eyePos _ s). reflexivity.
Qed.

Lemma render_update_walls (f : Frame) :
  keeps (fun s => (leftwall s, rightwall s, floor s)) (render_update f).
Proof.
  intros s. cbv beta. rewrite render_update_phases.
  change (leftwall (wall_math f ?x)) with (leftwall x).
  change (rightwall (wall_math f ?x)) with (rightwall x).
  change (floor (wall_math f ?x)) with (floor x).
  pose proof (before_wall_math_walls f (checkInput (checkInput_query f) s)) as H1.
  pose proof (checkInput_walls (checkInput_query f) s) as H2.
  cbv beta in H1, H2. rewrite H1, H2. reflexivity.
Qed.

Lemma render_update_projections (f : Frame) (s : ColorCubeScene) :
  map pass_projection (wall_passes (render_output f (render_update f s))) =
  [ OffAxis.quadProjection (transform_verts leftTransform (leftwall s))
                           (sub2 (eyePos (render_update f s)) (eye f));
    OffAxis.quadProjection (transform_verts rightTransform (rightwall s))
                           (sub2 (eyePos (render_update f s)) (eye f));
    OffAxis.quadProjection (transform_verts floorTransform (floor s))
                           (sub2 (eyePos (render_update f s)) (eye f)) ].
Proof.
  cbn [render_output wall_passes map pass_projection].
  rewrite render_update_phases.
  destruct (wall_math_result f (before_wall_math f (checkInput (checkInput_query f) s)))
    as [_ ->].
  cbn [e0 e1 e2].
  change (eyePos (wall_math f ?x)) with (eyePos x).
  pose proof (before_wall_math_walls f (checkInput (checkInput_query f) s)) as H1.
  pose proof (checkInput_walls (checkInput_query f) s) as H2.
  cbv beta in H1, H2. rewrite H2 in H1. injection H1 as -> -> ->. reflexivity.
Qed.

Lemma tracking_off_origin (Q : verts4) (frames : list Frame) (s : ColorCubeScene) :
  (leftwall s, rightwall s, floor s) = (Q, Q, Q) ->
  eyePos s = Arr2 vec3_zero vec3_zero ->
  tracking_off frames s ->
  eyePos (run frames s) = Arr2 vec3_zero vec3_zero /\
  Forall (fun out => map pass_projection (wall_passes out) = origin_projections Q)
         (run_output frames s).
Proof.
  revert s. induction frames as [| f rest IH]; intros s HQ He H.
  - split; [exact He | constructor].
  - destruct H as [Hoff Hrest].
    destruct (render_update_track_off f s Hoff) as [He' _].
    pose proof (render_update_walls f s) as HQ'. cbv beta in HQ'.
    rewrite HQ in HQ'. rewrite He in He'.
    destruct (IH _ HQ' He' Hrest) as [IHe IHp].
    cbn [run run_output]. split; [exact IHe |].
    constructor; [| exact IHp].
    rewrite render_update_projections, He'. injection HQ as -> -> ->.
    destruct (eye f); reflexivity.
Qed.

(** C10: [render] assigns [eyePos[eye]] exactly when [track] is true, in
    both branches, and to [tracked_eye]; the constructed scene has both eye
    positions at zero; hence over frames in which tracking is off from the
    first one on, the eye positions stay at zero and every wall pass is
    rendered with the matrix computed for an eye at the origin. *)
Theorem untracked_eye_stays_at_origin
        (Quad_vertices : verts4) (hands : arr2 ovrPosef) (frames : list Frame) :
  tracking_off frames (Startup.initial_scene Quad_vertices hands) ->
  (forall (f : Frame) (s : ColorCubeScene),
      eyePos (render_update f s) =
      if track (render_update f s)
      then upd2 (eyePos s) (eye f) (tracked_eye f (viewFromController (render_update f s)))
      else eyePos s) /\
  eyePos (Startup.initial_scene Quad_vertices hands) = Arr2 vec3_zero vec3_zero /\
  eyePos (run frames (Startup.initial_scene Quad_vertices hands)) = Arr2 vec3_zero vec3_zero /\
  Forall (fun out => map pass_projection (wall_passes out) = origin_projections Quad_vertices)
         (run_output frames (Startup.initial_scene Quad_vertices hands)).
Proof.
  intros H.
  split; [exact render_update_eyePos |].
  split; [reflexivity |].
  apply tracking_off_origin; [reflexivity | reflexivity | exact H].
Qed.

Lemma checkInput_track (i : ovrInputState) (s : ColorCubeScene) :
  track (checkInput (Some i) s) =
  if button_set i ovrButton_B && negb (B_down s) then negb (track s) else track s.
Proof. exact (f_equal fst (checkInput_B i s)). Qed.

Lemma checkInput_B_down (i : ovrInputState) (s : ColorCubeScene) :
  B_down (checkInput (Some i) s) = button_set i ovrButton_B.
Proof. exact (f_equal snd (checkInput_B i s)). Qed.

Lemma frames_B_held_off : tracking_off frames_B_held scene0.
Proof.
  cbn [tracking_off frames_B_held]. repeat split.
  - cbn [frame_with checkInput_query]. rewrite checkInput_track. reflexivity.
  - cbn [frame_with checkInput_query].
    rewrite checkInput_track, render_update_track, render_update_B_down.
    cbn [frame_with checkInput_query].
    rewrite checkInput_track, checkInput_B_down. reflexivity.
Qed.

(** C10 with button B held from the first call on. *)
Lemma untracked_eye_stays_at_origin_witness :
  eyePos (run frames_B_held scene0) = Arr2 vec3_zero vec3_zero.
Proof.
  exact (proj1 (proj2 (proj2 (untracked_eye_stays_at_origin _ _ frames_B_held
                                frames_B_held_off)))).
Defined.

(** *** The fault-injection flag *)

Section RespectsBroken.
Variable i : ovrInputState.
Variable f : Frame.

End RespectsBroken.








(** ** The off-axis frustum *)

Module OffAxisFacts.
Import OffAxis.

Lemma dot_cross_l (p q : vec3) : dot (cross p q) p = 0.
Proof. destruct p, q; unfold dot, cross; simpl; ring. Qed.

Lemma dot_cross_r (p q : vec3) : dot (cross p q) q = 0.
Proof. destruct p, q; unfold dot, cross; simpl; ring. Qed.

Lemma dot_smul3_l (k : R) (p q : vec3) : dot (smul3 k p) q = k * dot p q.
Proof. destruct p, q; unfold dot, smul3; simpl; ring. Qed.

Lemma cross_smul3 (j k : R) (p q : vec3) :
  cross (smul3 j p) (smul3 k q) = smul3 (j * k) (cross p q).
Proof. destruct p, q; unfold cross, smul3; simpl; f_equal; ring. Qed.

Lemma dot_add3_r (p q w : vec3) : dot p (add3 q w) = dot p q + dot p w.
Proof. destruct p, q, w; unfold dot, add3; simpl; ring. Qed.

Lemma dot_self_nonneg (p : vec3) : 0 <= dot p p.
Proof. destruct p; unfold dot; simpl; nra. Qed.

Lemma dot_self_zero (p : vec3) : dot p p = 0 -> p = vec3_zero.
Proof.
  destruct p as [a c d]; unfold dot, vec3_zero; simpl; intros H.
  assert (a = 0) by nra. assert (c = 0) by nra. assert (d = 0) by nra.
  subst; reflexivity.
Qed.

(** The clip-space image of [p], component by component. *)
Lemma clip_components (c : verts4) (e p : vec3) :
  clip c e p =
  Vec4 (2 * nearVal / (r c e - l c e) * dot (vr c) (sub3 p e)
        + (r c e + l c e) / (r c e - l c e) * dot (vn c) (sub3 p e))
       (2 * nearVal / (t c e - b c e) * dot (vu c) (sub3 p e)
        + (t c e + b c e) / (t c e - b c e) * dot (vn c) (sub3 p e))
       (- (farVal + nearVal) / (farVal - nearVal) * dot (vn c) (sub3 p e)
        + - (2 * farVal * nearVal) / (farVal - nearVal))
       (- dot (vn c) (sub3 p e)).
Proof.
  unfold clip, quadProjection, M, T.
  generalize (l c e) (r c e) (b c e) (t c e) (vr c) (vu c) (vn c).
  intros l0 r0 b0 t0 [rx ry rz] [ux uy uz] [nx ny nz].
  destruct e as [ex ey ez], p as [px py pz].
  cbv [mul_mm mul_mv frustum transpose vec4_of mat4_id add4 smul4 dot sub3
       col0 col1 col2 col3 x4 y4 z4 w4 x3 y3 z3].
  f_equal; ring.
Qed.

Lemma non_degenerate_edges (c : verts4) :
  non_degenerate c ->
  0 < dot (edge_right c) (edge_right c) /\ 0 < dot (edge_up c) (edge_up c).
Proof.
  unfold non_degenerate; intros H.
  pose proof (dot_self_nonneg (edge_right c)) as Ha.
  pose proof (dot_self_nonneg (edge_up c)) as Hu.
  split.
  - destruct Ha as [Ha | Ha]; [assumption | exfalso; apply H].
    symmetry in Ha. apply dot_self_zero in Ha. rewrite Ha.
    destruct (edge_up c); unfold cross, vec3_zero; simpl; f_equal; ring.
  - destruct Hu as [Hu | Hu]; [assumption | exfalso; apply H].
    symmetry in Hu. apply dot_self_zero in Hu. rewrite Hu.
    destruct (edge_right c); unfold cross, vec3_zero; simpl; f_equal; ring.
Qed.

(** The normal is a multiple of the cross product of the two edges. *)
Lemma vn_multiple (c : verts4) :
  exists k, vn c = smul3 k (cross (edge_right c) (edge_up c)).
Proof.
  unfold vn, vr, vu. fold (edge_right c) (edge_up c).
  unfold normalize at 1 2 3. rewrite cross_smul3.
  set (k1 := inversesqrt (dot (edge_right c) (edge_right c))
             * inversesqrt (dot (edge_up c) (edge_up c))).
  set (k2 := inversesqrt _).
  exists (k1 * k2).
  destruct (cross (edge_right c) (edge_up c)); unfold smul3; simpl; f_equal; ring.
Qed.

Lemma vn_edge_right (c : verts4) : dot (vn c) (edge_right c) = 0.
Proof.
  destruct (vn_multiple c) as [k ->]. rewrite dot_smul3_l, dot_cross_l. ring.
Qed.

Lemma vn_edge_up (c : verts4) : dot (vn c) (edge_up c) = 0.
Proof.
  destruct (vn_multiple c) as [k ->]. rewrite dot_smul3_l, dot_cross_r. ring.
Qed.

Lemma dot_normalize_self (p : vec3) : 0 < dot p p -> dot (normalize p) p = sqrt (dot p p).
Proof.
  intros H. unfold normalize, inversesqrt. rewrite dot_smul3_l.
  assert (Hs : 0 < sqrt (dot p p)) by (apply sqrt_lt_R0; assumption).
  rewrite <- (sqrt_sqrt (dot p p)) at 2 by lra.
  field. lra.
Qed.

Lemma sub3_via_at0 (p q e : vec3) : sub3 p e = add3 (sub3 q e) (sub3 p q).
Proof. destruct p, q, e; unfold sub3, add3; simpl; f_equal; ring. Qed.

Lemma corner2_from_eye (p0 p1 p3 e w : vec3) :
  dot w (sub3 (add3 p1 (sub3 p3 p0)) e)
  = dot w (sub3 p0 e) + dot w (sub3 p1 p0) + dot w (sub3 p3 p0).
Proof. destruct p0, p1, p3, e, w; unfold dot, sub3, add3; simpl; ring. Qed.

Section Rectangle.
Variable c : verts4.
Variable e : vec3.
Hypothesis Hnd : non_degenerate c.
Hypothesis Hrect : rectangle c.
Hypothesis Hdist : 0 < dist c e.

Lemma rect_A_pos : 0 < side_right c.
Proof. unfold side_right. apply sqrt_lt_R0. apply (non_degenerate_edges c Hnd). Qed.
Lemma rect_U_pos : 0 < side_up c.
Proof. unfold side_up. apply sqrt_lt_R0. apply (non_degenerate_edges c Hnd). Qed.

Lemma rect_vr_right : dot (vr c) (edge_right c) = side_right c.
Proof. unfold side_right. apply dot_normalize_self. apply (non_degenerate_edges c Hnd). Qed.
Lemma rect_vu_up : dot (vu c) (edge_up c) = side_up c.
Proof. unfold side_up. apply dot_normalize_self. apply (non_degenerate_edges c Hnd). Qed.
Lemma rect_vr_up : dot (vr c) (edge_up c) = 0.
Proof.
  unfold vr, normalize. fold (edge_right c). rewrite dot_smul3_l.
  destruct Hrect as [-> _]. ring.
Qed.
Lemma rect_vu_right : dot (vu c) (edge_right c) = 0.
Proof.
  unfold vu, normalize. fold (edge_up c). rewrite dot_smul3_l.
  destruct Hrect as [H _].
  replace (dot (edge_up c) (edge_right c)) with (dot (edge_right c) (edge_up c)).
  - rewrite H; ring.
  - destruct (edge_up c), (edge_right c); unfold dot; simpl; ring.
Qed.

(** The four corners seen from the eye, in the basis of the wall. *)
Lemma rect_corner0 (w : vec3) : dot w (sub3 (at0 c) e) = dot w (va c e).
Proof. reflexivity. Qed.
Lemma rect_corner1 (w : vec3) :
  dot w (sub3 (at1 c) e) = dot w (va c e) + dot w (edge_right c).
Proof. rewrite (sub3_via_at0 (at1 c) (at0 c) e), dot_add3_r. reflexivity. Qed.
Lemma rect_corner3 (w : vec3) :
  dot w (sub3 (at3 c) e) = dot w (va c e) + dot w (edge_up c).
Proof. rewrite (sub3_via_at0 (at3 c) (at0 c) e), dot_add3_r. reflexivity. Qed.
Lemma rect_corner2 (w : vec3) :
  dot w (sub3 (at2 c) e) = dot w (va c e) + dot w (edge_right c) + dot w (edge_up c).
Proof.
  destruct Hrect as [_ ->]. apply corner2_from_eye.
Qed.

Lemma rect_offsets :
  l c e = dot (vr c) (va c e) * nearVal / dist c e /\
  r c e = (dot (vr c) (va c e) + side_right c) * nearVal / dist c e /\
  b c e = dot (vu c) (va c e) * nearVal / dist c e /\
  t c e = (dot (vu c) (va c e) + side_up c) * nearVal / dist c e.
Proof.
  unfold l, r, b, t, vb, vc.
  rewrite rect_corner1, rect_corner3, rect_vr_right, rect_vu_up.
  repeat split; reflexivity.
Qed.

Lemma rect_ndc (p : vec3) (X Y : R) :
  dot (vr c) (sub3 p e) = X ->
  dot (vu c) (sub3 p e) = Y ->
  dot (vn c) (sub3 p e) = - dist c e ->
  ndc_x (clip c e p) = (2 * (X - dot (vr c) (va c e)) - side_right c) / side_right c /\
  ndc_y (clip c e p) = (2 * (Y - dot (vu c) (va c e)) - side_up c) / side_up c.
Proof.
  intros HX HY HZ.
  rewrite clip_components. unfold ndc_x, ndc_y; simpl.
  rewrite HX, HY, HZ.
  destruct rect_offsets as (-> & -> & -> & ->).
  pose proof rect_A_pos. pose proof rect_U_pos.
  assert (Hn : nearVal <> 0) by (unfold nearVal; lra).
  assert (Hd : dist c e <> 0) by lra.
  split; field; repeat split; try assumption; try lra;
    unfold nearVal; lra.
Qed.
End Rectangle.

Lemma normalize_known (p : vec3) (n : R) :
  0 < n -> dot p p = n * n -> normalize p = smul3 (/ n) p.
Proof.
  intros Hn H. unfold normalize, inversesqrt. rewrite H, sqrt_square by lra.
  f_equal. field. lra.
Qed.

Lemma unit_quad_vr : vr unit_quad = Vec3 1 0 0.
Proof. unfold vr. rewrite (normalize_known _ 1); [vec_calc | lra | vec_calc]. Qed.
Lemma unit_quad_vu : vu unit_quad = Vec3 0 1 0.
Proof. unfold vu. rewrite (normalize_known _ 1); [vec_calc | lra | vec_calc]. Qed.
Lemma unit_quad_vn : vn unit_quad = Vec3 0 0 1.
Proof.
  unfold vn. rewrite unit_quad_vr, unit_quad_vu.
  rewrite (normalize_known _ 1); [vec_calc | lra | vec_calc].
Qed.

Lemma unit_quad_dist (e : vec3) : dist unit_quad e = z3 e.
Proof. unfold dist, va. rewrite unit_quad_vn. destruct e; vec_calc. Qed.

Lemma unit_quad_non_degenerate : non_degenerate unit_quad.
Proof.
  unfold non_degenerate, edge_right, edge_up, unit_quad, cross, sub3, vec3_zero; simpl.
  intros H. injection H as _ _ H. lra.
Qed.

Lemma unit_quad_rectangle : rectangle unit_quad.
Proof. vec_calc. Qed.

Lemma sheared_quad_vr : vr sheared_quad = Vec3 1 0 0.
Proof. unfold vr. rewrite (normalize_known _ 1); [vec_calc | lra | vec_calc]. Qed.
Lemma sheared_quad_vu : vu sheared_quad = Vec3 (3 / 5) (4 / 5) 0.
Proof. unfold vu. rewrite (normalize_known _ 5); [vec_calc | lra | vec_calc]. Qed.
Lemma sheared_quad_vn : vn sheared_quad = Vec3 0 0 1.
Proof.
  unfold vn. rewrite sheared_quad_vr, sheared_quad_vu.
  rewrite (normalize_known _ (4 / 5)); [vec_calc | lra | vec_calc].
Qed.

(** C1 (as amended): for a rectangular wall and an eye in front of it, the
    stored matrix sends the four corners to the corners of the canonical
    square, (-1,-1), (1,-1), (1,1), (-1,1), with clip w equal to [dist]. *)
Theorem offaxis_frames_rectangle (c : verts4) (e : vec3) :
  non_degenerate c -> rectangle c -> 0 < dist c e ->
  (ndc_x (clip c e (at0 c)) = -1 /\ ndc_y (clip c e (at0 c)) = -1) /\
  (ndc_x (clip c e (at1 c)) = 1 /\ ndc_y (clip c e (at1 c)) = -1) /\
  (ndc_x (clip c e (at2 c)) = 1 /\ ndc_y (clip c e (at2 c)) = 1) /\
  (ndc_x (clip c e (at3 c)) = -1 /\ ndc_y (clip c e (at3 c)) = 1) /\
  (forall p, In p [at0 c; at1 c; at2 c; at3 c] -> w4 (clip c e p) = dist c e).
Proof.
  intros Hnd Hrect Hdist.
  pose proof (rect_A_pos c Hnd) as HA. pose proof (rect_U_pos c Hnd) as HU.
  assert (Z0 : dot (vn c) (sub3 (at0 c) e) = - dist c e)
    by (unfold dist; rewrite rect_corner0; ring).
  assert (Z1 : dot (vn c) (sub3 (at1 c) e) = - dist c e)
    by (unfold dist; rewrite rect_corner1, vn_edge_right; ring).
  assert (Z2 : dot (vn c) (sub3 (at2 c) e) = - dist c e)
    by (unfold dist; rewrite (rect_corner2 c e Hrect), vn_edge_right, vn_edge_up; ring).
  assert (Z3 : dot (vn c) (sub3 (at3 c) e) = - dist c e)
    by (unfold dist; rewrite rect_corner3, vn_edge_up; ring).
  destruct (rect_ndc c e Hnd Hdist (at0 c) _ _
                     (rect_corner0 c e _) (rect_corner0 c e _) Z0) as [X0 Y0].
  destruct (rect_ndc c e Hnd Hdist (at1 c) _ _
                     (rect_corner1 c e _) (rect_corner1 c e _) Z1) as [X1 Y1].
  destruct (rect_ndc c e Hnd Hdist (at2 c) _ _
                     (rect_corner2 c e Hrect _) (rect_corner2 c e Hrect _) Z2) as [X2 Y2].
  destruct (rect_ndc c e Hnd Hdist (at3 c) _ _
                     (rect_corner3 c e _) (rect_corner3 c e _) Z3) as [X3 Y3].
  rewrite X0, Y0, X1, Y1, X2, Y2, X3, Y3.
  rewrite !(rect_vr_right c Hnd), !(rect_vr_up c Hrect),
    !(rect_vu_right c Hrect), !(rect_vu_up c Hnd).
  repeat apply conj; try (field; lra).
  intros p Hp. rewrite clip_components; simpl.
  destruct Hp as [<- | [<- | [<- | [<- | []]]]]; lra.
Qed.

(** C1 at the unit quad seen from (0,0,5). *)
Lemma offaxis_frames_rectangle_witness :
  non_degenerate unit_quad /\ rectangle unit_quad /\ 0 < dist unit_quad (Vec3 0 0 5) /\
  ndc_x (clip unit_quad (Vec3 0 0 5) (at2 unit_quad)) = 1.
Proof.
  split; [exact unit_quad_non_degenerate |].
  split; [exact unit_quad_rectangle |].
  split; [rewrite unit_quad_dist; simpl; lra |].
  apply (offaxis_frames_rectangle unit_quad (Vec3 0 0 5)).
  - exact unit_quad_non_degenerate.
  - exact unit_quad_rectangle.
  - rewrite unit_quad_dist; simpl; lra.
Defined.

Lemma sheared_quad_dist : dist sheared_quad (Vec3 0 0 1) = 1.
Proof. unfold dist, va. rewrite sheared_quad_vn. vec_calc. Qed.

Lemma sheared_quad_ndc_y :
  ndc_y (clip sheared_quad (Vec3 0 0 1) (at1 sheared_quad)) = - (19 / 25).
Proof.
  rewrite clip_components. unfold ndc_y; simpl.
  unfold b, t, va, vc. rewrite sheared_quad_dist, sheared_quad_vu, sheared_quad_vn.
  unfold nearVal, dot, sub3; simpl. field.
Qed.

(** C1 (as stated) fails: a coplanar, non-degenerate quad with the eye in
    front of it whose corner 1 lands at y = -19/25. *)
Lemma offaxis_sheared_quad_not_framed :
  coplanar sheared_quad /\ non_degenerate sheared_quad /\
  0 < dist sheared_quad (Vec3 0 0 1) /\
  ~ fills_image sheared_quad (Vec3 0 0 1).
Proof.
  split; [vec_calc |].
  split.
  { unfold non_degenerate, edge_right, edge_up, sheared_quad, cross, sub3, vec3_zero; simpl.
    intros H. injection H as _ _ H. lra. }
  split; [rewrite sheared_quad_dist; lra |].
  intros (_ & [_ Hy] & _). rewrite sheared_quad_ndc_y in Hy. lra.
Qed.

Lemma unit_quad_offsets (e : vec3) :
  l unit_quad e = (- (1 / 2) - x3 e) * nearVal / z3 e /\
  r unit_quad e = (1 / 2 - x3 e) * nearVal / z3 e /\
  b unit_quad e = (- (1 / 2) - y3 e) * nearVal / z3 e /\
  t unit_quad e = (1 / 2 - y3 e) * nearVal / z3 e.
Proof.
  unfold l, r, b, t. rewrite unit_quad_dist, unit_quad_vr, unit_quad_vu.
  unfold va, vb, vc, dot, sub3; destruct e; simpl.
  repeat split; f_equal; ring.
Qed.

(** C2 (as stated) fails in its second equation: bottom and top differ. *)
Lemma centred_eye_bottom_not_top :
  b unit_quad (Vec3 0 0 5) <> t unit_quad (Vec3 0 0 5).
Proof.
  destruct (unit_quad_offsets (Vec3 0 0 5)) as (_ & _ & -> & ->).
  unfold nearVal; simpl. lra.
Qed.

(** C2 (as amended): with the eye at (0,0,5) the frustum of the unit quad
    is symmetric, left = -right and bottom = -top; with the eye at (2,0,5)
    the magnitudes of left and right differ. *)
Theorem unit_quad_frustum_symmetry :
  l unit_quad (Vec3 0 0 5) = - r unit_quad (Vec3 0 0 5) /\
  b unit_quad (Vec3 0 0 5) = - t unit_quad (Vec3 0 0 5) /\
  l unit_quad (Vec3 2 0 5) = - (5 / 10000) /\
  r unit_quad (Vec3 2 0 5) = - (3 / 10000) /\
  Rabs (l unit_quad (Vec3 2 0 5)) <> Rabs (r unit_quad (Vec3 2 0 5)).
Proof.
  destruct (unit_quad_offsets (Vec3 0 0 5)) as (-> & -> & -> & ->).
  destruct (unit_quad_offsets (Vec3 2 0 5)) as (-> & -> & _).
  unfold nearVal; simpl.
  assert (H1 : (- (1 / 2) - 2) * (1 / 1000) / 5 = - (5 / 10000)) by lra.
  assert (H2 : (1 / 2 - 2) * (1 / 1000) / 5 = - (3 / 10000)) by lra.
  rewrite H1, H2.
  repeat split; try lra.
  rewrite !Rabs_Ropp, !Rabs_pos_eq by lra. lra.
Qed.

Lemma projection_entry00 (l0 r0 b0 t0 : R) (c : verts4) (e : vec3) :
  x4 (col0 (mul_mm (mul_mm (frustum l0 r0 b0 t0 nearVal farVal) (M c)) (T e)))
  = 2 * nearVal / (r0 - l0) * x3 (vr c) + (r0 + l0) / (r0 - l0) * x3 (vn c).
Proof.
  unfold M, T. destruct (vr c), (vu c), (vn c), e.
  cbv [mul_mm mul_mv frustum transpose vec4_of mat4_id add4 smul4
       col0 col1 col2 col3 x4 y4 z4 w4 x3 y3 z3].
  ring.
Qed.

(** The top left entry of the matrix of the unit quad, when its offsets
    are computed with the divisor [d]. *)
Lemma unit_quad_entry00 (e : vec3) (d b0 t0 : R) :
  d <> 0 ->
  x4 (col0 (mul_mm (mul_mm (frustum (dot (vr unit_quad) (va unit_quad e) * nearVal / d)
                                    (dot (vr unit_quad) (vb unit_quad e) * nearVal / d)
                                    b0 t0 nearVal farVal)
                           (M unit_quad))
                   (T e)))
  = 2 * d.
Proof.
  intros Hd. rewrite projection_entry00, unit_quad_vr, unit_quad_vn.
  unfold va, vb, dot, sub3, nearVal; destruct e; simpl. field. split; [exact Hd | lra].
Qed.

(** C5 (as stated) fails: no threshold makes the block a guarded one. *)
Lemma no_dist_guard : ~ exists eps, 0 < eps /\ guards_dist eps.
Proof.
  intros (eps & Heps & G).
  assert (Hdist : dist unit_quad (Vec3 0 0 (eps / 2)) = eps / 2) by apply unit_quad_dist.
  destruct (G unit_quad (Vec3 0 0 (eps / 2))) as [H | [H | H]]; try discriminate H.
  - rewrite Hdist, Rabs_pos_eq; lra.
  - apply (f_equal (fun o => match o with
                             | block_assigned m => x4 (col0 m)
                             | _ => 0
                             end)) in H.
    unfold block_outcome in H. cbv beta iota in H.
    unfold quadProjection, clamped_projection, l, r in H. cbv zeta in H.
    rewrite !unit_quad_entry00 in H.
    + rewrite Hdist, Rmax_right in H; lra.
    + rewrite Hdist, Rmax_right; lra.
    + rewrite Hdist; lra.
Qed.

Lemma unit_quad_left_unbounded (B : R) :
  exists e, 0 < dist unit_quad e /\ B < Rabs (l unit_quad e).
Proof.
  assert (HB : 0 < Rabs B + 1) by (pose proof (Rabs_pos B); lra).
  exists (Vec3 0 0 (/ (2000 * (Rabs B + 1)))).
  assert (Hd : 0 < / (2000 * (Rabs B + 1))) by (apply Rinv_0_lt_compat; lra).
  split; [rewrite unit_quad_dist; exact Hd |].
  destruct (unit_quad_offsets (Vec3 0 0 (/ (2000 * (Rabs B + 1))))) as (-> & _).
  unfold nearVal; simpl.
  replace ((- (1 / 2) - 0) * (1 / 1000) / / (2000 * (Rabs B + 1)))
    with (- (Rabs B + 1)) by (field; lra).
  rewrite Rabs_Ropp, Rabs_pos_eq by lra.
  pose proof (Rle_abs B). lra.
Qed.

(** C5 (as amended): the block is not guarded.  It always assigns the
    product computed with the offsets obtained by dividing by the raw
    [dist]; whenever [dist] is not zero, however small, each offset times
    [dist] is the corresponding dot product times 0.001; and the left
    offset of the unit quad exceeds any bound as the eye approaches it. *)
Theorem dist_division_unguarded (c : verts4) (e : vec3) :
  dist c e <> 0 ->
  block_outcome c e = block_assigned (quadProjection c e) /\
  l c e * dist c e = dot (vr c) (va c e) * nearVal /\
  r c e * dist c e = dot (vr c) (vb c e) * nearVal /\
  b c e * dist c e = dot (vu c) (va c e) * nearVal /\
  t c e * dist c e = dot (vu c) (vc c e) * nearVal /\
  (forall (f : Frame) (s : ColorCubeScene),
      let s' := render_update f s in
      quadProjections s' =
      Arr3 (quadProjection (leftWallVerts s') (sub2 (eyePos s') (eye f)))
           (quadProjection (rightWallVerts s') (sub2 (eyePos s') (eye f)))
           (quadProjection (floorVerts s') (sub2 (eyePos s') (eye f)))) /\
  (forall B, exists e', 0 < dist unit_quad e' /\ B < Rabs (l unit_quad e')).
Proof.
  intros Hd.
  split; [reflexivity |].
  split; [unfold l; field; exact Hd |].
  split; [unfold r; field; exact Hd |].
  split; [unfold b; field; exact Hd |].
  split; [unfold t; field; exact Hd |].
  split; [intros f s; exact (render_update_quadProjections f s) |].
  exact unit_quad_left_unbounded.
Qed.

(** C5 at the unit quad seen from a millionth of a unit in front of it. *)
Lemma dist_division_unguarded_witness :
  dist unit_quad (Vec3 0 0 (1 / 1000000)) <> 0 /\
  l unit_quad (Vec3 0 0 (1 / 1000000)) * dist unit_quad (Vec3 0 0 (1 / 1000000))
  = dot (vr unit_quad) (va unit_quad (Vec3 0 0 (1 / 1000000))) * nearVal.
Proof.
  split; [rewrite unit_quad_dist; simpl; lra |].
  apply (dist_division_unguarded unit_quad (Vec3 0 0 (1 / 1000000))).
  rewrite unit_quad_dist; simpl; lra.
Defined.

End OffAxisFacts.

(** ** More on the off-axis frustum *)

Module WallGeometryFacts.
Import OffAxis OffAxisFacts WallGeometry.

Lemma dot_sub3_r (p q w : vec3) : dot p (sub3 q w) = dot p q - dot p w.
Proof. destruct p, q, w; unfold dot, sub3; simpl; ring. Qed.

Lemma dot_smul3_r (k : R) (p q : vec3) : dot p (smul3 k q) = k * dot p q.
Proof. destruct p, q; unfold dot, smul3; simpl; ring. Qed.

Lemma dot_comm (p q : vec3) : dot p q = dot q p.
Proof. destruct p, q; unfold dot; simpl; ring. Qed.

Lemma normalize_unit (p : vec3) : 0 < dot p p -> dot (normalize p) (normalize p) = 1.
Proof.
  intros H. unfold normalize at 2. rewrite dot_smul3_r, dot_normalize_self by assumption.
  unfold inversesqrt. field.
  apply Rgt_not_eq, sqrt_lt_R0; assumption.
Qed.

Lemma vr_unit (c : verts4) : non_degenerate c -> dot (vr c) (vr c) = 1.
Proof. intros H. apply normalize_unit, (non_degenerate_edges c H). Qed.

Lemma vu_unit (c : verts4) : non_degenerate c -> dot (vu c) (vu c) = 1.
Proof. intros H. apply normalize_unit, (non_degenerate_edges c H). Qed.

Lemma vr_vu_perpendicular (c : verts4) : rectangle c -> dot (vr c) (vu c) = 0.
Proof.
  intros H. unfold vu, normalize. fold (edge_up c).
  rewrite dot_smul3_r, (rect_vr_up c H). ring.
Qed.

Lemma vn_vr (c : verts4) : dot (vn c) (vr c) = 0.
Proof.
  unfold vr, normalize. fold (edge_right c).
  rewrite dot_smul3_r, vn_edge_right. ring.
Qed.

Lemma vn_vu (c : verts4) : dot (vn c) (vu c) = 0.
Proof.
  unfold vu, normalize. fold (edge_up c).
  rewrite dot_smul3_r, vn_edge_up. ring.
Qed.

Lemma wall_point_from_eye (c : verts4) (e w : vec3) (u v : R) :
  dot w (sub3 (wall_point c u v) e)
  = dot w (va c e) + u * dot w (edge_right c) + v * dot w (edge_up c).
Proof.
  unfold wall_point, va.
  destruct (at0 c), (edge_right c), (edge_up c), e, w.
  unfold dot, sub3, add3, smul3; simpl; ring.
Qed.

(** X1: the frustum of a wall is as wide and as high at the near plane
    as the wall itself, scaled by near / dist: r - l = width * 0.001 / dist
    and t - b = height * 0.001 / dist, for every eye position off the
    wall plane.  The frustum has the aspect ratio of the wall. *)
Theorem frustum_extent (c : verts4) (e : vec3) :
  non_degenerate c -> dist c e <> 0 ->
  r c e - l c e = side_right c * nearVal / dist c e /\
  t c e - b c e = side_up c * nearVal / dist c e /\
  (r c e - l c e) * side_up c = (t c e - b c e) * side_right c.
Proof.
  intros Hnd Hd.
  destruct (rect_offsets c e Hnd) as (Hl & Hr & Hb & Ht).
  rewrite Hl, Hr, Hb, Ht.
  repeat split; field; assumption.
Qed.

(** X1 at the unit quad seen from (0,0,5). *)
Lemma frustum_extent_witness :
  r unit_quad (Vec3 0 0 5) - l unit_quad (Vec3 0 0 5)
  = side_right unit_quad * nearVal / dist unit_quad (Vec3 0 0 5).
Proof.
  refine (proj1 (frustum_extent unit_quad (Vec3 0 0 5) unit_quad_non_degenerate _)).
  rewrite unit_quad_dist; simpl; lra.
Defined.

(** X2: for a rectangular wall and an eye in front of it, the stored
    matrix is affine on the wall: the point at fractions (u, v) along the
    two edges lands at (2u - 1, 2v - 1) after the perspective divide, with
    clip w equal to [dist].  So the image shows the points of the wall
    plane with 0 <= u, v <= 1 and no others. *)
Theorem wall_point_affine (c : verts4) (e : vec3) (u v : R) :
  non_degenerate c -> rectangle c -> 0 < dist c e ->
  w4 (clip c e (wall_point c u v)) = dist c e /\
  ndc_x (clip c e (wall_point c u v)) = 2 * u - 1 /\
  ndc_y (clip c e (wall_point c u v)) = 2 * v - 1 /\
  ((-1 <= ndc_x (clip c e (wall_point c u v)) <= 1 /\
    -1 <= ndc_y (clip c e (wall_point c u v)) <= 1)
   <-> (0 <= u <= 1 /\ 0 <= v <= 1)).
Proof.
  intros Hnd Hrect Hdist.
  pose proof (rect_A_pos c Hnd) as HA. pose proof (rect_U_pos c Hnd) as HU.
  assert (Z : dot (vn c) (sub3 (wall_point c u v) e) = - dist c e).
  { rewrite wall_point_from_eye, vn_edge_right, vn_edge_up. unfold dist. ring. }
  destruct (rect_ndc c e Hnd Hdist (wall_point c u v) _ _
              (wall_point_from_eye c e _ u v) (wall_point_from_eye c e _ u v) Z)
    as [HX HY].
  rewrite (rect_vr_right c Hnd), (rect_vr_up c Hrect) in HX.
  rewrite (rect_vu_right c Hrect), (rect_vu_up c Hnd) in HY.
  assert (HX' : ndc_x (clip c e (wall_point c u v)) = 2 * u - 1)
    by (rewrite HX; field; lra).
  assert (HY' : ndc_y (clip c e (wall_point c u v)) = 2 * v - 1)
    by (rewrite HY; field; lra).
  split; [rewrite clip_components; simpl; lra |].
  split; [exact HX' |]. split; [exact HY' |].
  rewrite HX', HY'. split; intros; lra.
Qed.

(** X2 at the unit quad: the point a quarter along and half way up. *)
Lemma wall_point_affine_witness :
  ndc_x (clip unit_quad (Vec3 0 0 5) (wall_point unit_quad (1 / 4) (1 / 2))) = 2 * (1 / 4) - 1.
Proof.
  refine (proj1 (proj2 (wall_point_affine unit_quad (Vec3 0 0 5) (1 / 4) (1 / 2)
                          unit_quad_non_degenerate unit_quad_rectangle _))).
  rewrite unit_quad_dist; simpl; lra.
Defined.

(** X3: the frustum is symmetric from left to right exactly when the
    eye is over the vertical centre line of the wall, and symmetric from
    bottom to top exactly when it is over the horizontal one. *)
Theorem frustum_symmetric_iff_centred (c : verts4) (e : vec3) :
  non_degenerate c -> dist c e <> 0 ->
  (l c e + r c e = 0 <-> dot (vr c) (sub3 e (at0 c)) = side_right c / 2) /\
  (b c e + t c e = 0 <-> dot (vu c) (sub3 e (at0 c)) = side_up c / 2).
Proof.
  intros Hnd Hd.
  destruct (rect_offsets c e Hnd) as (Hl & Hr & Hb & Ht).
  rewrite Hl, Hr, Hb, Ht.
  assert (Hn : nearVal / dist c e <> 0).
  { unfold Rdiv. apply Rmult_integral_contrapositive_currified.
    - unfold nearVal; lra.
    - apply Rinv_neq_0_compat; assumption. }
  assert (Hr' : forall w, dot w (sub3 e (at0 c)) = - dot w (va c e)).
  { intros w. unfold va. destruct w, e, (at0 c); unfold dot, sub3; simpl; ring. }
  rewrite !Hr'.
  split.
  - replace (dot (vr c) (va c e) * nearVal / dist c e
             + (dot (vr c) (va c e) + side_right c) * nearVal / dist c e)
      with ((2 * dot (vr c) (va c e) + side_right c) * (nearVal / dist c e))
      by (field; assumption).
    split; intros H.
    + apply Rmult_integral in H. destruct H as [H | H]; [lra | contradiction].
    + replace (2 * dot (vr c) (va c e) + side_right c) with 0 by lra. ring.
  - replace (dot (vu c) (va c e) * nearVal / dist c e
             + (dot (vu c) (va c e) + side_up c) * nearVal / dist c e)
      with ((2 * dot (vu c) (va c e) + side_up c) * (nearVal / dist c e))
      by (field; assumption).
    split; intros H.
    + apply Rmult_integral in H. destruct H as [H | H]; [lra | contradiction].
    + replace (2 * dot (vu c) (va c e) + side_up c) with 0 by lra. ring.
Qed.

(** X3 at the unit quad seen from (0,0,5). *)
Lemma frustum_symmetric_iff_centred_witness :
  l unit_quad (Vec3 0 0 5) + r unit_quad (Vec3 0 0 5) = 0
  <-> dot (vr unit_quad) (sub3 (Vec3 0 0 5) (at0 unit_quad)) = side_right unit_quad / 2.
Proof.
  refine (proj1 (frustum_symmetric_iff_centred unit_quad (Vec3 0 0 5)
                   unit_quad_non_degenerate _)).
  rewrite unit_quad_dist; simpl; lra.
Defined.

(** X4: clip w of the stored matrix is the distance of the point from
    the eye measured against the wall normal, and the point passes the
    depth clip exactly when that distance lies between 0.001 and 1000. *)
Theorem depth_clip_range (c : verts4) (e p : vec3) :
  0 < depth c e p ->
  w4 (clip c e p) = depth c e p /\
  (-1 <= ndc_z (clip c e p) <= 1 <-> nearVal <= depth c e p <= farVal).
Proof.
  intros Hd. rewrite clip_components. unfold ndc_z; simpl.
  fold (depth c e p).
  replace (dot (vn c) (sub3 p e)) with (- depth c e p) by (unfold depth; ring).
  set (d := depth c e p) in *.
  split; [reflexivity |].
  unfold nearVal, farVal.
  replace ((- (1000 + 1 / 1000) / (1000 - 1 / 1000) * - d
            + - (2 * 1000 * (1 / 1000)) / (1000 - 1 / 1000)) / d)
    with ((1000001 * d - 2000) / (999999 * d)) by (field; lra).
  assert (H9 : 0 < 999999 * d) by lra.
  split.
  - intros [H1 H2].
    apply (Rmult_le_compat_r (999999 * d)) in H1; [| lra].
    apply (Rmult_le_compat_r (999999 * d)) in H2; [| lra].
    replace ((1000001 * d - 2000) / (999999 * d) * (999999 * d))
      with (1000001 * d - 2000) in H1, H2 by (field; lra).
    lra.
  - intros [H1 H2]. split.
    + apply (Rmult_le_reg_r (999999 * d)); [lra |].
      replace ((1000001 * d - 2000) / (999999 * d) * (999999 * d))
        with (1000001 * d - 2000) by (field; lra).
      lra.
    + apply (Rmult_le_reg_r (999999 * d)); [lra |].
      replace ((1000001 * d - 2000) / (999999 * d) * (999999 * d))
        with (1000001 * d - 2000) by (field; lra).
      lra.
Qed.

(** X5: moving the eye parallel to a rectangular wall leaves [dist] and
    the extent of the frustum as they are and shifts the window the other
    way: by dx along the wall's right axis, l and r drop by
    dx * 0.001 / dist; by dy along its up axis, b and t drop by
    dy * 0.001 / dist. *)
Theorem eye_shift_along_wall (c : verts4) (e : vec3) (dx dy : R) :
  non_degenerate c -> rectangle c -> dist c e <> 0 ->
  dist c (eye_moved c e dx dy) = dist c e /\
  l c (eye_moved c e dx dy) = l c e - dx * nearVal / dist c e /\
  r c (eye_moved c e dx dy) = r c e - dx * nearVal / dist c e /\
  b c (eye_moved c e dx dy) = b c e - dy * nearVal / dist c e /\
  t c (eye_moved c e dx dy) = t c e - dy * nearVal / dist c e.
Proof.
  intros Hnd Hrect Hd.
  assert (Hmove : forall w q,
             dot w (sub3 q (eye_moved c e dx dy))
             = dot w (sub3 q e) - dx * dot w (vr c) - dy * dot w (vu c)).
  { intros w q. unfold eye_moved.
    destruct w, q, e, (vr c), (vu c); unfold dot, sub3, add3, smul3; simpl; ring. }
  assert (Hdist : dist c (eye_moved c e dx dy) = dist c e).
  { unfold dist, va. rewrite Hmove, vn_vr, vn_vu. ring. }
  split; [exact Hdist |].
  unfold l, r, b, t. rewrite Hdist. unfold va, vb, vc. rewrite !Hmove.
  rewrite (vr_unit c Hnd), (vu_unit c Hnd), (vr_vu_perpendicular c Hrect).
  rewrite (dot_comm (vu c) (vr c)), (vr_vu_perpendicular c Hrect).
  repeat split; field; assumption.
Qed.

Lemma unit_quad_origin_depth : 0 < depth unit_quad (Vec3 0 0 5) (Vec3 0 0 0).
Proof. unfold depth. rewrite unit_quad_vn. unfold dot, sub3; simpl. lra. Qed.

(** X4 at the centre of the unit quad seen from (0,0,5). *)
Lemma depth_clip_range_witness :
  w4 (clip unit_quad (Vec3 0 0 5) (Vec3 0 0 0)) = depth unit_quad (Vec3 0 0 5) (Vec3 0 0 0).
Proof.
  exact (proj1 (depth_clip_range unit_quad (Vec3 0 0 5) (Vec3 0 0 0)
                  unit_quad_origin_depth)).
Defined.

Lemma unit_quad_dist_nonzero : dist unit_quad (Vec3 0 0 5) <> 0.
Proof. rewrite unit_quad_dist; simpl; lra. Qed.

(** X5 at the unit quad: the eye moves from (0,0,5) by 1 to the right. *)
Lemma eye_shift_along_wall_witness :
  dist unit_quad (eye_moved unit_quad (Vec3 0 0 5) 1 0) = dist unit_quad (Vec3 0 0 5).
Proof.
  exact (proj1 (eye_shift_along_wall unit_quad (Vec3 0 0 5) 1 0
                  unit_quad_non_degenerate unit_quad_rectangle unit_quad_dist_nonzero)).
Defined.
End WallGeometryFacts.

(** ** More on the controller and the frame loop of the scene *)

Lemma Rneb_false (a c : R) : Rneb a c = false -> a = c.
Proof. unfold Rneb. destruct (Req_dec_T a c); [trivial | discriminate]. Qed.

Lemma translate_zero (m : mat4) : translate m vec3_zero = m.
Proof.
  destruct m as [[a0 a1 a2 a3] [b0 b1 b2 b3] [c0 c1 c2 c3] [d0 d1 d2 d3]].
  unfold translate, vec3_zero, add4, smul4; simpl. f_equal. f_equal; ring.
Qed.

Lemma translate_add (m : mat4) (a b : vec3) :
  translate (translate m a) b = translate m (add3 a b).
Proof.
  destruct m as [[a0 a1 a2 a3] [b0 b1 b2 b3] [c0 c1 c2 c3] [d0 d1 d2 d3]].
  destruct a, b.
  unfold translate, add3, add4, smul4; simpl. f_equal. f_equal; ring.
Qed.

Section BoxTransformSteps.
Variable i : ovrInputState.

Lemma change_box_size_boxtransform : keeps boxtransform (change_box_size i).
Proof. keeps_step. Qed.
Lemma reset_box_size_boxtransform : keeps boxtransform (reset_box_size i).
Proof. keeps_step. Qed.
Lemma button_steps_boxtransform :
  keeps boxtransform
    (fun s => release_X i (press_X i (release_A i (press_A i (release_B i (press_B i s)))))).
Proof. keeps_step. Qed.

Lemma translate_box_boxtransform (s : ColorCubeScene) :
  boxtransform (translate_box i s) = translate (boxtransform s) (stick_translation (Some i)).
Proof.
  unfold translate_box, stick_translation; cbv zeta.
  destruct (Rneb (x2 (sub2 (Thumbstick i) ovrHand_Right)) 0) eqn:Hx; [reflexivity |].
  destruct (Rneb (y2 (sub2 (Thumbstick i) ovrHand_Right)) 0) eqn:Hy; [reflexivity |].
  destruct (Rneb (y2 (sub2 (Thumbstick i) ovrHand_Left)) 0) eqn:Hz; [reflexivity |].
  apply Rneb_false in Hx, Hy, Hz. rewrite Hx, Hy, Hz. simpl.
  rewrite <- (translate_zero (boxtransform s)) at 1.
  f_equal. unfold vec3_zero. f_equal; ring.
Qed.
End BoxTransformSteps.

Lemma checkInput_boxtransform (q : option ovrInputState) (s : ColorCubeScene) :
  boxtransform (checkInput q s) = translate (boxtransform s) (stick_translation q).
Proof.
  destruct q as [i |]; simpl.
  - rewrite (button_steps_boxtransform i (translate_box i _)).
    rewrite translate_box_boxtransform.
    rewrite reset_box_size_boxtransform, change_box_size_boxtransform. reflexivity.
  - symmetry. apply translate_zero.
Qed.

Lemma render_update_boxtransform (f : Frame) (s : ColorCubeScene) :
  boxtransform (render_update f s)
  = translate (boxtransform s) (stick_translation (checkInput_query f)).
Proof.
  rewrite <- checkInput_boxtransform.
  exact (f_equal (fun c => fst (fst (fst c))) (render_update_controls f s)).
Qed.

Lemma run_boxtransform (frames : list Frame) (s : ColorCubeScene) :
  boxtransform (run frames s) = translate (boxtransform s) (total_translation frames).
Proof.
  revert s. induction frames as [| f rest IH]; intros s.
  - simpl. symmetry. apply translate_zero.
  - change (run (f :: rest) s) with (run rest (render_update f s)).
    rewrite IH, render_update_boxtransform, translate_add. reflexivity.
Qed.

(** X6: the box is moved by the sum of the stick samples and never
    turned: after any calls of [render] its matrix is the one before,
    translated by the total of the vectors (x_R, y_R, -y_L) * 0.01 of the
    successful samples, whatever their order; from the constructed scene
    it is the translation by (0,0,-1) plus that total. *)
Theorem box_translation_accumulates
        (Quad_vertices : verts4) (hands : arr2 ovrPosef)
        (frames more : list Frame) (s : ColorCubeScene) :
  boxtransform (run frames s) = translate (boxtransform s) (total_translation frames) /\
  linear_part (boxtransform (run frames s)) = linear_part (boxtransform s) /\
  boxtransform (run (frames ++ more) s)
  = translate (boxtransform s) (add3 (total_translation frames) (total_translation more)) /\
  boxtransform (run frames (Startup.initial_scene Quad_vertices hands))
  = translate mat4_id (add3 (Vec3 0 0 (-1)) (total_translation frames)).
Proof.
  split; [apply run_boxtransform |].
  split; [rewrite run_boxtransform; reflexivity |].
  split.
  - assert (Happ : forall fs gs t, run (fs ++ gs) t = run gs (run fs t)).
    { induction fs as [| f fs IH]; intros gs t; [reflexivity | apply IH]. }
    rewrite Happ, !run_boxtransform, translate_add. reflexivity.
  - rewrite run_boxtransform.
    change (boxtransform (Startup.initial_scene Quad_vertices hands))
      with (translate mat4_id (Vec3 0 0 (-1))).
    apply translate_add.
Qed.


Lemma edge_idempotent (p : bool) (fl : bool * bool) : edge p (edge p fl) = edge p fl.
Proof. destruct p, fl as [[|] [|]]; reflexivity. Qed.

Lemma scale_input_twice (i : ovrInputState) (scale : R) :
  button_set i ovrButton_LThumb = false ->
  1 / 100 < scale + x2 (sub2 (Thumbstick i) ovrHand_Left) * (1 / 100) ->
  scale + 2 * (x2 (sub2 (Thumbstick i) ovrHand_Left) * (1 / 100)) < 1 ->
  0 < x2 (sub2 (Thumbstick i) ovrHand_Left) ->
  scale_input i (scale_input i scale)
  = scale + 2 * (x2 (sub2 (Thumbstick i) ovrHand_Left) * (1 / 100)).
Proof.
  intros Hb Hlo Hhi Hx. unfold scale_input. rewrite Hb. cbv zeta.
  set (x := x2 (sub2 (Thumbstick i) ovrHand_Left)) in *.
  assert (Hn : Rneb x 0 = true).
  { unfold Rneb. destruct (Req_dec_T x 0); [lra | reflexivity]. }
  rewrite Hn. cbn [andb].
  assert (H1 : Rgtb (scale + x * (1 / 100)) (1 / 100) = true).
  { unfold Rgtb. destruct (Rgt_dec _ _); [reflexivity | lra]. }
  assert (H2 : Rltb (scale + x * (1 / 100)) 1 = true).
  { unfold Rltb. destruct (Rlt_dec _ _); [reflexivity | lra]. }
  rewrite H1, H2. cbn [andb].
  assert (H3 : Rgtb (scale + x * (1 / 100) + x * (1 / 100)) (1 / 100) = true).
  { unfold Rgtb. destruct (Rgt_dec _ _); [reflexivity | lra]. }
  assert (H4 : Rltb (scale + x * (1 / 100) + x * (1 / 100)) 1 = true).
  { unfold Rltb. destruct (Rlt_dec _ _); [reflexivity | lra]. }
  rewrite H3, H4. cbn [andb]. ring.
Qed.

(** X7: [render] runs [checkInput] once per eye.  When both calls of a
    frame see the same sample, the buttons act once (the second call
    changes no flag and no latch) and the sticks act twice: the box moves
    by twice the sample's vector, and the scale grows by twice x * 0.01
    when both steps stay inside the bounds. *)
Theorem sample_seen_twice (i : ovrInputState) (f1 f2 : Frame) (s : ColorCubeScene) :
  checkInput_query f1 = Some i -> checkInput_query f2 = Some i ->
  (forall btn,
      flag btn (run [f1; f2] s) = flag btn (run [f1] s) /\
      latch btn (run [f1; f2] s) = latch btn (run [f1] s)) /\
  boxtransform (run [f1; f2] s)
  = translate (boxtransform s)
              (add3 (stick_translation (Some i)) (stick_translation (Some i))) /\
  (button_set i ovrButton_LThumb = false ->
   0 < x2 (sub2 (Thumbstick i) ovrHand_Left) ->
   1 / 100 < boxScale s + x2 (sub2 (Thumbstick i) ovrHand_Left) * (1 / 100) ->
   boxScale s + 2 * (x2 (sub2 (Thumbstick i) ovrHand_Left) * (1 / 100)) < 1 ->
   boxScale (run [f1; f2] s)
   = boxScale s + 2 * (x2 (sub2 (Thumbstick i) ovrHand_Left) * (1 / 100))).
Proof.
  intros H1 H2.
  change (run [f1; f2] s) with (render_update f2 (render_update f1 s)).
  change (run [f1] s) with (render_update f1 s).
  split; [| split].
  - intros btn.
    pose proof (render_edge btn f2 (render_update f1 s)) as E2.
    pose proof (render_edge btn f1 s) as E1.
    rewrite H2 in E2. rewrite H1 in E1. rewrite E1 in E2.
    rewrite edge_idempotent, <- E1 in E2.
    split.
    + exact (f_equal fst E2).
    + exact (f_equal snd E2).
  - rewrite !render_update_boxtransform, H1, H2. apply translate_add.
  - intros Hb Hx Hlo Hhi.
    rewrite !render_boxScale, H1, H2. apply scale_input_twice; assumption.
Qed.

(** X7 with the left stick pushed fully to the right in both calls. *)
Lemma sample_seen_twice_witness :
  boxtransform (run [frame_with ovrEye_Left (Some (stick_input 1));
                     frame_with ovrEye_Right (Some (stick_input 1))] scene0)
  = translate (boxtransform scene0)
              (add3 (stick_translation (Some (stick_input 1)))
                    (stick_translation (Some (stick_input 1)))).
Proof.
  exact (proj1 (proj2 (sample_seen_twice (stick_input 1)
                         (frame_with ovrEye_Left (Some (stick_input 1)))
                         (frame_with ovrEye_Right (Some (stick_input 1)))
                         scene0 eq_refl eq_refl))).
Defined.

(** X8: a flag changes once for every transition of its button from
    released to pressed among the successful samples, and at no other
    time: the number of toggles is the number of rising edges, the flag
    ends up flipped exactly when that number is odd, and the latch holds
    the last sample. *)
Theorem toggles_count_rising_edges
        (btn : EdgeButton) (frames : list Frame) (s : ColorCubeScene) :
  toggles btn frames s = rising_edges (latch btn s) (button_samples btn frames) /\
  flag btn (run frames s)
  = xorb (flag btn s) (Nat.odd (rising_edges (latch btn s) (button_samples btn frames))) /\
  latch btn (run frames s) = last (button_samples btn frames) (latch btn s).
Proof.
  revert s. induction frames as [| f rest IH]; intros s.
  - simpl. rewrite xorb_false_r. repeat split.
  - change (run (f :: rest) s) with (run rest (render_update f s)).
    cbn [toggles].
    destruct (IH (render_update f s)) as (IHt & IHf & IHl).
    rewrite IHt, IHf, IHl.
    pose proof (render_edge btn f s) as E.
    unfold button_samples; cbn [flat_map]; fold (button_samples btn rest).
    destruct (checkInput_query f) as [i |].
    + assert (Ef : flag btn (render_update f s)
                   = if button_set i (button_mask btn) && negb (latch btn s)
                     then negb (flag btn s) else flag btn s)
        by exact (f_equal fst E).
      assert (El : latch btn (render_update f s) = button_set i (button_mask btn))
        by exact (f_equal snd E).
      rewrite Ef, El. cbn [app rising_edges].
      set (p := button_set i (button_mask btn)).
      set (n := rising_edges p (button_samples btn rest)).
      assert (Hlast : forall (l : list bool) (x d : bool), last (x :: l) d = last l x).
      { induction l as [| y l IHl']; intros x d; [reflexivity |].
        change (last (x :: y :: l) d) with (last (y :: l) d).
        rewrite !IHl'. reflexivity. }
      rewrite Hlast.
      destruct (p && negb (latch btn s)).
      * repeat split.
        -- destruct (flag btn s); reflexivity.
        -- change (1 + n)%nat with (S n). rewrite Nat.odd_succ, <- Nat.negb_odd.
           destruct (flag btn s), (Nat.odd n); reflexivity.
      * repeat split.
        rewrite eqb_reflx. reflexivity.
    + assert (Ef : flag btn (render_update f s) = flag btn s) by exact (f_equal fst E).
      assert (El : latch btn (render_update f s) = latch btn s) by exact (f_equal snd E).
      rewrite Ef, El, eqb_reflx. cbn [app]. repeat split.
Qed.


Lemma follow_head_position_flags (f : Frame) :
  keeps (fun s => (viewFromController s, track s, triggerPressed s))
        (follow_head_position f).
Proof. intros s; destruct s; unfold_steps; simpl; break_conditions; reflexivity. Qed.

Lemma update_eyePos_flags (f : Frame) :
  keeps (fun s => (viewFromController s, track s, triggerPressed s, posOnly s))
        (update_eyePos f).
Proof. intros s; destruct s; unfold_steps; simpl; break_conditions; reflexivity. Qed.

Lemma follow_head_position_posOnly (f : Frame) (s : ColorCubeScene) :
  posOnly (follow_head_position f s) =
  if negb (viewFromController s) && track s
  then Mat4 (col0 (posOnly s)) (col1 (posOnly s)) (col2 (posOnly s)) (col3 (modelview f))
  else posOnly s.
Proof.
  unfold follow_head_position.
  destruct (viewFromController s), (track s); reflexivity.
Qed.

Lemma before_wall_math_flags (f : Frame) (s : ColorCubeScene) :
  (viewFromController (before_wall_math f s), track (before_wall_math f s),
   triggerPressed (before_wall_math f s))
  = (sub2 (triggerPressed (read_trigger f s)) RIGHT, track s,
     triggerPressed (read_trigger f s)).
Proof.
  unfold before_wall_math.
  etransitivity; [exact (f_equal fst (update_eyePos_flags f _)) | cbn [fst]].
  etransitivity; [exact (follow_head_position_flags f _) |].
  unfold pick_view_source, read_trigger, read_hand_pose.
  destruct (trigger_query f); reflexivity.
Qed.

Lemma before_wall_math_posOnly (f : Frame) (s : ColorCubeScene) :
  posOnly (before_wall_math f s) =
  if negb (viewFromController (before_wall_math f s)) && track (before_wall_math f s)
  then Mat4 (col0 (posOnly s)) (col1 (posOnly s)) (col2 (posOnly s)) (col3 (modelview f))
  else posOnly s.
Proof.
  pose proof (before_wall_math_flags f s) as Hf.
  assert (Hv : viewFromController (before_wall_math f s)
               = sub2 (triggerPressed (read_trigger f s)) RIGHT)
    by exact (f_equal (fun c => fst (fst c)) Hf).
  assert (Ht : track (before_wall_math f s) = track s)
    by exact (f_equal (fun c => snd (fst c)) Hf).
  rewrite Hv, Ht.
  unfold before_wall_math.
  etransitivity; [exact (f_equal snd (update_eyePos_flags f _)) | cbn [snd]].
  rewrite follow_head_position_posOnly.
  unfold pick_view_source, read_trigger, read_hand_pose.
  destruct (trigger_query f); reflexivity.
Qed.

Lemma wall_math_view (f : Frame) (s : ColorCubeScene) :
  (posOnly (wall_math f s), viewFromController (wall_math f s), track (wall_math f s),
   triggerPressed (wall_math f s))
  = (posOnly s, viewFromController s, track s, triggerPressed s).
Proof. reflexivity. Qed.

Lemma render_update_posOnly (f : Frame) (s : ColorCubeScene) :
  posOnly (render_update f s) =
  if negb (viewFromController (render_update f s)) && track (render_update f s)
  then Mat4 (col0 (posOnly s)) (col1 (posOnly s)) (col2 (posOnly s)) (col3 (modelview f))
  else posOnly s.
Proof.
  rewrite render_update_phases.
  change (posOnly (wall_math f ?x)) with (posOnly x).
  change (viewFromController (wall_math f ?x)) with (viewFromController x).
  change (track (wall_math f ?x)) with (track x).
  rewrite before_wall_math_posOnly, !checkInput_posOnly. reflexivity.
Qed.

Lemma render_update_linear_part (f : Frame) (s : ColorCubeScene) :
  linear_part (posOnly (render_update f s)) = linear_part (posOnly s).
Proof.
  rewrite render_update_posOnly.
  destruct (negb _ && _); reflexivity.
Qed.




Lemma before_wall_math_viewFromController (f : Frame) (s : ColorCubeScene) :
  viewFromController (before_wall_math f s)
  = sub2 (triggerPressed (before_wall_math f s)) RIGHT.
Proof.
  pose proof (before_wall_math_flags f s) as Hf.
  assert (Hv : viewFromController (before_wall_math f s)
               = sub2 (triggerPressed (read_trigger f s)) RIGHT)
    by exact (f_equal (fun c => fst (fst c)) Hf).
  assert (Ht : triggerPressed (before_wall_math f s) = triggerPressed (read_trigger f s))
    by exact (f_equal snd Hf).
  rewrite Hv, Ht. reflexivity.
Qed.

Lemma render_update_viewFromController (f : Frame) (s : ColorCubeScene) :
  viewFromController (render_update f s) = sub2 (triggerPressed (render_update f s)) RIGHT.
Proof.
  rewrite render_update_phases.
  change (viewFromController (wall_math f ?x)) with (viewFromController x).
  change (triggerPressed (wall_math f ?x)) with (triggerPressed x).
  apply before_wall_math_viewFromController.
Qed.

Lemma last_cons {A : Type} (l : list A) (x d : A) : last (x :: l) d = last l x.
Proof.
  revert x d. induction l as [| y l IH]; intros x d; [reflexivity |].
  change (last (x :: y :: l) d) with (last (y :: l) d).
  rewrite !IH. reflexivity.
Qed.

Lemma run_triggerPressed (frames : list Frame) (s : ColorCubeScene) :
  sub2 (triggerPressed (run frames s)) RIGHT
  = last (trigger_samples frames) (sub2 (triggerPressed s) RIGHT) /\
  sub2 (triggerPressed (run frames s)) LEFT = sub2 (triggerPressed s) LEFT.
Proof.
  revert s. induction frames as [| f rest IH]; intros s; [split; reflexivity |].
  change (run (f :: rest) s) with (run rest (render_update f s)).
  destruct (IH (render_update f s)) as [IHr IHl]. rewrite IHr, IHl.
  rewrite render_update_triggerPressed.
  unfold trigger_samples; cbn [flat_map]; fold (trigger_samples rest).
  destruct (trigger_query f) as [i |]; cbn [app].
  - rewrite last_cons. split; reflexivity.
  - split; reflexivity.
Qed.

Lemma run_viewFromController (frames : list Frame) (s : ColorCubeScene) :
  frames <> [] ->
  viewFromController (run frames s) = sub2 (triggerPressed (run frames s)) RIGHT.
Proof.
  revert s. induction frames as [| f rest IH]; intros s H; [contradiction |].
  change (run (f :: rest) s) with (run rest (render_update f s)).
  destruct rest as [| g rest].
  - apply render_update_viewFromController.
  - apply IH. discriminate.
Qed.

Lemma render_update_handPose (f : Frame) (s : ColorCubeScene) :
  sub2 (handPoses (render_update f s)) RIGHT = HandPose_Right f.
Proof.
  rewrite render_update_phases.
  change (handPoses (wall_math f ?x)) with (handPoses x).
  unfold_before_wall_math. break_conditions; reflexivity.
Qed.

(** X10: the controller view follows the right hand trigger: after any
    calls of [render], [viewFromController] is the last successful
    trigger sample compared with 0.5 (failed queries keep the value), the
    left entry of [triggerPressed] is never written, and the wall passes
    of a call are drawn from the hand pose of that call exactly when the
    flag is set. *)
Theorem view_follows_last_trigger_sample (frames : list Frame) (s : ColorCubeScene) :
  frames <> [] ->
  viewFromController (run frames s)
  = last (trigger_samples frames) (sub2 (triggerPressed s) RIGHT) /\
  sub2 (triggerPressed (run frames s)) LEFT = sub2 (triggerPressed s) LEFT /\
  (forall (f : Frame) (s0 : ColorCubeScene),
      scene_modelview (render_output f (render_update f s0))
      = if viewFromController (render_update f s0)
        then view_inverse_of_hand (HandPose_Right f)
        else view_matrix (posOnly (render_update f s0))).
Proof.
  intros H.
  rewrite (run_viewFromController frames s H).
  destruct (run_triggerPressed frames s) as [Hr Hl].
  split; [exact Hr |]. split; [exact Hl |].
  intros f s0. unfold render_output; cbn [scene_modelview].
  rewrite render_update_handPose. reflexivity.
Qed.

(** X10 after one call with the trigger pulled. *)
Lemma view_follows_last_trigger_sample_witness :
  viewFromController (run [frame_with ovrEye_Left (Some (trigger_input 1))] scene0)
  = last (trigger_samples [frame_with ovrEye_Left (Some (trigger_input 1))])
         (sub2 (triggerPressed scene0) RIGHT).
Proof.
  refine (proj1 (view_follows_last_trigger_sample
                   [frame_with ovrEye_Left (Some (trigger_input 1))] scene0 _)).
  discriminate.
Defined.

(** X11: in the controller view with tracking on, the two eyes are put
    at the hand position shifted by -0.0325 and +0.0325 along the world
    x axis, whatever the orientation of the hand: after the left and the
    right call with the same hand position the eyes are 0.065 apart. *)
Theorem controller_view_eye_positions
        (fl fr : Frame) (il ir : ovrInputState) (s : ColorCubeScene) :
  eye fl = ovrEye_Left -> eye fr = ovrEye_Right ->
  trigger_query fl = Some il -> sub2 (HandTrigger il) ovrHand_Right > 1 / 2 ->
  trigger_query fr = Some ir -> sub2 (HandTrigger ir) ovrHand_Right > 1 / 2 ->
  track (run [fl] s) = true -> track (run [fl; fr] s) = true ->
  eyePos (run [fl; fr] s)
  = Arr2 (Vec3 (x3 (Position (HandPose_Right fl)) - 325 / 10000)
               (y3 (Position (HandPose_Right fl))) (z3 (Position (HandPose_Right fl))))
         (Vec3 (x3 (Position (HandPose_Right fr)) + 325 / 10000)
               (y3 (Position (HandPose_Right fr))) (z3 (Position (HandPose_Right fr)))) /\
  (Position (HandPose_Right fl) = Position (HandPose_Right fr) ->
   x3 (sub2 (eyePos (run [fl; fr] s)) ovrEye_Right)
   - x3 (sub2 (eyePos (run [fl; fr] s)) ovrEye_Left) = 65 / 1000).
Proof.
  intros El Er Ql Tl Qr Tr Hl Hr.
  change (run [fl; fr] s) with (render_update fr (render_update fl s)) in *.
  change (run [fl] s) with (render_update fl s) in *.
  assert (Vl : viewFromController (render_update fl s) = true).
  { rewrite render_update_viewFromController, render_update_triggerPressed, Ql.
    destruct (triggerPressed s); cbn. unfold Rgtb. destruct (Rgt_dec _ _); [reflexivity | contradiction]. }
  assert (Vr : viewFromController (render_update fr (render_update fl s)) = true).
  { rewrite render_update_viewFromController, render_update_triggerPressed, Qr.
    destruct (triggerPressed (render_update fl s)); cbn.
    unfold Rgtb. destruct (Rgt_dec _ _); [reflexivity | contradiction]. }
  assert (E : eyePos (render_update fr (render_update fl s))
              = Arr2 (Vec3 (x3 (Position (HandPose_Right fl)) - 325 / 10000)
                           (y3 (Position (HandPose_Right fl)))
                           (z3 (Position (HandPose_Right fl))))
                     (Vec3 (x3 (Position (HandPose_Right fr)) + 325 / 10000)
                           (y3 (Position (HandPose_Right fr)))
                           (z3 (Position (HandPose_Right fr))))).
  { rewrite (render_update_eyePos fr), Hr, Vr.
    rewrite (render_update_eyePos fl), Hl, Vl.
    unfold tracked_eye. rewrite El, Er. reflexivity. }
  split; [exact E |].
  intros Hp. rewrite E, Hp. cbn. lra.
Qed.

Lemma trigger_frames_track (e1 e2 : ovrEyeType) :
  track (run [frame_with e1 (Some (trigger_input 1))] scene0) = true /\
  track (run [frame_with e1 (Some (trigger_input 1));
              frame_with e2 (Some (trigger_input 1))] scene0) = true.
Proof.
  change (run [frame_with e1 (Some (trigger_input 1));
               frame_with e2 (Some (trigger_input 1))] scene0)
    with (render_update (frame_with e2 (Some (trigger_input 1)))
            (render_update (frame_with e1 (Some (trigger_input 1))) scene0)).
  change (run [frame_with e1 (Some (trigger_input 1))] scene0)
    with (render_update (frame_with e1 (Some (trigger_input 1))) scene0).
  assert (H1 : track (render_update (frame_with e1 (Some (trigger_input 1))) scene0) = true).
  { rewrite render_update_track. cbn [checkInput_query frame_with].
    rewrite checkInput_track. reflexivity. }
  split; [exact H1 |].
  rewrite render_update_track. cbn [checkInput_query frame_with].
  rewrite checkInput_track.
  change (button_set (trigger_input 1) ovrButton_B) with false.
  cbn [andb]. exact H1.
Qed.

Lemma trigger_input_pressed : sub2 (HandTrigger (trigger_input 1)) ovrHand_Right > 1 / 2.
Proof. cbn. lra. Qed.

(** X11 from the constructed scene, the trigger pulled in both calls. *)
Lemma controller_view_eye_positions_witness :
  x3 (sub2 (eyePos (run [frame_with ovrEye_Left (Some (trigger_input 1));
                         frame_with ovrEye_Right (Some (trigger_input 1))] scene0))
           ovrEye_Right)
  - x3 (sub2 (eyePos (run [frame_with ovrEye_Left (Some (trigger_input 1));
                           frame_with ovrEye_Right (Some (trigger_input 1))] scene0))
             ovrEye_Left) = 65 / 1000.
Proof.
  exact (proj2 (controller_view_eye_positions
                  (frame_with ovrEye_Left (Some (trigger_input 1)))
                  (frame_with ovrEye_Right (Some (trigger_input 1)))
                  (trigger_input 1) (trigger_input 1) scene0
                  eq_refl eq_refl eq_refl trigger_input_pressed
                  eq_refl trigger_input_pressed
                  (proj1 (trigger_frames_track ovrEye_Left ovrEye_Right))
                  (proj2 (trigger_frames_track ovrEye_Left ovrEye_Right)))
               eq_refl).
Defined.

(** X12: a call of [render] renders its three walls into the textures
    [eye * 3 + 0..2], all within the six of [renderedTextures] and
    distinct, draws the CAVE from the same three in the same order, and
    touches no texture of the other eye. *)
Theorem wall_textures_per_eye (f : Frame) (s : ColorCubeScene) :
  targets (render_output f s) = map cave_texture (cave_draws (render_output f s)) /\
  Forall (fun i => (0 <= i < 6)%Z) (targets (render_output f s)) /\
  NoDup (targets (render_output f s)) /\
  (forall (f' : Frame) (s' : ColorCubeScene),
      eye f' <> eye f ->
      forall i, In i (targets (render_output f s)) -> ~ In i (targets (render_output f' s'))).
Proof.
  unfold targets, render_output; cbn [wall_passes cave_draws map pass_target cave_texture].
  split; [destruct (eye f); reflexivity |].
  split; [destruct (eye f); repeat constructor; cbn; lia |].
  split.
  - destruct (eye f); cbn; repeat constructor; cbn; intuition lia.
  - intros f' s' Hne i Hi Hi'.
    destruct (eye f), (eye f'); try (apply Hne; reflexivity); cbn in Hi, Hi'; lia.
Qed.

(** ** The conversions of namespace [ovr] *)

Module OvrFacts.
Import Ovr.

(** X13: the two matrix conversions undo each other, and the GLM matrix
    acts as the OVR matrix does: component r of its product with a vector
    is row [M[r]] of the [ovrMatrix4f] times that vector. *)
Theorem matrix_conversion_round_trip (m : mat4) (om : ovrMatrix4f) (v : vec4) :
  toGlm_Matrix4f (fromGlm_mat4 m) = m /\
  fromGlm_mat4 (toGlm_Matrix4f om) = om /\
  mul_mv (toGlm_Matrix4f om) v
  = Vec4 (row_times (M0 om) v) (row_times (M1 om) v)
         (row_times (M2 om) v) (row_times (M3 om) v).
Proof.
  destruct m as [[a0 a1 a2 a3] [b0 b1 b2 b3] [c0 c1 c2 c3] [d0 d1 d2 d3]].
  destruct om as [[e0 e1 e2 e3] [f0 f1 f2 f3] [g0 g1 g2 g3] [h0 h1 h2 h3]].
  destruct v as [v0 v1 v2 v3].
  split; [reflexivity |]. split; [reflexivity |].
  cbv [toGlm_Matrix4f make_mat4 transpose mul_mv add4 smul4 row_times
       col0 col1 col2 col3 x4 y4 z4 w4 M0 M1 M2 M3].
  f_equal; ring.
Qed.

Lemma toGlm_Posef_point (op : ovrPosef) (p : vec3) :
  transform_point (toGlm_Posef op) p
  = add3 (transform_point (mat4_cast (Orientation op)) p) (Position op).
Proof.
  destruct op as [[a b c d] [px py pz]], p as [u v w].
  cbv [transform_point toGlm_Posef mat4_cast translate mat4_id mul_mm mul_mv add4 smul4
       vec4_of vec3_of add3 Orientation Position qx qy qz qw
       col0 col1 col2 col3 x4 y4 z4 w4 x3 y3 z3].
  f_equal; ring.
Qed.

Lemma mat4_cast_isometry (q : ovrQuatf) (u v : vec3) :
  unit_quat q ->
  dot (sub3 (transform_point (mat4_cast q) u) (transform_point (mat4_cast q) v))
      (sub3 (transform_point (mat4_cast q) u) (transform_point (mat4_cast q) v))
  = dot (sub3 u v) (sub3 u v).
Proof.
  destruct q as [a b c d], u as [u0 u1 u2], v as [v0 v1 v2].
  unfold unit_quat; cbn [qx qy qz qw]. intros H.
  cbv [transform_point mat4_cast mul_mv add4 smul4 vec4_of vec3_of sub3 dot
       qx qy qz qw col0 col1 col2 col3 x4 y4 z4 w4 x3 y3 z3].
  nsatz.
Qed.

(** X14: the matrix of a pose carries the position in its fourth
    column, so it sends the origin to the position; and when the
    orientation is a unit quaternion it keeps the distance between any
    two points. *)
Theorem pose_matrix_is_rigid (op : ovrPosef) :
  col3 (toGlm_Posef op) = vec4_of (Position op) 1 /\
  transform_point (toGlm_Posef op) vec3_zero = Position op /\
  (unit_quat (Orientation op) ->
   forall u v : vec3,
     dot (sub3 (transform_point (toGlm_Posef op) u) (transform_point (toGlm_Posef op) v))
         (sub3 (transform_point (toGlm_Posef op) u) (transform_point (toGlm_Posef op) v))
     = dot (sub3 u v) (sub3 u v)).
Proof.
  split; [| split].
  - destruct op as [[a b c d] [px py pz]].
    cbv [toGlm_Posef mat4_cast translate mat4_id mul_mm mul_mv add4 smul4
         vec4_of Orientation Position qx qy qz qw
         col0 col1 col2 col3 x4 y4 z4 w4 x3 y3 z3].
    f_equal; ring.
  - destruct op as [[a b c d] [px py pz]].
    cbv [transform_point toGlm_Posef mat4_cast translate mat4_id mul_mm mul_mv add4 smul4
         vec4_of vec3_of vec3_zero Orientation Position qx qy qz qw
         col0 col1 col2 col3 x4 y4 z4 w4 x3 y3 z3].
    f_equal; ring.
  - intros Hq u v. rewrite !toGlm_Posef_point.
    rewrite <- (mat4_cast_isometry (Orientation op) u v Hq).
    destruct (transform_point (mat4_cast (Orientation op)) u),
             (transform_point (mat4_cast (Orientation op)) v), (Position op).
    cbv [sub3 add3 dot x3 y3 z3]. ring.
Qed.
End OvrFacts.

(** ** [glm::inverse] and the head pose *)

Module GlmInverseFacts.
Import GlmInverse Ovr.

Ltac inverse_entries Hk :=
  f_equal; f_equal;
  first [ ring | (etransitivity; [| exact Hk]); ring ].

Lemma inverse_left (m : mat4) :
  determinant m <> 0 -> mul_mm (inverse m) m = mat4_id.
Proof.
  intros Hd.
  assert (Hk : 1 / determinant m * determinant m = 1) by (field; exact Hd).
  unfold inverse. cbv zeta.
  set (k := 1 / determinant m) in *. clearbody k. clear Hd.
  destruct m as [[a0 a1 a2 a3] [b0 b1 b2 b3] [c0 c1 c2 c3] [d0 d1 d2 d3]].
  cbv [determinant cofactors vmul vsub add4 col0 col1 col2 col3 x4 y4 z4 w4] in Hk.
  cbv [cofactors vmul vsub add4 smul4 mul_mm mul_mv mat4_id
       col0 col1 col2 col3 x4 y4 z4 w4].
  inverse_entries Hk.
Qed.

Lemma inverse_right (m : mat4) :
  determinant m <> 0 -> mul_mm m (inverse m) = mat4_id.
Proof.
  intros Hd.
  assert (Hk : 1 / determinant m * determinant m = 1) by (field; exact Hd).
  unfold inverse. cbv zeta.
  set (k := 1 / determinant m) in *. clearbody k. clear Hd.
  destruct m as [[a0 a1 a2 a3] [b0 b1 b2 b3] [c0 c1 c2 c3] [d0 d1 d2 d3]].
  cbv [determinant cofactors vmul vsub add4 col0 col1 col2 col3 x4 y4 z4 w4] in Hk.
  cbv [cofactors vmul vsub add4 smul4 mul_mm mul_mv mat4_id
       col0 col1 col2 col3 x4 y4 z4 w4].
  inverse_entries Hk.
Qed.

Lemma mul_mm_assoc (a b c : mat4) : mul_mm (mul_mm a b) c = mul_mm a (mul_mm b c).
Proof.
  destruct a as [[a00 a01 a02 a03] [a10 a11 a12 a13] [a20 a21 a22 a23] [a30 a31 a32 a33]].
  destruct b as [[b00 b01 b02 b03] [b10 b11 b12 b13] [b20 b21 b22 b23] [b30 b31 b32 b33]].
  destruct c as [[c00 c01 c02 c03] [c10 c11 c12 c13] [c20 c21 c22 c23] [c30 c31 c32 c33]].
  cbv [mul_mm mul_mv add4 smul4 col0 col1 col2 col3 x4 y4 z4 w4].
  f_equal; f_equal; ring.
Qed.

Lemma mul_mm_id_l (a : mat4) : mul_mm mat4_id a = a.
Proof.
  destruct a as [[a00 a01 a02 a03] [a10 a11 a12 a13] [a20 a21 a22 a23] [a30 a31 a32 a33]].
  cbv [mul_mm mul_mv mat4_id add4 smul4 col0 col1 col2 col3 x4 y4 z4 w4].
  f_equal; f_equal; ring.
Qed.

Lemma mul_mm_id_r (a : mat4) : mul_mm a mat4_id = a.
Proof.
  destruct a as [[a00 a01 a02 a03] [a10 a11 a12 a13] [a20 a21 a22 a23] [a30 a31 a32 a33]].
  cbv [mul_mm mul_mv mat4_id add4 smul4 col0 col1 col2 col3 x4 y4 z4 w4].
  f_equal; f_equal; ring.
Qed.

(** An inverse found by other means is the one [glm::inverse] computes. *)
Lemma inverse_unique (m n : mat4) :
  determinant m <> 0 -> mul_mm m n = mat4_id -> inverse m = n.
Proof.
  intros Hd Hn.
  rewrite <- (mul_mm_id_r (inverse m)), <- Hn, <- mul_mm_assoc.
  rewrite (inverse_left m Hd). apply mul_mm_id_l.
Qed.

Lemma determinant_pose (op : ovrPosef) :
  unit_quat (Orientation op) -> determinant (toGlm_Posef op) = 1.
Proof.
  destruct op as [[a b c d] [px py pz]].
  unfold unit_quat; cbn [Orientation qx qy qz qw]. intros H.
  cbv [determinant cofactors vmul vsub toGlm_Posef mat4_cast translate mat4_id
       mul_mm mul_mv add4 smul4 Orientation Position qx qy qz qw
       col0 col1 col2 col3 x4 y4 z4 w4 x3 y3 z3].
  nsatz.
Qed.

Lemma pose_times_rigid_inverse (op : ovrPosef) :
  unit_quat (Orientation op) -> mul_mm (toGlm_Posef op) (rigid_inverse op) = mat4_id.
Proof.
  destruct op as [[a b c d] [px py pz]].
  unfold unit_quat; cbn [Orientation qx qy qz qw]. intros H.
  cbv [rigid_inverse neg3 transpose toGlm_Posef mat4_cast translate mat4_id
       mul_mm mul_mv add4 smul4 Orientation Position qx qy qz qw
       col0 col1 col2 col3 x4 y4 z4 w4 x3 y3 z3].
  f_equal; f_equal; nsatz.
Qed.

Lemma inverse_pose (op : ovrPosef) :
  unit_quat (Orientation op) -> inverse (toGlm_Posef op) = rigid_inverse op.
Proof.
  intros H. apply inverse_unique.
  - rewrite (determinant_pose op H). lra.
  - apply pose_times_rigid_inverse. assumption.
Qed.

Lemma pose0_unit : unit_quat (Orientation pose0).
Proof. unfold unit_quat, pose0; cbn. ring. Qed.

Lemma pose_point (op : ovrPosef) (p : vec3) :
  mul_mv (toGlm_Posef op) (vec4_of p 1) = vec4_of (transform_point (toGlm_Posef op) p) 1.
Proof.
  destruct op as [[a b c d] [px py pz]], p as [u v w].
  cbv [transform_point toGlm_Posef mat4_cast translate mat4_id mul_mm mul_mv add4 smul4
       vec4_of vec3_of Orientation Position qx qy qz qw
       col0 col1 col2 col3 x4 y4 z4 w4 x3 y3 z3].
  f_equal; ring.
Qed.

Lemma mul_mv_mm (a b : mat4) (v : vec4) : mul_mv (mul_mm a b) v = mul_mv a (mul_mv b v).
Proof.
  destruct a as [[a00 a01 a02 a03] [a10 a11 a12 a13] [a20 a21 a22 a23] [a30 a31 a32 a33]].
  destruct b as [[b00 b01 b02 b03] [b10 b11 b12 b13] [b20 b21 b22 b23] [b30 b31 b32 b33]].
  destruct v as [v0 v1 v2 v3].
  cbv [mul_mm mul_mv add4 smul4 col0 col1 col2 col3 x4 y4 z4 w4].
  f_equal; ring.
Qed.

Lemma rigid_inverse_col3 (op : ovrPosef) :
  col3 (rigid_inverse op)
  = mul_mv (transpose (mat4_cast (Orientation op))) (vec4_of (neg3 (Position op)) 1).
Proof.
  destruct op as [[a b c d] [px py pz]].
  cbv [rigid_inverse neg3 transpose mat4_cast translate mat4_id
       mul_mm mul_mv add4 smul4 vec4_of Orientation Position qx qy qz qw
       col0 col1 col2 col3 x4 y4 z4 w4 x3 y3 z3].
  f_equal; ring.
Qed.

(** X15: [renderScene] hands [render] the inverse of the head pose.  For a
    unit orientation [glm::inverse] of the pose matrix is the transposed
    rotation after the translation by the negated position; it undoes the
    pose on every point, and its fourth column, which [render] copies to
    [posOnly], is the negated position turned by the transposed rotation,
    not the negated position itself. *)
Theorem head_pose_inverse (op : ovrPosef) :
  unit_quat (Orientation op) ->
  inverse (toGlm_Posef op) = rigid_inverse op /\
  mul_mm (inverse (toGlm_Posef op)) (toGlm_Posef op) = mat4_id /\
  (forall p : vec3,
      transform_point (inverse (toGlm_Posef op)) (transform_point (toGlm_Posef op) p) = p) /\
  col3 (inverse (toGlm_Posef op))
  = mul_mv (transpose (mat4_cast (Orientation op))) (vec4_of (neg3 (Position op)) 1).
Proof.
  intros Hq.
  assert (Hd : determinant (toGlm_Posef op) <> 0)
    by (rewrite (determinant_pose op Hq); lra).
  split; [apply inverse_pose; exact Hq |].
  split; [apply inverse_left; exact Hd |].
  split.
  - intros p. unfold transform_point at 1.
    rewrite <- pose_point, <- mul_mv_mm, (inverse_left _ Hd).
    destruct p as [u v w].
    cbv [mul_mv mat4_id add4 smul4 vec4_of vec3_of col0 col1 col2 col3
         x4 y4 z4 w4 x3 y3 z3].
    f_equal; ring.
  - rewrite (inverse_pose op Hq). apply rigid_inverse_col3.
Qed.

(** X15 at the pose with no rotation and no offset. *)
Lemma head_pose_inverse_witness : inverse (toGlm_Posef pose0) = rigid_inverse pose0.
Proof. exact (proj1 (head_pose_inverse pose0 pose0_unit)). Defined.
End GlmInverseFacts.

(** ** The layout of the render target *)

Module RiftLayoutFacts.
Import RiftLayout.
Local Open Scope Z_scope.

(** X16: the constructor of [RiftApp] puts the two eye viewports side by
    side.  For texture sizes that are non-negative [int]s the left
    viewport sits at (0,0), the right one at (w_left, 0), the render target
    is w_left + w_right wide and as high as the higher eye; every column of
    the target lies in exactly one viewport, every row of a viewport lies
    in the target, and the mirror window has a quarter of the width and of
    the height, rounded down. *)
Theorem eye_viewports_tile_render_target (eyeSize : ovrEyeType -> ovrSizei) :
  (forall eye, 0 <= w (eyeSize eye) < 2 ^ 31 /\ 0 <= h (eyeSize eye) < 2 ^ 31) ->
  let l := RiftApp_ctor eyeSize in
  sub2 (Viewport l) ovrEye_Left = Recti (Vector2i 0 0) (eyeSize ovrEye_Left) /\
  sub2 (Viewport l) ovrEye_Right
  = Recti (Vector2i (w (eyeSize ovrEye_Left)) 0) (eyeSize ovrEye_Right) /\
  _renderTargetSize l
  = Uvec2 (w (eyeSize ovrEye_Left) + w (eyeSize ovrEye_Right))
          (Z.max (h (eyeSize ovrEye_Left)) (h (eyeSize ovrEye_Right))) /\
  (forall i, 0 <= i < ux (_renderTargetSize l) <->
             covers_x (sub2 (Viewport l) ovrEye_Left) i \/
             covers_x (sub2 (Viewport l) ovrEye_Right) i) /\
  (forall i, ~ (covers_x (sub2 (Viewport l) ovrEye_Left) i /\
                covers_x (sub2 (Viewport l) ovrEye_Right) i)) /\
  (forall eye j, covers_y (sub2 (Viewport l) eye) j -> 0 <= j < uy (_renderTargetSize l)) /\
  (4 * ux (_mirrorSize l) <= ux (_renderTargetSize l) < 4 * ux (_mirrorSize l) + 4 /\
   4 * uy (_mirrorSize l) <= uy (_renderTargetSize l) < 4 * uy (_mirrorSize l) + 4).
Proof.
  intros H l.
  destruct (H ovrEye_Left) as [HwL HhL]. destruct (H ovrEye_Right) as [HwR HhR].
  assert (Eu : forall z, 0 <= z < 2 ^ 32 -> to_uint z = z)
    by (intros z Hz; unfold to_uint; apply Z.mod_small; lia).
  assert (Ei : forall z, 0 <= z < 2 ^ 31 -> to_int z = z)
    by (intros z Hz; unfold to_int; rewrite Z.mod_small; lia).
  assert (EL : sub2 (Viewport l) ovrEye_Left = Recti (Vector2i 0 0) (eyeSize ovrEye_Left))
    by reflexivity.
  assert (ER : sub2 (Viewport l) ovrEye_Right
               = Recti (Vector2i (w (eyeSize ovrEye_Left)) 0) (eyeSize ovrEye_Right)).
  { subst l. unfold RiftApp_ctor, Ovr.for_each_eye, place_eye, layout0.
    cbn [Viewport _renderTargetSize sub2 upd2 elt0 elt1 ux uy Size Pos].
    rewrite (Eu (w (eyeSize ovrEye_Left))) by lia.
    rewrite Z.add_0_l, (Eu (w (eyeSize ovrEye_Left))) by lia.
    rewrite Ei by lia. reflexivity. }
  assert (ES : _renderTargetSize l
               = Uvec2 (w (eyeSize ovrEye_Left) + w (eyeSize ovrEye_Right))
                       (Z.max (h (eyeSize ovrEye_Left)) (h (eyeSize ovrEye_Right)))).
  { subst l. unfold RiftApp_ctor, Ovr.for_each_eye, place_eye, layout0.
    cbn [Viewport _renderTargetSize sub2 upd2 elt0 elt1 ux uy Size Pos].
    rewrite !(Eu (w (eyeSize ovrEye_Left))), !(Eu (w (eyeSize ovrEye_Right))) by lia.
    rewrite !(Eu (h (eyeSize ovrEye_Left))), !(Eu (h (eyeSize ovrEye_Right))) by lia.
    rewrite Z.add_0_l, (Eu (w (eyeSize ovrEye_Left))) by lia.
    rewrite Eu by lia.
    f_equal. lia. }
  assert (EM : _mirrorSize l
               = Uvec2 (ux (_renderTargetSize l) / 4) (uy (_renderTargetSize l) / 4))
    by reflexivity.
  split; [exact EL |]. split; [exact ER |]. split; [exact ES |].
  rewrite EM. rewrite EL, ER, ES. unfold covers_x, covers_y.
  cbn [ux uy x y w h Pos Size].
  split; [intros i; lia |].
  split; [intros i; lia |].
  split.
  - intros eye j. destruct eye; rewrite ?EL, ?ER; cbn [x y Pos Size]; lia.
  - pose proof (Z.div_mod (w (eyeSize ovrEye_Left) + w (eyeSize ovrEye_Right)) 4 ltac:(lia)).
    pose proof (Z.mod_pos_bound (w (eyeSize ovrEye_Left) + w (eyeSize ovrEye_Right)) 4 ltac:(lia)).
    pose proof (Z.div_mod (Z.max (h (eyeSize ovrEye_Left)) (h (eyeSize ovrEye_Right))) 4 ltac:(lia)).
    pose proof (Z.mod_pos_bound (Z.max (h (eyeSize ovrEye_Left)) (h (eyeSize ovrEye_Right))) 4 ltac:(lia)).
    lia.
Qed.

Lemma rift_eye_sizes (eye : ovrEyeType) :
  0 <= w (rift_eye eye) < 2 ^ 31 /\ 0 <= h (rift_eye eye) < 2 ^ 31.
Proof. cbn. lia. Qed.

(** X16 for the two eyes of a Rift: the right viewport starts at column
    1344. *)
Lemma eye_viewports_tile_render_target_witness :
  sub2 (Viewport (RiftApp_ctor rift_eye)) ovrEye_Right
  = Recti (Vector2i (w (rift_eye ovrEye_Left)) 0) (rift_eye ovrEye_Right).
Proof.
  exact (proj1 (proj2 (eye_viewports_tile_render_target rift_eye rift_eye_sizes))).
Defined.
End RiftLayoutFacts.

(** ** [RiftApp::draw] *)

Module DrawFacts.
Import Ovr GlmInverse GlmInverseFacts Draw.

(** X17: [RiftApp::draw] calls [render] for the left eye and then for the
    right eye, each with the projection of that eye, the inverse of that
    eye's pose of this frame as [modelview], and [RenderPose[eye]] already
    set to it.  In such a call, when tracking is on and the controller
    view is off, the eye of the off-axis frusta is put at the position of
    the pose, while the view matrix of the wall passes gets the fourth
    column of the inverse pose: the negated position turned by the
    transposed rotation. *)
Theorem draw_renders_each_eye_from_its_pose
        (_eyeProjections : arr2 mat4) (eyePoses : arr2 ovrPosef)
        (device : arr2 DeviceAnswers) (RenderPose0 : arr2 ovrPosef) :
  unit_quat (Orientation (sub2 eyePoses ovrEye_Left)) ->
  unit_quat (Orientation (sub2 eyePoses ovrEye_Right)) ->
  map eye (snd (draw _eyeProjections eyePoses device RenderPose0))
  = [ovrEye_Left; ovrEye_Right] /\
  fst (draw _eyeProjections eyePoses device RenderPose0) = eyePoses /\
  forall f, In f (snd (draw _eyeProjections eyePoses device RenderPose0)) ->
    projection f = sub2 _eyeProjections (eye f) /\
    sub2 (RenderPose f) (eye f) = sub2 eyePoses (eye f) /\
    modelview f = rigid_inverse (sub2 eyePoses (eye f)) /\
    (forall s : ColorCubeScene,
        track (render_update f s) = true ->
        viewFromController (render_update f s) = false ->
        sub2 (eyePos (render_update f s)) (eye f) = Position (sub2 eyePoses (eye f)) /\
        linear_part (posOnly (render_update f s)) = linear_part (posOnly s) /\
        col3 (posOnly (render_update f s))
        = mul_mv (transpose (mat4_cast (Orientation (sub2 eyePoses (eye f)))))
                 (vec4_of (neg3 (Position (sub2 eyePoses (eye f)))) 1)).
Proof.
  intros HL HR.
  split; [reflexivity |].
  split; [destruct eyePoses, RenderPose0; reflexivity |].
  intros f Hf.
  assert (Hshape : exists e,
             f = renderScene (sub2 _eyeProjections e) (toGlm_Posef (sub2 eyePoses e)) e
                             (RenderPose f) (sub2 device e) /\
             sub2 (RenderPose f) e = sub2 eyePoses e).
  { cbn in Hf. destruct Hf as [<- | [<- | []]].
    - exists ovrEye_Left. split; reflexivity.
    - exists ovrEye_Right. split; reflexivity. }
  destruct Hshape as (e & Ef & Ep).
  assert (He : eye f = e) by (rewrite Ef; reflexivity).
  assert (Hq : unit_quat (Orientation (sub2 eyePoses e))) by (destruct e; assumption).
  assert (Hm : modelview f = rigid_inverse (sub2 eyePoses e)).
  { rewrite Ef. cbn [modelview renderScene]. apply inverse_pose. exact Hq. }
  rewrite He.
  split; [rewrite Ef; reflexivity |].
  split; [exact Ep |].
  split; [exact Hm |].
  intros s Ht Hv.
  split; [| split].
  - rewrite render_update_eyePos, Ht, Hv. unfold tracked_eye. cbn [negb].
    rewrite He, Ep. destruct (eyePos s), e; reflexivity.
  - apply render_update_linear_part.
  - rewrite render_update_posOnly, Ht, Hv. cbn [negb andb col3].
    rewrite Hm. apply rigid_inverse_col3.
Qed.

(** X17 for a head at rest: the calls are for the left and then for the
    right eye. *)
Lemma draw_renders_each_eye_from_its_pose_witness :
  map eye (snd (draw (Arr2 mat4_id mat4_id) (Arr2 pose0 pose0) (Arr2 silent silent)
                     (Arr2 pose0 pose0)))
  = [ovrEye_Left; ovrEye_Right].
Proof.
  exact (proj1 (draw_renders_each_eye_from_its_pose
                  (Arr2 mat4_id mat4_id) (Arr2 pose0 pose0) (Arr2 silent silent)
                  (Arr2 pose0 pose0) pose0_unit pose0_unit)).
Defined.
End DrawFacts.

(** ** The body of [loadPPM] *)

Module PpmFileFacts.
Import PpmFile.
Local Open Scope nat_scope.

Lemma fgets_chars_line (l rest : bytes) (room : nat) :
  forallb (fun c => negb (Byte.eqb c newline)) l = true ->
  (List.length l < room)%nat ->
  fgets_chars room (l ++ newline :: rest) = (l ++ [newline], rest).
Proof.
  revert room. induction l as [| c l IH]; intros room Hl Hroom.
  - destruct room as [| room]; [simpl in Hroom; lia | reflexivity].
  - destruct room as [| room]; [simpl in Hroom; lia |].
    simpl in Hl. apply andb_true_iff in Hl. destruct Hl as [Hc Hl].
    cbn [fgets_chars app].
    apply negb_true_iff in Hc. rewrite Hc.
    rewrite IH; [reflexivity | assumption | simpl in Hroom; lia].
Qed.

Lemma text_line_parts (l : bytes) :
  text_line l = true ->
  (List.length l < BUFSIZE - 1)%nat /\
  forallb (fun c => negb (Byte.eqb c newline)) l = true.
Proof.
  unfold text_line, BUFSIZE. intros H. apply andb_true_iff in H. destruct H as [H1 H2].
  apply Nat.leb_le in H1. simpl in *. split; [lia | assumption].
Qed.

Lemma fgets_line (l rest : bytes) :
  text_line l = true ->
  fgets (l ++ newline :: rest) = Some (l ++ [newline], rest).
Proof.
  intros H. destruct (text_line_parts l H) as [Hlen Hnl].
  unfold fgets. rewrite fgets_chars_line by assumption.
  destruct l; reflexivity.
Qed.

Lemma lines_cons (l : bytes) (ls : list bytes) (rest : bytes) :
  lines (l :: ls) ++ rest = l ++ newline :: (lines ls ++ rest).
Proof.
  unfold lines. cbn [map List.concat]. rewrite <- !app_assoc. reflexivity.
Qed.

Lemma comment_line_parts (c : bytes) :
  comment_line c = true -> text_line c = true /\ starts_with_hash (c ++ [newline]) = true.
Proof.
  unfold comment_line. intros H. apply andb_true_iff in H. destruct H as [H1 H2].
  split; [assumption |]. destruct c; [discriminate | exact H2].
Qed.

Lemma line_starts_with_hash (l : bytes) :
  starts_with_hash l = false -> starts_with_hash (l ++ [newline]) = false.
Proof. destruct l; [reflexivity | trivial]. Qed.

(** The loop reads over comment lines and stops behind the next line. *)
Lemma skip_comments_line (cs : list bytes) (l rest : bytes) (fuel : nat)
      (buf0 : option bytes) :
  forallb comment_line cs = true ->
  text_line l = true -> starts_with_hash l = false ->
  (List.length (lines cs ++ l ++ newline :: rest) < fuel)%nat ->
  skip_comments fuel buf0 (lines cs ++ l ++ newline :: rest)
  = Returns (l ++ [newline], rest).
Proof.
  revert fuel buf0. induction cs as [| c cs IH]; intros fuel buf0 Hcs Hl Hh Hfuel.
  - destruct fuel as [| fuel]; [simpl in Hfuel; lia |].
    cbn [lines map List.concat app skip_comments].
    rewrite fgets_line by assumption.
    rewrite line_starts_with_hash by assumption. reflexivity.
  - destruct fuel as [| fuel]; [simpl in Hfuel; lia |].
    cbn [forallb] in Hcs. apply andb_true_iff in Hcs. destruct Hcs as [Hc Hcs].
    destruct (comment_line_parts c Hc) as [Hct Hch].
    rewrite lines_cons in *. cbn [skip_comments].
    rewrite fgets_line by assumption. rewrite Hch.
    apply IH; try assumption.
    rewrite length_app in Hfuel. cbn [List.length] in Hfuel. lia.
Qed.

(** At the end of the file, behind a comment, the loop never ends. *)
Lemma skip_comments_hangs (cs : list bytes) (fuel : nat) (buf : bytes) :
  forallb comment_line cs = true ->
  starts_with_hash buf = true ->
  (List.length (lines cs) < fuel)%nat ->
  skip_comments fuel (Some buf) (lines cs) = Hangs.
Proof.
  revert fuel buf. induction cs as [| c cs IH]; intros fuel buf Hcs Hb Hfuel.
  - destruct fuel as [| fuel]; [simpl in Hfuel; lia |].
    cbn. rewrite Hb. reflexivity.
  - destruct fuel as [| fuel]; [simpl in Hfuel; lia |].
    cbn [forallb] in Hcs. apply andb_true_iff in Hcs. destruct Hcs as [Hc Hcs].
    destruct (comment_line_parts c Hc) as [Hct Hch].
    rewrite <- (app_nil_r (lines (c :: cs))) in *. rewrite lines_cons in *.
    rewrite app_nil_r in *.
    cbn [skip_comments]. rewrite fgets_line by assumption. rewrite Hch.
    apply IH; try assumption.
    rewrite length_app in Hfuel. cbn [List.length] in Hfuel. lia.
Qed.

(** Numbers *)

Lemma isdigit_not_space (c : Byte.byte) : isdigit c = true -> isspace c = false.
Proof. destruct c; simpl; intros H; try discriminate; reflexivity. Qed.

Lemma isdigit_not_sign (c : Byte.byte) :
  isdigit c = true ->
  Byte.eqb c minus = false /\ Byte.eqb c plus = false /\ Byte.eqb c NUL = false
  /\ Byte.eqb c hash = false /\ Byte.eqb c newline = false.
Proof. destruct c; simpl; intros H; try discriminate; repeat split. Qed.

Lemma digit_range (c : Byte.byte) : isdigit c = true -> (0 <= digit c <= 9)%Z.
Proof. destruct c; simpl; intros H; try discriminate; unfold digit; simpl; lia. Qed.

Lemma number_parts (t : bytes) :
  number t = true -> exists c t', t = c :: t' /\ isdigit c = true /\ forallb isdigit t' = true.
Proof.
  destruct t as [| c t']; [discriminate |]. simpl. intros H.
  apply andb_true_iff in H. destruct H. exists c, t'. repeat split; assumption.
Qed.

Lemma number_digits (t : bytes) : number t = true -> forallb isdigit t = true.
Proof. destruct t; [discriminate | trivial]. Qed.

Lemma digits_value_fold (t : bytes) (acc : Z) :
  forallb isdigit t = true ->
  digits_value acc t = fold_left (fun a c => (10 * a + digit c)%Z) t acc.
Proof.
  revert acc. induction t as [| c t IH]; intros acc H; [reflexivity |].
  simpl in H. apply andb_true_iff in H. destruct H as [Hc Ht].
  cbn [digits_value fold_left]. rewrite Hc. apply IH. assumption.
Qed.

Lemma fold_digits_nonneg (t : bytes) (acc : Z) :
  forallb isdigit t = true -> (0 <= acc)%Z ->
  (acc <= fold_left (fun a c => (10 * a + digit c)%Z) t acc)%Z.
Proof.
  revert acc. induction t as [| c t IH]; intros acc H Hacc; [simpl; lia |].
  simpl in H. apply andb_true_iff in H. destruct H as [Hc Ht].
  cbn [fold_left]. pose proof (digit_range c Hc).
  specialize (IH (10 * acc + digit c)%Z Ht). lia.
Qed.

Lemma decimal_value_nonneg (t : bytes) : number t = true -> (0 <= decimal_value t)%Z.
Proof.
  intros H. unfold decimal_value.
  apply (fold_digits_nonneg t 0 (number_digits t H)). lia.
Qed.

Lemma atoi_number (t : bytes) :
  number t = true ->
  atoi t = if in_int (decimal_value t) then Returns (decimal_value t) else Undefined.
Proof.
  intros H. destruct (number_parts t H) as (c & t' & -> & Hc & Ht').
  unfold atoi. cbn [skip_spaces]. rewrite (isdigit_not_space c Hc).
  destruct (isdigit_not_sign c Hc) as (-> & -> & _).
  rewrite digits_value_fold by (simpl; rewrite Hc; assumption).
  reflexivity.
Qed.

Lemma c_str_number (t rest : bytes) :
  forallb isdigit t = true -> c_str (t ++ rest) = t ++ c_str rest.
Proof.
  induction t as [| c t IH]; intros H; [reflexivity |].
  simpl in H. apply andb_true_iff in H. destruct H as [Hc Ht].
  cbn [app c_str]. destruct (isdigit_not_sign c Hc) as (_ & _ & -> & _).
  rewrite IH by assumption. reflexivity.
Qed.

Lemma token_number (t rest : bytes) (c : Byte.byte) :
  forallb isdigit t = true -> isspace c = true ->
  token (t ++ c :: rest) = (t, c :: rest).
Proof.
  intros Ht Hc. induction t as [| d t IH].
  - cbn. rewrite Hc. reflexivity.
  - simpl in Ht. apply andb_true_iff in Ht. destruct Ht as [Hd Ht].
    cbn [app token]. rewrite (isdigit_not_space d Hd), IH by assumption. reflexivity.
Qed.

Lemma skip_spaces_number (t rest : bytes) :
  number t = true -> skip_spaces (t ++ rest) = t ++ rest.
Proof.
  intros H. destruct (number_parts t H) as (c & t' & -> & Hc & _).
  cbn. rewrite (isdigit_not_space c Hc). reflexivity.
Qed.

Lemma sscanf_two_numbers (w h : bytes) :
  number w = true -> number h = true ->
  sscanf ((w ++ [space] ++ h) ++ [newline]) = (Some w, Some h).
Proof.
  intros Hw Hh. unfold sscanf.
  rewrite <- !app_assoc. cbn [app].
  rewrite c_str_number by (apply number_digits; assumption).
  cbn [c_str]. change (Byte.eqb space NUL) with false. cbv iota.
  rewrite c_str_number by (apply number_digits; assumption).
  cbn [c_str]. change (Byte.eqb newline NUL) with false. cbv iota.
  rewrite skip_spaces_number by assumption.
  rewrite token_number by (try apply number_digits; trivial).
  destruct (number_parts w Hw) as (c & w' & -> & _ & _).
  cbn [skip_spaces]. change (isspace space) with true. cbv iota.
  rewrite skip_spaces_number by assumption.
  rewrite token_number by (try apply number_digits; trivial).
  destruct (number_parts h Hh) as (d & h' & -> & _ & _).
  reflexivity.
Qed.

Lemma sscanf_one_number (w : bytes) :
  number w = true -> sscanf (w ++ [newline]) = (Some w, None).
Proof.
  intros Hw. unfold sscanf.
  rewrite c_str_number by (apply number_digits; assumption).
  cbn [c_str]. change (Byte.eqb newline NUL) with false. cbv iota.
  rewrite skip_spaces_number by assumption.
  rewrite token_number by (try apply number_digits; trivial).
  destruct (number_parts w Hw) as (c & w' & -> & _ & _).
  reflexivity.
Qed.

Lemma number_no_hash (t rest : bytes) :
  number t = true -> starts_with_hash (t ++ rest) = false.
Proof.
  intros H. destruct (number_parts t H) as (c & t' & -> & Hc & _).
  cbn. apply (isdigit_not_sign c Hc).
Qed.

Lemma well_formed_header_parts (magic : bytes) (cs1 : list bytes) (w h : bytes)
      (cs2 : list bytes) (maxval : bytes) :
  well_formed_header magic cs1 w h cs2 maxval = true ->
  text_line magic = true /\ forallb comment_line cs1 = true /\
  number w = true /\ number h = true /\ text_line (w ++ [space] ++ h) = true /\
  forallb comment_line cs2 = true /\ text_line maxval = true /\
  starts_with_hash maxval = false.
Proof.
  unfold well_formed_header. intros H.
  apply andb_true_iff in H; destruct H as [H H8].
  apply andb_true_iff in H; destruct H as [H H7].
  apply andb_true_iff in H; destruct H as [H H6].
  apply andb_true_iff in H; destruct H as [H H5].
  apply andb_true_iff in H; destruct H as [H H4].
  apply andb_true_iff in H; destruct H as [H H3].
  apply andb_true_iff in H; destruct H as [H1 H2].
  apply negb_true_iff in H8.
  repeat split; assumption.
Qed.

Lemma header_layout (magic : bytes) (cs1 : list bytes) (w h : bytes)
      (cs2 : list bytes) (maxval rest : bytes) :
  header magic cs1 w h cs2 maxval ++ rest
  = magic ++ newline :: (lines cs1 ++ (w ++ [space] ++ h)
                           ++ newline :: (lines cs2 ++ maxval ++ newline :: rest)).
Proof. unfold header. repeat rewrite <- app_assoc. reflexivity. Qed.

Lemma read_opened_header (magic : bytes) (cs1 : list bytes) (w h : bytes)
      (cs2 : list bytes) (maxval rest : bytes) :
  well_formed_header magic cs1 w h cs2 maxval = true ->
  (decimal_value w <= INT_MAX)%Z -> (decimal_value h <= INT_MAX)%Z ->
  (image_size w h <= INT_MAX)%Z ->
  read_opened (header magic cs1 w h cs2 maxval ++ rest)
  = if (0 <? image_size w h)%Z && (image_size w h <=? Z.of_nat (List.length rest))%Z
    then Returns (Startup.MkPPM (Some (firstn (Z.to_nat (image_size w h)) rest))
                                (decimal_value w) (decimal_value h) [])
    else Returns (Startup.MkPPM None 0 0
                    ["error parsing ppm file, incomplete data"%string]).
Proof.
  intros Hwf HW HH Hsize.
  destruct (well_formed_header_parts _ _ _ _ _ _ Hwf)
    as (Hmagic & Hcs1 & Hw & Hh & Hdims & Hcs2 & Hmax & Hmaxh).
  pose proof (decimal_value_nonneg w Hw) as HW0.
  pose proof (decimal_value_nonneg h Hh) as HH0.
  rewrite header_layout. unfold read_opened.
  rewrite fgets_line by assumption.
  rewrite skip_comments_line; try assumption; try lia.
  2:{ apply number_no_hash. assumption. }
  cbn [andThen].
  rewrite sscanf_two_numbers by assumption.
  unfold atoi_buf. rewrite !atoi_number by assumption.
  assert (Hin : forall v, (0 <= v <= INT_MAX)%Z -> in_int v = true).
  { intros v Hv. unfold in_int, INT_MIN, INT_MAX in *.
    apply andb_true_iff. split; apply Z.leb_le; lia. }
  rewrite (Hin (decimal_value w)), (Hin (decimal_value h)) by lia.
  cbn [andThen].
  rewrite skip_comments_line; try assumption; try lia.
  cbn [andThen snd].
  unfold int_mul. unfold image_size in *.
  assert (Hwh : (0 <= decimal_value w * decimal_value h <= INT_MAX)%Z) by nia.
  rewrite (Hin _ Hwh). cbn [andThen].
  rewrite (Hin (decimal_value w * decimal_value h * 3)%Z) by lia.
  cbn [andThen].
  replace (decimal_value w * decimal_value h * 3 <? 0)%Z with false
    by (symmetry; apply Z.ltb_ge; lia).
  reflexivity.
Qed.


(** X20: [loadPPM] reads back what a well-formed file holds.  For a file
    made of a first line, the two sizes in decimal on one line and a third
    line, with comment lines before the second and the third, followed by
    width * height * 3 bytes, it returns exactly those bytes and the two
    sizes, and prints nothing.  The first and the third line are not
    looked at, and bytes after the pixels are ignored. *)
Theorem loadPPM_reads_well_formed
        (fs : Startup.FileSystem) (filename : string)
        (magic : bytes) (comments1 : list bytes) (w h : bytes)
        (comments2 : list bytes) (maxval pixels trailing : bytes) :
  well_formed_header magic comments1 w h comments2 maxval = true ->
  (0 < image_size w h <= INT_MAX)%Z ->
  Z.of_nat (List.length pixels) = image_size w h ->
  fs filename = Some (header magic comments1 w h comments2 maxval ++ pixels ++ trailing) ->
  loadPPM fs filename
  = Returns (Startup.MkPPM (Some pixels) (decimal_value w) (decimal_value h) []).
Proof.
  intros Hwf Hsize Hlen Hfs.
  destruct (well_formed_header_parts _ _ _ _ _ _ Hwf)
    as (_ & _ & Hw & Hh & _).
  pose proof (decimal_value_nonneg w Hw) as HW0.
  pose proof (decimal_value_nonneg h Hh) as HH0.
  unfold image_size in *.
  assert (HW1 : (1 <= decimal_value w)%Z) by nia.
  assert (HH1 : (1 <= decimal_value h)%Z) by nia.
  assert (HWH : (decimal_value w * decimal_value h <= INT_MAX)%Z) by lia.
  assert (HW : (decimal_value w <= INT_MAX)%Z) by nia.
  assert (HH : (decimal_value h <= INT_MAX)%Z) by nia.
  unfold loadPPM. rewrite Hfs.
  rewrite read_opened_header; unfold image_size; try assumption; try lia.
  replace (0 <? decimal_value w * decimal_value h * 3)%Z with true
    by (symmetry; apply Z.ltb_lt; lia).
  replace (decimal_value w * decimal_value h * 3 <=? Z.of_nat (List.length (pixels ++ trailing)))%Z
    with true
    by (symmetry; apply Z.leb_le; rewrite length_app; lia).
  cbn [andb]. rewrite <- Hlen, Nat2Z.id.
  rewrite firstn_app, Nat.sub_diag, firstn_all. cbn [firstn]. rewrite app_nil_r.
  reflexivity.
Qed.

(** X21: a file with fewer bytes after the header than the header
    announces gives the null pointer, width and height 0, and the line
    "error parsing ppm file, incomplete data". *)
Theorem loadPPM_truncated
        (fs : Startup.FileSystem) (filename : string)
        (magic : bytes) (comments1 : list bytes) (w h : bytes)
        (comments2 : list bytes) (maxval pixels : bytes) :
  well_formed_header magic comments1 w h comments2 maxval = true ->
  (0 < image_size w h <= INT_MAX)%Z ->
  (Z.of_nat (List.length pixels) < image_size w h)%Z ->
  fs filename = Some (header magic comments1 w h comments2 maxval ++ pixels) ->
  loadPPM fs filename
  = Returns (Startup.MkPPM None 0 0 ["error parsing ppm file, incomplete data"%string]).
Proof.
  intros Hwf Hsize Hlen Hfs.
  destruct (well_formed_header_parts _ _ _ _ _ _ Hwf)
    as (_ & _ & Hw & Hh & _).
  pose proof (decimal_value_nonneg w Hw) as HW0.
  pose proof (decimal_value_nonneg h Hh) as HH0.
  unfold image_size in *.
  assert (HW1 : (1 <= decimal_value w)%Z) by nia.
  assert (HH1 : (1 <= decimal_value h)%Z) by nia.
  assert (HWH : (decimal_value w * decimal_value h <= INT_MAX)%Z) by lia.
  assert (HW : (decimal_value w <= INT_MAX)%Z) by nia.
  assert (HH : (decimal_value h <= INT_MAX)%Z) by nia.
  unfold loadPPM. rewrite Hfs.
  rewrite read_opened_header; unfold image_size; try assumption; try lia.
  replace (decimal_value w * decimal_value h * 3 <=? Z.of_nat (List.length pixels))%Z
    with false
    by (symmetry; apply Z.leb_gt; lia).
  rewrite andb_false_r. reflexivity.
Qed.

(** X22: an image of width or height 0 is refused like a truncated one,
    whatever follows its header: [fread] of 0 bytes returns 0. *)
Theorem loadPPM_rejects_empty_image
        (fs : Startup.FileSystem) (filename : string)
        (magic : bytes) (comments1 : list bytes) (w h : bytes)
        (comments2 : list bytes) (maxval rest : bytes) :
  well_formed_header magic comments1 w h comments2 maxval = true ->
  (decimal_value w <= INT_MAX)%Z -> (decimal_value h <= INT_MAX)%Z ->
  (decimal_value w = 0 \/ decimal_value h = 0)%Z ->
  fs filename = Some (header magic comments1 w h comments2 maxval ++ rest) ->
  loadPPM fs filename
  = Returns (Startup.MkPPM None 0 0 ["error parsing ppm file, incomplete data"%string]).
Proof.
  intros Hwf HW HH Hz Hfs.
  assert (Hsize : image_size w h = 0%Z) by (unfold image_size; destruct Hz as [-> | ->]; lia).
  unfold loadPPM. rewrite Hfs.
  rewrite read_opened_header; try assumption; [| rewrite Hsize; unfold INT_MAX; lia].
  rewrite Hsize. reflexivity.
Qed.

(** X23: [loadPPM] never returns on a file that ends in a comment: after
    the first line, or after the line of the sizes, a run of comment lines
    up to the end of the file leaves '#' at the head of the buffer, and
    the loop that skips comments goes on for ever. *)
Theorem loadPPM_hangs_in_comments
        (fs : Startup.FileSystem) (filename : string)
        (magic : bytes) (comments1 : list bytes) (w h : bytes) (comments2 : list bytes) :
  text_line magic = true ->
  forallb comment_line comments1 = true -> forallb comment_line comments2 = true ->
  (fs filename = Some (magic ++ [newline] ++ lines comments1) ->
   comments1 <> [] ->
   loadPPM fs filename = Hangs) /\
  (fs filename
   = Some (magic ++ [newline] ++ lines comments1 ++ (w ++ [space] ++ h) ++ [newline]
                 ++ lines comments2) ->
   number w = true -> number h = true -> text_line (w ++ [space] ++ h) = true ->
   (decimal_value w <= INT_MAX)%Z -> (decimal_value h <= INT_MAX)%Z ->
   comments2 <> [] ->
   loadPPM fs filename = Hangs).
Proof.
  intros Hmagic Hcs1 Hcs2.
  assert (Hblock : forall (cs : list bytes) (buf0 : option bytes),
             forallb comment_line cs = true -> cs <> [] ->
             skip_comments (S (List.length (lines cs))) buf0 (lines cs) = Hangs).
  { intros cs buf0 Hcs Hne. destruct cs as [| c cs]; [contradiction |].
    cbn [forallb] in Hcs. apply andb_true_iff in Hcs. destruct Hcs as [Hc Hcs].
    destruct (comment_line_parts c Hc) as [Hct Hch].
    rewrite <- (app_nil_r (lines (c :: cs))). rewrite lines_cons, app_nil_r.
    cbn [skip_comments]. rewrite fgets_line by assumption. rewrite Hch.
    apply skip_comments_hangs; try assumption.
    rewrite length_app. cbn [List.length]. lia. }
  split.
  - intros Hfs Hne. unfold loadPPM. rewrite Hfs. unfold read_opened.
    cbn [app]. rewrite fgets_line by assumption.
    rewrite Hblock by assumption. reflexivity.
  - intros Hfs Hw Hh Hdims HW HH Hne. unfold loadPPM. rewrite Hfs. unfold read_opened.
    cbn [app]. rewrite fgets_line by assumption.
    replace (lines comments1 ++ (w ++ space :: h) ++ newline :: lines comments2)
      with (lines comments1 ++ (w ++ [space] ++ h) ++ newline :: lines comments2)
      by reflexivity.
    rewrite skip_comments_line; try assumption; try lia.
    2:{ apply number_no_hash. assumption. }
    cbn [andThen].
    rewrite sscanf_two_numbers by assumption.
    unfold atoi_buf. rewrite !atoi_number by assumption.
    pose proof (decimal_value_nonneg w Hw) as HW0.
    pose proof (decimal_value_nonneg h Hh) as HH0.
    assert (Hin : forall v, (0 <= v <= INT_MAX)%Z -> in_int v = true).
    { intros v Hv. unfold in_int, INT_MIN, INT_MAX in *.
      apply andb_true_iff. split; apply Z.leb_le; lia. }
    rewrite (Hin (decimal_value w)), (Hin (decimal_value h)) by lia.
    cbn [andThen].
    rewrite Hblock by assumption. reflexivity.
Qed.

(** X24: a file with the width alone on its line, the height on the
    next one as the PPM format allows, makes [loadPPM] call [atoi] on
    [buf[2]], which [sscanf] has not written. *)
Theorem loadPPM_split_dimensions_undefined
        (fs : Startup.FileSystem) (filename : string)
        (magic : bytes) (comments1 : list bytes) (w rest : bytes) :
  text_line magic = true -> forallb comment_line comments1 = true ->
  number w = true -> text_line w = true ->
  fs filename = Some (magic ++ [newline] ++ lines comments1 ++ w ++ [newline] ++ rest) ->
  loadPPM fs filename = Undefined.
Proof.
  intros Hmagic Hcs1 Hw Hwl Hfs. unfold loadPPM. rewrite Hfs. unfold read_opened.
  cbn [app]. rewrite fgets_line by assumption.
  rewrite skip_comments_line; try assumption; try lia.
  2:{ rewrite <- (app_nil_r w). apply number_no_hash. assumption. }
  cbn [andThen].
  rewrite sscanf_one_number by assumption.
  unfold atoi_buf. rewrite atoi_number by assumption.
  destruct (in_int (decimal_value w)); reflexivity.
Qed.

(** The fuel of the loops is enough on every file. *)
Lemma fgets_chars_shorter (room : nat) (fp : bytes) :
  (0 < room)%nat -> fp <> [] ->
  (List.length (snd (fgets_chars room fp)) < List.length fp)%nat.
Proof.
  revert room. induction fp as [| c fp IH]; intros room Hroom Hne; [contradiction |].
  destruct room as [| room]; [lia |].
  cbn [fgets_chars]. destruct (Byte.eqb c newline); [simpl; lia |].
  destruct room as [| room].
  - cbn. lia.
  - destruct fp as [| d fp].
    + cbn. lia.
    + specialize (IH (S room) ltac:(lia) ltac:(discriminate)).
      destruct (fgets_chars (S room) (d :: fp)) as [line fp'] eqn:E.
      cbn [snd List.length] in *. lia.
Qed.

Lemma skip_comments_fuel (fuel : nat) (buf0 : option bytes) (fp : bytes) :
  (List.length fp < fuel)%nat -> skip_comments fuel buf0 fp <> OutOfFuel.
Proof.
  revert buf0 fp. induction fuel as [| fuel IH]; intros buf0 fp H; [lia |].
  cbn [skip_comments]. unfold fgets.
  destruct fp as [| c fp].
  - destruct buf0 as [b |]; [destruct (starts_with_hash b) |]; discriminate.
  - pose proof (fgets_chars_shorter (BUFSIZE - 1) (c :: fp) ltac:(unfold BUFSIZE; simpl; lia)
                                    ltac:(discriminate)) as Hs.
    destruct (fgets_chars (BUFSIZE - 1) (c :: fp)) as [line fp'].
    cbn [snd] in Hs.
    destruct (starts_with_hash line); [| discriminate].
    apply IH. lia.
Qed.

Lemma read_opened_fuel (fp : bytes) : read_opened fp <> OutOfFuel.
Proof.
  unfold read_opened.
  destruct (match fgets fp with Some (line, fp') => (Some line, fp') | None => (None, fp) end)
    as [buf0 fp1].
  pose proof (skip_comments_fuel (S (List.length fp1)) buf0 fp1 ltac:(lia)) as H1.
  destruct (skip_comments (S (List.length fp1)) buf0 fp1) as [[b fp2] | | | |];
    try discriminate; [| contradiction].
  cbn [andThen].
  destruct (sscanf b) as [b1 b2].
  destruct (atoi_buf b1) as [width | | | |] eqn:E1; try discriminate.
  2:{ destruct b1; cbn in E1; [unfold atoi in E1; destruct (in_int _) in E1 |]; discriminate. }
  cbn [andThen].
  destruct (atoi_buf b2) as [height | | | |] eqn:E2; try discriminate.
  2:{ destruct b2; cbn in E2; [unfold atoi in E2; destruct (in_int _) in E2 |]; discriminate. }
  cbn [andThen].
  pose proof (skip_comments_fuel (S (List.length fp2)) (Some b) fp2 ltac:(lia)) as H2.
  destruct (skip_comments (S (List.length fp2)) (Some b) fp2) as [[b' fp3] | | | |];
    try discriminate; [| contradiction].
  cbn [andThen snd].
  unfold int_mul.
  destruct (in_int (width * height)); [| discriminate]. cbn [andThen].
  destruct (in_int (width * height * 3)); [| discriminate]. cbn [andThen].
  destruct (_ <? _)%Z; [discriminate |].
  destruct (_ && _); discriminate.
Qed.


Lemma header_2x1_size : (0 < image_size (text "2") (text "1") <= INT_MAX)%Z.
Proof. vm_compute. split; [reflexivity | discriminate]. Qed.

(** X20 on a file of two pixels with a comment and a trailing byte. *)
Lemma loadPPM_reads_well_formed_witness :
  loadPPM (on_disk (header_2x1 ++ text "abcdef" ++ text "!")) "a.ppm"
  = Returns (Startup.MkPPM (Some (text "abcdef")) (decimal_value (text "2"))
                           (decimal_value (text "1")) []).
Proof.
  exact (loadPPM_reads_well_formed
           (on_disk (header_2x1 ++ text "abcdef" ++ text "!")) "a.ppm"
           (text "P6") [text "# two pixels"] (text "2") (text "1") [] (text "255")
           (text "abcdef") (text "!") eq_refl header_2x1_size eq_refl eq_refl).
Defined.

Lemma header_2x1_short : (Z.of_nat (List.length (text "abc")) < image_size (text "2") (text "1"))%Z.
Proof. vm_compute. reflexivity. Qed.

(** X21 on the same header with three bytes instead of six. *)
Lemma loadPPM_truncated_witness :
  loadPPM (on_disk (header_2x1 ++ text "abc")) "a.ppm"
  = Returns (Startup.MkPPM None 0 0 ["error parsing ppm file, incomplete data"%string]).
Proof.
  exact (loadPPM_truncated
           (on_disk (header_2x1 ++ text "abc")) "a.ppm"
           (text "P6") [text "# two pixels"] (text "2") (text "1") [] (text "255")
           (text "abc") eq_refl header_2x1_size header_2x1_short eq_refl).
Defined.

Lemma header_0x1_sizes :
  (decimal_value (text "0") <= INT_MAX)%Z /\ (decimal_value (text "1") <= INT_MAX)%Z.
Proof. vm_compute. split; discriminate. Qed.

(** X22 on a header of width 0 followed by data. *)
Lemma loadPPM_rejects_empty_image_witness :
  loadPPM (on_disk (header_0x1 ++ text "abcdef")) "a.ppm"
  = Returns (Startup.MkPPM None 0 0 ["error parsing ppm file, incomplete data"%string]).
Proof.
  exact (loadPPM_rejects_empty_image
           (on_disk (header_0x1 ++ text "abcdef")) "a.ppm"
           (text "P6") [] (text "0") (text "1") [] (text "255") (text "abcdef")
           eq_refl (proj1 header_0x1_sizes) (proj2 header_0x1_sizes)
           (or_introl eq_refl) eq_refl).
Defined.

Lemma one_comment : [text "# nothing else"] <> [].
Proof. discriminate. Qed.

(** X23 on a file of a first line and one comment line. *)
Lemma loadPPM_hangs_in_comments_witness :
  loadPPM (on_disk (text "P6" ++ [newline] ++ lines [text "# nothing else"])) "a.ppm"
  = Hangs.
Proof.
  exact (proj1 (loadPPM_hangs_in_comments
                  (on_disk (text "P6" ++ [newline] ++ lines [text "# nothing else"]))
                  "a.ppm" (text "P6") [text "# nothing else"] (text "2") (text "1") []
                  eq_refl eq_refl eq_refl)
               eq_refl one_comment).
Defined.

(** X24 on a file with 2 and 1 on two lines. *)
Lemma loadPPM_split_dimensions_undefined_witness :
  loadPPM (on_disk (text "P6" ++ [newline] ++ lines [] ++ text "2" ++ [newline]
                         ++ text "1" ++ [newline] ++ text "255" ++ [newline]
                         ++ text "abcdef")) "a.ppm"
  = Undefined.
Proof.
  exact (loadPPM_split_dimensions_undefined
           (on_disk (text "P6" ++ [newline] ++ lines [] ++ text "2" ++ [newline]
                          ++ text "1" ++ [newline] ++ text "255" ++ [newline]
                          ++ text "abcdef")) "a.ppm"
           (text "P6") [] (text "2")
           (text "1" ++ [newline] ++ text "255" ++ [newline] ++ text "abcdef")
           eq_refl eq_refl eq_refl eq_refl eq_refl).
Defined.
End PpmFileFacts.

(** ** The constructor *)

Module ConstructionFacts.
Import Startup Construction.

Lemma bind_returns {A B : Type} (c : Ctor A) (k : A -> Ctor B) (st st1 : CtorState) (a : A) :
  c st = (PpmFile.Returns a, st1) -> bind c k st = k a st1.
Proof. intros H. unfold bind. rewrite H. reflexivity. Qed.

Lemma bind_returns_inv {A B : Type} (c : Ctor A) (k : A -> Ctor B) (st st2 : CtorState)
      (b : B) :
  bind c k st = (PpmFile.Returns b, st2) ->
  exists a st1, c st = (PpmFile.Returns a, st1) /\ k a st1 = (PpmFile.Returns b, st2).
Proof.
  unfold bind. destruct (c st) as [[a | | | |] st1]; intros H; try discriminate H.
  exists a, st1. split; [reflexivity | exact H].
Qed.

Section Files.
Variable fs : FileSystem.

Lemma load_returns (filename : string) (p : PPM) (st : CtorState) :
  PpmFile.loadPPM fs filename = PpmFile.Returns p ->
  load fs filename st = (PpmFile.Returns (rawData p), loaded p st).
Proof. intros H. unfold load. rewrite H. reflexivity. Qed.

Lemma load_returns_inv (filename : string) (d : option bytes) (st st' : CtorState) :
  load fs filename st = (PpmFile.Returns d, st') ->
  exists p, PpmFile.loadPPM fs filename = PpmFile.Returns p.
Proof.
  unfold load. destruct (PpmFile.loadPPM fs filename) as [p | | | |]; intros H;
    try discriminate H.
  exists p. reflexivity.
Qed.

Lemma load_faces_returns (image : string -> PPM) (filenames : list string) (st : CtorState) :
  (forall n, In n filenames -> PpmFile.loadPPM fs n = PpmFile.Returns (image n)) ->
  load_faces fs filenames st
  = (PpmFile.Returns (map (fun n => rawData (image n)) filenames),
     fold_left (fun st n => loaded (image n) st) filenames st).
Proof.
  revert st. induction filenames as [| f rest IH]; intros st H; [reflexivity |].
  cbn [load_faces map fold_left].
  rewrite (bind_returns _ _ _ _ _ (load_returns f (image f) st (H f (or_introl eq_refl)))).
  rewrite (bind_returns _ _ _ _ _ (IH (loaded (image f) st)
                                      (fun n Hn => H n (or_intror Hn)))).
  reflexivity.
Qed.

Lemma load_faces_returns_inv (filenames : list string) (ds : list (option bytes))
      (st st' : CtorState) :
  load_faces fs filenames st = (PpmFile.Returns ds, st') ->
  forall n, In n filenames -> exists p, PpmFile.loadPPM fs n = PpmFile.Returns p.
Proof.
  revert ds st st'. induction filenames as [| f rest IH]; intros ds st st' H n Hn;
    [contradiction |].
  cbn [load_faces] in H.
  apply bind_returns_inv in H. destruct H as (d & st1 & Hload & H).
  apply bind_returns_inv in H. destruct H as (ds' & st2 & Hrest & _).
  destruct Hn as [<- | Hn].
  - exact (load_returns_inv _ _ _ _ Hload).
  - exact (IH _ _ _ Hrest n Hn).
Qed.

Lemma load_skybox_returns (image : string -> PPM) (filenames : list string) (st : CtorState) :
  (forall n, In n filenames -> PpmFile.loadPPM fs n = PpmFile.Returns (image n)) ->
  load_skybox fs filenames st
  = loadBoxTexture (map (fun n => rawData (image n)) filenames)
                   (imgWidth (fold_left (fun st n => loaded (image n) st) filenames st))
                   (imgWidth (fold_left (fun st n => loaded (image n) st) filenames st))
                   (fold_left (fun st n => loaded (image n) st) filenames st).
Proof.
  intros H. unfold load_skybox.
  rewrite (bind_returns _ _ _ _ _ (load_faces_returns image filenames st H)).
  reflexivity.
Qed.

Lemma load_skybox_returns_inv (filenames : list string) (st st' : CtorState) :
  load_skybox fs filenames st = (PpmFile.Returns tt, st') ->
  forall n, In n filenames -> exists p, PpmFile.loadPPM fs n = PpmFile.Returns p.
Proof.
  unfold load_skybox. intros H.
  apply bind_returns_inv in H. destruct H as (ds & st1 & Hfaces & _).
  exact (load_faces_returns_inv _ _ _ _ Hfaces).
Qed.

Lemma load_wall_returns (image : string -> PPM) (filename : string) (st : CtorState) :
  PpmFile.loadPPM fs filename = PpmFile.Returns (image filename) ->
  load_wall fs filename st
  = (PpmFile.Returns tt,
     MkCtorState (width (image filename)) (height (image filename))
                 (uploads st ++ [wall_upload image filename])
                 (cerr st ++ cerr_lines (image filename))).
Proof.
  intros H. unfold load_wall.
  rewrite (bind_returns _ _ _ _ _ (load_returns filename (image filename) st H)).
  reflexivity.
Qed.

Lemma load_walls_returns (image : string -> PPM) (filenames : list string) (st : CtorState) :
  (forall n, In n filenames -> PpmFile.loadPPM fs n = PpmFile.Returns (image n)) ->
  load_walls fs filenames st
  = (PpmFile.Returns tt,
     fold_left (fun st n =>
                  MkCtorState (width (image n)) (height (image n))
                              (uploads st ++ [wall_upload image n])
                              (cerr st ++ cerr_lines (image n)))
               filenames st).
Proof.
  revert st. induction filenames as [| f rest IH]; intros st H; [reflexivity |].
  cbn [load_walls fold_left].
  rewrite (bind_returns _ _ _ _ _ (load_wall_returns image f st (H f (or_introl eq_refl)))).
  apply IH. intros n Hn. exact (H n (or_intror Hn)).
Qed.

Lemma load_walls_returns_inv (filenames : list string) (st st' : CtorState) :
  load_walls fs filenames st = (PpmFile.Returns tt, st') ->
  forall n, In n filenames -> exists p, PpmFile.loadPPM fs n = PpmFile.Returns p.
Proof.
  revert st st'. induction filenames as [| f rest IH]; intros st st' H n Hn;
    [contradiction |].
  cbn [load_walls] in H.
  apply bind_returns_inv in H. destruct H as ([] & st1 & Hwall & Hrest).
  destruct Hn as [<- | Hn].
  - unfold load_wall in Hwall.
    apply bind_returns_inv in Hwall. destruct Hwall as (d & st2 & Hload & _).
    exact (load_returns_inv _ _ _ _ Hload).
  - exact (IH _ _ Hrest n Hn).
Qed.

(** The constructor when every load returns. *)
Lemma load_textures_returns (image : string -> PPM) :
  loads fs image ->
  load_textures fs ctor_start = (PpmFile.Returns tt, ctor_end image).
Proof.
  intros H. unfold loads, texture_assets in H.
  assert (Hbox : PpmFile.loadPPM fs asset_box = PpmFile.Returns (image asset_box))
    by (apply H; left; reflexivity).
  assert (Hleft : forall n, In n assets_left ->
                            PpmFile.loadPPM fs n = PpmFile.Returns (image n))
    by (intros n Hn; apply H; right; apply in_or_app; left; exact Hn).
  assert (Hright : forall n, In n assets_right ->
                             PpmFile.loadPPM fs n = PpmFile.Returns (image n))
    by (intros n Hn; apply H; right; apply in_or_app; right; apply in_or_app; left;
        exact Hn).
  assert (Hbsk : forall n, In n assets_bsk ->
                           PpmFile.loadPPM fs n = PpmFile.Returns (image n))
    by (intros n Hn; apply H; right; apply in_or_app; right; apply in_or_app; right;
        apply in_or_app; left; exact Hn).
  assert (Hwalls : forall n, In n assets_walls ->
                             PpmFile.loadPPM fs n = PpmFile.Returns (image n))
    by (intros n Hn; apply H; right; apply in_or_app; right; apply in_or_app; right;
        apply in_or_app; right; exact Hn).
  unfold load_textures.
  rewrite (bind_returns _ _ _ _ _ (load_returns asset_box (image asset_box) ctor_start Hbox)).
  unfold bind at 1 2 3. cbn [width_now height_now loadBoxTexture].
  unfold bind at 1. rewrite (load_skybox_returns image assets_left _ Hleft).
  cbn [loadBoxTexture].
  unfold bind at 1. rewrite (load_skybox_returns image assets_right _ Hright).
  cbn [loadBoxTexture].
  unfold bind at 1. rewrite (load_skybox_returns image assets_bsk _ Hbsk).
  cbn [loadBoxTexture].
  rewrite (load_walls_returns image assets_walls _ Hwalls).
  unfold ctor_end, ctor_uploads, ctor_cerr, box_upload, texture_assets, loaded, ctor_start,
    assets_left, assets_right, assets_bsk, assets_walls.
  cbn [fold_left imgWidth imgHeight uploads cerr width height map flat_map app last].
  rewrite <- ?app_assoc. cbn [app]. rewrite ?app_nil_r. reflexivity.
Qed.

Lemma ctor_returns (image : string -> PPM) (Quad_vertices : verts4) (hands : arr2 ovrPosef) :
  loads fs image ->
  ColorCubeScene_ctor fs Quad_vertices hands ctor_start
  = (PpmFile.Returns (initial_scene Quad_vertices hands), ctor_end image).
Proof.
  intros H. unfold ColorCubeScene_ctor.
  rewrite (bind_returns _ _ _ _ _ (load_textures_returns image H)). reflexivity.
Qed.

(** Every file is one on which [loadPPM] returns, when the loads of the
    constructor return. *)
Lemma load_textures_returns_inv (st' : CtorState) :
  load_textures fs ctor_start = (PpmFile.Returns tt, st') ->
  Assets.assets_readable fs.
Proof.
  unfold load_textures. intros H.
  apply bind_returns_inv in H. destruct H as (d & st1 & Hbox & H).
  apply bind_returns_inv in H. destruct H as (w & st2 & _ & H).
  apply bind_returns_inv in H. destruct H as (h & st3 & _ & H).
  apply bind_returns_inv in H. destruct H as ([] & st4 & _ & H).
  apply bind_returns_inv in H. destruct H as ([] & st5 & Hleft & H).
  apply bind_returns_inv in H. destruct H as ([] & st6 & Hright & H).
  apply bind_returns_inv in H. destruct H as ([] & st7 & Hbsk & Hwalls).
  intros name Hin. unfold texture_assets in Hin.
  destruct Hin as [<- | Hin]; [exact (load_returns_inv _ _ _ _ Hbox) |].
  apply in_app_or in Hin. destruct Hin as [Hin | Hin];
    [exact (load_skybox_returns_inv _ _ _ Hleft name Hin) |].
  apply in_app_or in Hin. destruct Hin as [Hin | Hin];
    [exact (load_skybox_returns_inv _ _ _ Hright name Hin) |].
  apply in_app_or in Hin. destruct Hin as [Hin | Hin];
    [exact (load_skybox_returns_inv _ _ _ Hbsk name Hin) |].
  exact (load_walls_returns_inv _ _ _ Hwalls name Hin).
Qed.

Lemma readable_loads : Assets.assets_readable fs -> exists image, loads fs image.
Proof.
  intros H.
  exists (fun n => match PpmFile.loadPPM fs n with
                   | PpmFile.Returns p => p
                   | _ => MkPPM None 0 0 []
                   end).
  intros name Hin. destruct (H name Hin) as [p Hp]. rewrite Hp. reflexivity.
Qed.

Lemma loads_readable (image : string -> PPM) : loads fs image -> Assets.assets_readable fs.
Proof. intros H name Hin. exists (image name). exact (H name Hin). Qed.

Lemma ctor_returns_iff (Quad_vertices : verts4) (hands : arr2 ovrPosef) :
  (exists s st', ColorCubeScene_ctor fs Quad_vertices hands ctor_start
                 = (PpmFile.Returns s, st'))
  <-> Assets.assets_readable fs.
Proof.
  split.
  - intros (s & st' & H). unfold ColorCubeScene_ctor in H.
    apply bind_returns_inv in H. destruct H as ([] & st1 & H & _).
    exact (load_textures_returns_inv st1 H).
  - intros H. destruct (readable_loads H) as [image Himage].
    eexists; eexists. exact (ctor_returns image Quad_vertices hands Himage).
Qed.








End Files.

Lemma ctor_uploads_box (image : string -> PPM) (filenames : list string) :
  In filenames [assets_left; assets_right; assets_bsk] ->
  In (box_upload image filenames) (ctor_uploads image).
Proof.
  unfold ctor_uploads. intros [<- | [<- | [<- | []]]].
  - right; left; reflexivity.
  - right; right; left; reflexivity.
  - right; right; right; left; reflexivity.
Qed.


(** The constructor ends with its first load when that one throws. *)
Lemma ctor_throws (fs : FileSystem) (Quad_vertices : verts4) (hands : arr2 ovrPosef) :
  PpmFile.loadPPM fs asset_box = PpmFile.Throws ->
  ColorCubeScene_ctor fs Quad_vertices hands ctor_start = (PpmFile.Throws, ctor_start).
Proof.
  intros H. unfold ColorCubeScene_ctor, load_textures, bind, load. rewrite H. reflexivity.
Qed.

(** A header with a negative width: [new unsigned char[-3]] throws. *)
Lemma negative_size_throws :
  PpmFile.read_opened
    (PpmFile.text "P6" ++ [PpmFile.newline] ++ PpmFile.text "-1 1" ++ [PpmFile.newline]
                  ++ PpmFile.text "255" ++ [PpmFile.newline])
  = PpmFile.Throws.
Proof. vm_compute. reflexivity. Qed.

Lemma no_files_loads :
  loads no_files
        (fun n => MkPPM None 0 0
                        [String.append "error reading ppm file, could not locate " n]).
Proof. intros name _. reflexivity. Qed.

End ConstructionFacts.

(** ** What [loadPPM] promises, and the size of a skybox *)

Module AssetsFacts.
Import PpmFile PpmFileFacts Assets.

Lemma atoi_buf_cases (b : option bytes) :
  (exists v, atoi_buf b = Returns v) \/ atoi_buf b = Undefined.
Proof.
  destruct b as [s |]; [| right; reflexivity].
  cbn [atoi_buf]. unfold atoi. destruct (in_int _); [left; eexists; reflexivity | right; reflexivity].
Qed.

Lemma read_opened_returns (fp : bytes) (p : Startup.PPM) :
  read_opened fp = Returns p ->
  (exists data w h,
      p = Startup.MkPPM (Some data) w h [] /\
      Z.of_nat (List.length data) = (w * h * 3)%Z /\ (0 < w * h)%Z) \/
  p = Startup.MkPPM None 0 0 ["error parsing ppm file, incomplete data"%string].
Proof.
  unfold read_opened.
  destruct (match fgets fp with Some (line, fp') => (Some line, fp') | None => (None, fp) end)
    as [buf0 fp1].
  destruct (skip_comments (S (List.length fp1)) buf0 fp1) as [[b fp2] | | | |];
    try discriminate.
  cbn [andThen].
  destruct (sscanf b) as [b1 b2].
  destruct (atoi_buf_cases b1) as [[width ->] | ->]; [| discriminate].
  cbn [andThen].
  destruct (atoi_buf_cases b2) as [[height ->] | ->]; [| discriminate].
  cbn [andThen].
  destruct (skip_comments (S (List.length fp2)) (Some b) fp2) as [[b' fp3] | | | |];
    try discriminate.
  cbn [andThen snd].
  unfold int_mul.
  destruct (in_int (width * height)); [| discriminate]. cbn [andThen].
  destruct (in_int (width * height * 3)); [| discriminate]. cbn [andThen].
  destruct (width * height * 3 <? 0)%Z eqn:Hneg; [discriminate |].
  destruct ((0 <? width * height * 3)%Z && (width * height * 3 <=? Z.of_nat (List.length fp3))%Z)
    eqn:Hfit; intros H; injection H as <-.
  - left. apply andb_true_iff in Hfit. destruct Hfit as [Hpos Hle].
    apply Z.ltb_lt in Hpos. apply Z.leb_le in Hle.
    eexists; eexists; eexists. split; [reflexivity |].
    rewrite length_firstn, Nat.min_l by lia.
    rewrite Z2Nat.id by lia. split; lia.
  - right. reflexivity.
Qed.

Lemma loadPPM_contract_holds (fs : Startup.FileSystem) (filename : string) (p : Startup.PPM) :
  loadPPM fs filename = Returns p -> contract p.
Proof.
  unfold loadPPM. destruct (fs filename) as [fp |].
  - intros H. destruct (read_opened_returns fp p H) as [(data & w & h & -> & Hl & Hp) | ->];
      unfold contract; cbn; repeat split; assumption.
  - intros H. injection H as <-. unfold contract; cbn. repeat split.
Qed.

Lemma read_opened_pixels (magic : bytes) (comments1 : list bytes) (w h : bytes)
      (comments2 : list bytes) (maxval pixels trailing : bytes) :
  well_formed_header magic comments1 w h comments2 maxval = true ->
  (0 < image_size w h <= INT_MAX)%Z ->
  Z.of_nat (List.length pixels) = image_size w h ->
  read_opened (header magic comments1 w h comments2 maxval ++ pixels ++ trailing)
  = Returns (Startup.MkPPM (Some pixels) (decimal_value w) (decimal_value h) []).
Proof.
  intros Hwf Hsize Hlen.
  destruct (well_formed_header_parts _ _ _ _ _ _ Hwf)
    as (_ & _ & Hw & Hh & _).
  pose proof (decimal_value_nonneg w Hw) as HW0.
  pose proof (decimal_value_nonneg h Hh) as HH0.
  unfold image_size in *.
  assert (HW1 : (1 <= decimal_value w)%Z) by nia.
  assert (HH1 : (1 <= decimal_value h)%Z) by nia.
  assert (HW : (decimal_value w <= INT_MAX)%Z) by nia.
  assert (HH : (decimal_value h <= INT_MAX)%Z) by nia.
  rewrite read_opened_header; unfold image_size; try assumption; try lia.
  replace (0 <? decimal_value w * decimal_value h * 3)%Z with true
    by (symmetry; apply Z.ltb_lt; lia).
  replace (decimal_value w * decimal_value h * 3 <=? Z.of_nat (List.length (pixels ++ trailing)))%Z
    with true
    by (symmetry; apply Z.leb_le; rewrite length_app; lia).
  cbn [andb]. rewrite <- Hlen, Nat2Z.id.
  rewrite firstn_app, Nat.sub_diag, firstn_all. cbn [firstn]. rewrite app_nil_r.
  reflexivity.
Qed.

(** X26: [loadPPM] keeps the promise of the comment above it whenever it
    returns: a null pointer comes with width and height 0 and one line
    on [cerr]; any other pointer comes with exactly width * height * 3
    bytes, a positive number, and nothing printed.  The loops of the
    model never run out of fuel: every pass that goes on has read at
    least one byte. *)
Theorem loadPPM_keeps_its_contract (fs : Startup.FileSystem) (filename : string) :
  loadPPM fs filename <> OutOfFuel /\
  (forall p, loadPPM fs filename = Returns p -> contract p).
Proof.
  split.
  - unfold loadPPM. destruct (fs filename) as [fp |]; [apply read_opened_fuel | discriminate].
  - intros p. apply loadPPM_contract_holds.
Qed.

(** X27: when the sixth face of a skybox is a well-formed file of W x H
    pixels, and [loadPPM] returns on every file of the constructor, the
    cube map is uploaded with that face's W * H * 3 bytes but declared as
    W x W; for H different from W the declared size is not the size of
    the data. *)
Theorem skybox_declared_size
        (fs : Startup.FileSystem) (Quad_vertices : verts4) (hands : arr2 ovrPosef)
        (names : list string)
        (magic : bytes) (comments1 : list bytes) (w h : bytes)
        (comments2 : list bytes) (maxval pixels trailing : bytes) :
  assets_readable fs ->
  In names [Startup.assets_left; Startup.assets_right; Startup.assets_bsk] ->
  well_formed_header magic comments1 w h comments2 maxval = true ->
  (0 < image_size w h <= INT_MAX)%Z ->
  Z.of_nat (List.length pixels) = image_size w h ->
  fs (last names EmptyString)
  = Some (header magic comments1 w h comments2 maxval ++ pixels ++ trailing) ->
  exists faces,
    In (Startup.BoxTexture faces (decimal_value w) (decimal_value w))
       (Startup.uploads
          (snd (Construction.ColorCubeScene_ctor fs Quad_vertices hands
                                                 Startup.ctor_start))) /\
    nth 5 faces None = Some pixels /\
    (decimal_value h <> decimal_value w ->
     Z.of_nat (List.length pixels) <> (decimal_value w * decimal_value w * 3)%Z).
Proof.
  intros Hread Hnames Hwf Hsize Hlen Hfs.
  destruct (ConstructionFacts.readable_loads fs Hread) as [image Himage].
  assert (Hlast : In (last names EmptyString) Startup.texture_assets).
  { unfold Startup.texture_assets. right.
    destruct Hnames as [<- | [<- | [<- | []]]].
    - apply in_or_app; left. do 5 right. left. reflexivity.
    - apply in_or_app; right. apply in_or_app; left. do 5 right. left. reflexivity.
    - apply in_or_app; right. apply in_or_app; right. apply in_or_app; left.
      do 5 right. left. reflexivity. }
  assert (Hload : image (last names EmptyString)
                  = Startup.MkPPM (Some pixels) (decimal_value w) (decimal_value h) []).
  { pose proof (Himage _ Hlast) as E. unfold loadPPM in E. rewrite Hfs in E.
    rewrite (read_opened_pixels _ _ _ _ _ _ _ _ Hwf Hsize Hlen) in E.
    injection E as E. symmetry. exact E. }
  rewrite (ConstructionFacts.ctor_returns fs image Quad_vertices hands Himage).
  cbn [snd Construction.ctor_end Startup.uploads].
  exists (map (fun n => Startup.rawData (image n)) names).
  split; [| split].
  - replace (decimal_value w) with (Startup.width (image (last names EmptyString)))
      by (rewrite Hload; reflexivity).
    exact (ConstructionFacts.ctor_uploads_box image names Hnames).
  - transitivity (Startup.rawData (image (last names EmptyString))).
    + destruct Hnames as [<- | [<- | [<- | []]]]; reflexivity.
    + rewrite Hload. reflexivity.
  - intros Hne Heq. rewrite Hlen in Heq. unfold image_size in *.
    apply Hne. apply (Z.mul_reg_l _ _ (decimal_value w)); [| lia].
    intros E. rewrite E in Hsize. lia.
Qed.

Lemma one_file_readable (content : bytes) (p : Startup.PPM) :
  read_opened content = Returns p -> assets_readable (on_disk content).
Proof. intros H name _. exists p. exact H. Qed.

(** X27 with the two-pixel file for every asset. *)
Lemma skybox_declared_size_witness :
  exists faces,
    In (Startup.BoxTexture faces (decimal_value (text "2")) (decimal_value (text "2")))
       (Startup.uploads
          (snd (Construction.ColorCubeScene_ctor
                  (on_disk (header_2x1 ++ text "abcdef" ++ [])) OffAxis.unit_quad
                  (Arr2 pose0 pose0) Startup.ctor_start))) /\
    nth 5 faces None = Some (text "abcdef") /\
    (decimal_value (text "1") <> decimal_value (text "2") ->
     Z.of_nat (List.length (text "abcdef"))
     <> (decimal_value (text "2") * decimal_value (text "2") * 3)%Z).
Proof.
  exact (skybox_declared_size
           (on_disk (header_2x1 ++ text "abcdef" ++ [])) OffAxis.unit_quad (Arr2 pose0 pose0)
           Startup.assets_left
           (text "P6") [text "# two pixels"] (text "2") (text "1") [] (text "255")
           (text "abcdef") []
           (one_file_readable _ _
              (read_opened_pixels (text "P6") [text "# two pixels"] (text "2") (text "1") []
                                  (text "255") (text "abcdef") [] eq_refl header_2x1_size
                                  eq_refl))
           (or_introl eq_refl) eq_refl header_2x1_size eq_refl eq_refl).
Defined.
End AssetsFacts.

(** ** Start-up *)

Module StartupFacts.
Import Startup Construction ConstructionFacts.





End StartupFacts.

(** ** The textures of the constructor *)

Module StartupMore.
Import Startup Construction.

(** X25: whenever the constructor returns, every one of its calls of
    [loadPPM] has returned, and it has made ten uploads.  Every skybox is
    uploaded as a square whose side is the width of the sixth face it has
    loaded: the heights of the files and the widths of the first five
    faces are not used.  The calibration cube is one image six times, with
    the width and the height of its file, and the six walls follow with
    theirs. *)
Theorem skybox_uploaded_square
        (fs : FileSystem) (Quad_vertices : verts4) (hands : arr2 ovrPosef)
        (s : ColorCubeScene) (st' : CtorState) :
  ColorCubeScene_ctor fs Quad_vertices hands ctor_start = (PpmFile.Returns s, st') ->
  exists image,
    loads fs image /\
    let skybox names :=
        BoxTexture (map (fun n => rawData (image n)) names)
                   (width (image (last names EmptyString)))
                   (width (image (last names EmptyString))) in
    uploads st'
    = BoxTexture (repeat (rawData (image asset_box)) 6)
                 (width (image asset_box)) (height (image asset_box))
      :: skybox assets_left :: skybox assets_right :: skybox assets_bsk
      :: map (fun n => QuadTexture (rawData (image n)) (width (image n)) (height (image n)))
             assets_walls /\
    (forall faces w h,
        In (BoxTexture faces w h) (tl (uploads st')) ->
        w = h /\ List.length faces = 6%nat).
Proof.
  intros Hret.
  assert (Hread : Assets.assets_readable fs).
  { apply (ConstructionFacts.ctor_returns_iff fs Quad_vertices hands).
    exists s, st'. exact Hret. }
  destruct (ConstructionFacts.readable_loads fs Hread) as [image Himage].
  exists image. split; [exact Himage |].
  rewrite (ConstructionFacts.ctor_returns fs image Quad_vertices hands Himage) in Hret.
  injection Hret as _ <-.
  intros skybox. split; [reflexivity |].
  cbn [uploads ctor_end ctor_uploads tl]. intros faces w h Hin.
  destruct Hin as [H | [H | [H | H]]].
  - injection H as <- <- <-. split; reflexivity.
  - injection H as <- <- <-. split; reflexivity.
  - injection H as <- <- <-. split; reflexivity.
  - cbn in H. repeat (destruct H as [H | H]; [discriminate H |]). contradiction.
Qed.

(** X25 when no file can be opened. *)
Lemma skybox_uploaded_square_witness :
  exists image,
    loads no_files image /\
    let skybox names :=
        BoxTexture (map (fun n => rawData (image n)) names)
                   (width (image (last names EmptyString)))
                   (width (image (last names EmptyString))) in
    uploads (ctor_end (fun n => MkPPM None 0 0
                                      [String.append "error reading ppm file, could not locate " n]))
    = BoxTexture (repeat (rawData (image asset_box)) 6)
                 (width (image asset_box)) (height (image asset_box))
      :: skybox assets_left :: skybox assets_right :: skybox assets_bsk
      :: map (fun n => QuadTexture (rawData (image n)) (width (image n)) (height (image n)))
             assets_walls /\
    (forall faces w h,
        In (BoxTexture faces w h)
           (tl (uploads (ctor_end (fun n => MkPPM None 0 0
                                      [String.append "error reading ppm file, could not locate " n])))) ->
        w = h /\ List.length faces = 6%nat).
Proof.
  exact (skybox_uploaded_square
           no_files OffAxis.unit_quad (Arr2 pose0 pose0) scene0 _
           (ConstructionFacts.ctor_returns no_files _ OffAxis.unit_quad (Arr2 pose0 pose0)
                                           ConstructionFacts.no_files_loads)).
Defined.

End StartupMore.

(** ** The application *)

Module AppFacts.
Import App.
Local Open Scope Z_scope.

Lemma loop_step_bind {A B : Type} (c : Run A) (k : A -> Run B) :
  loop_step c -> (forall a, loop_step (k a)) -> loop_step (bind c k).
Proof.
  intros Hc Hk st. unfold bind.
  destruct (Hc st) as (e1 & E1 & F1 & W1 & S1).
  destruct (c st) as [[a | what | | | |] st1]; cbn [snd] in *;
    try (exists e1; repeat split; assumption).
  destruct (Hk a st1) as (e2 & E2 & F2 & W2 & S2).
  exists (e1 ++ e2). rewrite E2, E1, app_assoc, W2, S2.
  repeat split; try assumption. apply Forall_app; split; assumption.
Qed.

Lemma loop_step_ret {A : Type} (a : A) : loop_step (ret a).
Proof. intros st. exists []. cbn. rewrite app_nil_r. repeat split; constructor. Qed.

Lemma loop_step_FAIL {A : Type} (X : string) : loop_step (@FAIL A X).
Proof. intros st. exists []. cbn. rewrite app_nil_r. repeat split; constructor. Qed.

Lemma loop_step_call (c : Call) : loop_call c -> loop_step (call c).
Proof.
  intros H st. exists [c]. cbn. repeat split. constructor; [assumption | constructor].
Qed.

Lemma loop_step_get {A : Type} (f : AppState -> A) : loop_step (get f).
Proof. intros st. exists []. cbn. rewrite app_nil_r. repeat split; constructor. Qed.

Lemma loop_step_set_should_close (v : bool) : loop_step (modify (set_should_close v)).
Proof. intros st. exists []. cbn. rewrite app_nil_r. repeat split; constructor. Qed.

Lemma loop_step_deliver (e : Event) : loop_step (deliver e).
Proof.
  destruct e as [key action | | description]; cbn [deliver].
  - unfold RiftApp_onKey, GlfwApp_onKey.
    destruct ((action =? GLFW_PRESS) && (key =? GLFW_KEY_R)).
    + apply loop_step_call; exact I.
    + destruct (negb (action =? GLFW_PRESS)); [apply loop_step_ret |].
      destruct (key =? GLFW_KEY_ESCAPE); [| apply loop_step_ret].
      apply loop_step_bind; [apply loop_step_call; exact I |].
      intros _. apply loop_step_set_should_close.
  - apply loop_step_set_should_close.
  - apply loop_step_FAIL.
Qed.

Lemma loop_step_deliver_all (events : list Event) : loop_step (deliver_all events).
Proof.
  induction events as [| e rest IH]; cbn [deliver_all].
  - apply loop_step_ret.
  - apply loop_step_bind; [apply loop_step_deliver | intros _; exact IH].
Qed.

Lemma loop_step_frame_loop (polls : list (list Event)) : loop_step (frame_loop polls).
Proof.
  induction polls as [| events rest IH]; intros st; cbn [frame_loop].
  - destruct (should_close st); exists []; cbn; rewrite app_nil_r; repeat split; constructor.
  - destruct (should_close st).
    + exists []; cbn; rewrite app_nil_r; repeat split; constructor.
    + revert st.
      change (loop_step
                (modify (fun st => set_frame (RiftLayout.to_uint (frame st + 1)) st) ;;;
                 call glfwPollEvents ;;;
                 deliver_all events ;;;
                 n <- get frame ;;
                 call (draw n) ;;;
                 call glfwSwapBuffers ;;;
                 frame_loop rest)).
      apply loop_step_bind.
      { intros st. exists []. cbn. rewrite app_nil_r. repeat split; constructor. }
      intros _. apply loop_step_bind; [apply loop_step_call; exact I |].
      intros _. apply loop_step_bind; [apply loop_step_deliver_all |].
      intros _. apply loop_step_bind; [apply loop_step_get |].
      intros n. apply loop_step_bind; [apply loop_step_call; exact I |].
      intros _. apply loop_step_bind; [apply loop_step_call; exact I |].
      intros _. exact IH.
Qed.


Lemma reaches_loads_parts (p : Platform) :
  reaches_loads p = true ->
  ovr_Initialize_ok p = true /\ glfwInit_ok p = true /\ ovr_Create_ok p = true /\
  glfwCreateWindow_answer p = WindowCreated /\ glewInit_ok p = true /\
  swap_chain_ok p = true /\
  (exists n, swap_chain_length p = Some n /\ (n =? 0) = false) /\
  mirror_texture_ok p = true /\ scene_exception p = None.
Proof.
  unfold reaches_loads. intros H.
  apply andb_true_iff in H; destruct H as [H H9].
  apply andb_true_iff in H; destruct H as [H H8].
  apply andb_true_iff in H; destruct H as [H H7].
  apply andb_true_iff in H; destruct H as [H H6].
  apply andb_true_iff in H; destruct H as [H H5].
  apply andb_true_iff in H; destruct H as [H H4].
  apply andb_true_iff in H; destruct H as [H H3].
  apply andb_true_iff in H; destruct H as [H1 H2].
  repeat split; try assumption.
  - destruct (glfwCreateWindow_answer p); [reflexivity | discriminate].
  - destruct (swap_chain_length p) as [n |]; [| discriminate].
    exists n. split; [reflexivity |]. apply negb_true_iff. assumption.
  - destruct (scene_exception p); [discriminate | reflexivity].
Qed.

(** The calls of the start-up before the lines of the scene's loads. *)
Lemma startup_calls_parts (p : Platform) :
  exists before,
    startup_calls p = before ++ map cerr (scene_lines p) /\
    filter is_cerr before = [] /\
    (forall c, In c before ->
               c <> ovr_Shutdown /\ c <> delete_ColorCubeScene /\ c <> glfwTerminate /\
               c <> ovr_Destroy /\ c <> glfwDestroyWindow /\ forall n, c <> draw n).
Proof.
  eexists. split; [reflexivity |]. split; [reflexivity |].
  intros c Hin. cbn [In] in Hin.
  repeat (destruct Hin as [<- | Hin];
          [repeat split; try discriminate; intros; discriminate |]).
  contradiction.
Qed.

Lemma in_map_cerr (c : Call) (lines : list string) :
  In c (map cerr lines) -> is_cerr c = true.
Proof. intros H. apply in_map_iff in H. destruct H as (line & <- & _). reflexivity. Qed.

Lemma filter_map_cerr (lines : list string) : filter is_cerr (map cerr lines) = map cerr lines.
Proof. induction lines as [| line rest IH]; [reflexivity |]. cbn. rewrite IH. reflexivity. Qed.

(** The start of a run that reaches the loads of the scene's
    constructor, as far as the end of the loads. *)
Lemma try_block_reaches_loads (p : Platform) :
  reaches_loads p = true ->
  try_block p app0
  = finally (match fst (Construction.load_textures (files p) Startup.ctor_start) with
             | PpmFile.Returns _ =>
               modify (set_cubeScene true) ;;; frame_loop (polls p) ;;; shutdownGl ;;; ret 0
             | PpmFile.Throws => FAIL (new_failure p)
             | PpmFile.Hangs => fun st => (Hung, st)
             | PpmFile.Undefined => fun st => (Undefined, st)
             | PpmFile.OutOfFuel => fun st => (OutOfFuel, st)
             end)
            ExampleApp_dtor (MkApp (startup_calls p) true 0 false false).
Proof.
  intros H.
  destruct (reaches_loads_parts p H)
    as (H1 & H2 & H3 & H4 & H5 & H6 & (n & H7 & H7') & H8 & H9).
  unfold try_block, ExampleApp_ctor, GlfwApp_ctor, RiftManagerApp_ctor, run,
    createWindow, postCreate, ExampleApp_initGl, new_scene, RiftApp_initGl,
    startup_calls, scene_lines.
  rewrite H1, H2, H3, H4, H5, H6, H7, H7', H8, H9.
  destruct (Construction.load_textures (files p) Startup.ctor_start) as [[[] | | | |] c];
    reflexivity.
Qed.

(** A run that has started up: the start-up, the frame loop, the
    teardown. *)
Lemma main_started (p : Platform) :
  starts_up p = true ->
  exists extra,
    Forall loop_call extra /\
    (main p = (Returned 0, startup_calls p ++ extra ++ teardown_calls ++ [ovr_Shutdown]) \/
     (exists what,
         main p = (Returned (-1), startup_calls p ++ extra ++ teardown_calls
                                               ++ [cerr what; ovr_Shutdown])) \/
     (exists r, main p = (r, startup_calls p ++ extra) /\
                forall result, r <> Returned result)).
Proof.
  intros H. unfold starts_up in H. apply andb_true_iff in H. destruct H as [Hr Hl].
  set (st1 := MkApp (startup_calls p) true 0 false true).
  destruct (loop_step_frame_loop (polls p) st1) as (extra & E & F & W & S).
  exists extra. split; [exact F |].
  assert (Hstart : try_block p app0
                   = finally (frame_loop (polls p) ;;; shutdownGl ;;; ret 0)
                             ExampleApp_dtor st1).
  { rewrite (try_block_reaches_loads p Hr). unfold loads_return in Hl.
    destruct (fst (Construction.load_textures (files p) Startup.ctor_start));
      try discriminate Hl.
    reflexivity. }
  unfold main. rewrite Hstart. unfold finally, bind.
  destruct (frame_loop (polls p) st1) as [[[] | what | | | |] [c2 w2 f2 sc2 cs2]];
    cbn [snd calls window cubeScene st1] in E, W, S; subst c2 w2 cs2.
  - left. cbn. unfold teardown_calls. rewrite <- ?app_assoc. reflexivity.
  - right; left. exists what. cbn. unfold teardown_calls.
    rewrite <- ?app_assoc. reflexivity.
  - right; right. eexists. split; [reflexivity | discriminate].
  - right; right. eexists. split; [reflexivity | discriminate].
  - right; right. eexists. split; [reflexivity | discriminate].
  - right; right. eexists. split; [reflexivity | discriminate].
Qed.

(** A run that reaches the loads of the scene's constructor, one of
    which does not return: a failing [new[]] ends it with -1 after the
    teardown of what had started, and otherwise [main] does not return. *)
Lemma main_loads_fail (p : Platform) :
  reaches_loads p = true -> loads_return p = false ->
  main p = (Returned (-1),
            startup_calls p ++ [ovr_Destroy; glfwDestroyWindow; glfwTerminate;
                                cerr (new_failure p); ovr_Shutdown]) \/
  (forall result trace, main p <> (Returned result, trace)).
Proof.
  intros Hr Hl. unfold main. rewrite (try_block_reaches_loads p Hr).
  unfold loads_return in Hl.
  destruct (fst (Construction.load_textures (files p) Startup.ctor_start));
    try discriminate Hl.
  - right. intros result trace. discriminate.
  - left. cbn. rewrite <- ?app_assoc. reflexivity.
  - right. intros result trace. discriminate.
  - right. intros result trace. discriminate.
Qed.

Lemma loop_calls_in (c : Call) (extra : list Call) :
  Forall loop_call extra -> ~ loop_call c -> ~ In c extra.
Proof.
  intros F Hc Hin. rewrite Forall_forall in F. apply Hc, F, Hin.
Qed.

Lemma loop_calls_no_cerr (extra : list Call) :
  Forall loop_call extra -> filter is_cerr extra = [].
Proof.
  induction 1 as [| c extra Hc _ IH]; [reflexivity |].
  cbn [filter]. rewrite IH. destruct c; try reflexivity; contradiction.
Qed.

Ltac failed_start Hmain :=
  cbv -[RiftLayout.RiftApp_ctor RiftLayout.ux RiftLayout.uy RiftLayout._mirrorSize
        RiftLayout._renderTargetSize new_scene] in Hmain;
  injection Hmain as <- <-;
  cbn [last removelast filter is_cerr List.length In andb Z.eqb app];
  repeat match goal with |- _ /\ _ => split end;
  intros;
  try reflexivity;
  try (right; reflexivity);
  try (eexists; split; reflexivity);
  try (intuition (discriminate || congruence)).

(** X19: [main] ends what it has begun, whatever fails.  When it returns,
    [ovr_Shutdown] is its last call and is made once (also when
    [ovr_Initialize] failed); [glfwTerminate] is called exactly when
    [glfwInit] succeeded, [ovr_Destroy] exactly when [ovr_Create] did,
    [glfwDestroyWindow] exactly when the window was created, and the scene
    is deleted exactly when the start-up was complete.  The result is 0 or
    -1.  The lines on [cerr] are those of the calls of [loadPPM] in the
    scene's constructor, when the start-up has come that far, followed by
    one line of the handler of [main] when the result is -1 and by
    nothing when it is 0.  A start-up that fails gives -1 and draws no
    frame. *)
Theorem main_tears_down (p : Platform) (result : Z) (trace : list Call) :
  main p = (Returned result, trace) ->
  (last trace ovr_Initialize = ovr_Shutdown /\ ~ In ovr_Shutdown (removelast trace)) /\
  (In glfwTerminate trace <-> ovr_Initialize_ok p && glfwInit_ok p = true) /\
  (In ovr_Destroy trace
   <-> ovr_Initialize_ok p && glfwInit_ok p && ovr_Create_ok p = true) /\
  (In glfwDestroyWindow trace
   <-> ovr_Initialize_ok p && glfwInit_ok p && ovr_Create_ok p = true /\
       glfwCreateWindow_answer p = WindowCreated) /\
  (In delete_ColorCubeScene trace <-> starts_up p = true) /\
  (result = 0 \/ result = -1) /\
  (exists handler,
      filter is_cerr trace
      = (if reaches_loads p then map cerr (scene_lines p) else []) ++ handler /\
      List.length handler = (if result =? 0 then 0%nat else 1%nat)) /\
  (starts_up p = false -> result = -1 /\ forall n, ~ In (draw n) trace).
Proof.
  intros Hmain.
  destruct (startup_calls_parts p) as (before & Hcalls & Hquiet & Hbefore).
  assert (Hlines : forall c, In c (map cerr (scene_lines p)) ->
                             c <> ovr_Shutdown /\ c <> delete_ColorCubeScene /\
                             c <> glfwTerminate /\ c <> ovr_Destroy /\
                             c <> glfwDestroyWindow /\ forall n, c <> draw n).
  { intros c Hc. apply in_map_cerr in Hc.
    repeat split; try (intros ->; discriminate Hc). intros n ->. discriminate Hc. }
  destruct (starts_up p) eqn:Hs.
  - destruct (main_started p Hs) as (extra & F & Hcase).
    unfold starts_up in Hs. apply andb_true_iff in Hs. destruct Hs as [Hr Hl].
    destruct (reaches_loads_parts p Hr)
      as (H1 & H2 & H3 & H4 & H5 & H6 & _ & H8 & H9).
    rewrite H1, H2, H3, H4, Hr.
    assert (Hfin : exists tail,
               trace = (startup_calls p ++ extra ++ teardown_calls ++ tail)
                         ++ [ovr_Shutdown] /\
               (tail = [] /\ result = 0 \/ exists what, tail = [cerr what] /\ result = -1)).
    { destruct Hcase as [Hc | [[what Hc] | (r & Hc & Hr')]]; rewrite Hc in Hmain.
      - injection Hmain as <- <-. exists []. split; [| left; split; reflexivity].
        rewrite <- !app_assoc. reflexivity.
      - injection Hmain as <- <-. exists [cerr what].
        split; [| right; exists what; split; reflexivity].
        rewrite <- !app_assoc. reflexivity.
      - injection Hmain as -> _. exfalso. exact (Hr' result eq_refl). }
    destruct Hfin as (tail & -> & Htail).
    assert (Hno : forall c, ~ loop_call c -> ~ In c extra)
      by (intros c; apply loop_calls_in; assumption).
    rewrite last_last, removelast_last.
    assert (Hin : forall c, In c ((startup_calls p ++ extra ++ teardown_calls ++ tail)
                                    ++ [ovr_Shutdown])
                            <-> In c before \/ In c (map cerr (scene_lines p)) \/
                                In c extra \/
                                In c teardown_calls \/ In c tail \/ c = ovr_Shutdown).
    { intros c. rewrite Hcalls, !in_app_iff. cbn [In]. intuition. }
    assert (Htl : forall c, In c tail -> is_cerr c = true).
    { intros c Hc. destruct Htail as [[-> _] | (what & -> & _)]; [contradiction |].
      destruct Hc as [<- | []]. reflexivity. }
    split; [split; [reflexivity |] |].
    { rewrite Hcalls, !in_app_iff. intros [[H | H] | [H | [H | H]]].
      - apply (proj1 (Hbefore _ H)). reflexivity.
      - apply (proj1 (Hlines _ H)). reflexivity.
      - revert H. apply Hno. cbn. tauto.
      - cbn in H. intuition discriminate.
      - apply Htl in H. discriminate H. }
    split. { rewrite Hin. cbn. intuition. }
    split. { rewrite Hin. cbn. intuition. }
    split. { rewrite Hin. cbn. intuition. }
    split. { rewrite Hin. cbn. intuition. }
    split. { destruct Htail as [[_ ->] | (what & _ & ->)]; [left | right]; reflexivity. }
    split.
    { exists tail. rewrite Hcalls, !filter_app, Hquiet, filter_map_cerr,
                 (loop_calls_no_cerr extra F).
      destruct Htail as [[-> ->] | (what & -> & ->)];
        cbn [filter is_cerr teardown_calls app]; rewrite ?app_nil_r; split; reflexivity. }
    intros; discriminate.
  - destruct (reaches_loads p) eqn:Hr.
    + unfold starts_up in Hs. rewrite Hr in Hs. cbn [andb] in Hs.
      destruct (reaches_loads_parts p Hr)
        as (H1 & H2 & H3 & H4 & H5 & H6 & _ & H8 & H9).
      rewrite H1, H2, H3, H4.
      destruct (main_loads_fail p Hr Hs) as [Hc | Hc];
        [| exfalso; exact (Hc result trace Hmain)].
      rewrite Hc in Hmain.
      assert (Hres : result = -1) by congruence.
      assert (Htr : trace = startup_calls p ++ [ovr_Destroy; glfwDestroyWindow; glfwTerminate;
                                                cerr (new_failure p); ovr_Shutdown])
        by congruence.
      subst result trace. clear Hmain Hc.
      change (startup_calls p ++ [ovr_Destroy; glfwDestroyWindow; glfwTerminate;
                                  cerr (new_failure p); ovr_Shutdown])
        with (startup_calls p ++ [ovr_Destroy; glfwDestroyWindow; glfwTerminate;
                                  cerr (new_failure p)] ++ [ovr_Shutdown]).
      rewrite app_assoc, last_last, removelast_last.
      assert (Hin : forall c, In c ((startup_calls p
                                       ++ [ovr_Destroy; glfwDestroyWindow; glfwTerminate;
                                           cerr (new_failure p)]) ++ [ovr_Shutdown])
                              <-> In c before \/ In c (map cerr (scene_lines p)) \/
                                  In c [ovr_Destroy; glfwDestroyWindow; glfwTerminate;
                                        cerr (new_failure p)] \/ c = ovr_Shutdown).
      { intros c. rewrite Hcalls, !in_app_iff. cbn [In]. intuition. }
      split; [split; [reflexivity |] |].
      { rewrite Hcalls, !in_app_iff. intros [[H | H] | H].
        - apply (proj1 (Hbefore _ H)). reflexivity.
        - apply (proj1 (Hlines _ H)). reflexivity.
        - cbn in H. intuition discriminate. }
      split. { rewrite Hin. cbn. intuition. }
      split. { rewrite Hin. cbn. intuition. }
      split. { rewrite Hin. cbn. intuition. }
      split.
      { rewrite Hin. split; [| discriminate].
        intros [H | [H | [H | H]]].
        - exfalso. apply (proj1 (proj2 (Hbefore _ H))). reflexivity.
        - exfalso. apply (proj1 (proj2 (Hlines _ H))). reflexivity.
        - cbn in H. intuition discriminate.
        - discriminate H. }
      split; [right; reflexivity |].
      split.
      { exists [cerr (new_failure p)].
        rewrite Hcalls, !filter_app, Hquiet, filter_map_cerr.
        cbn [filter is_cerr app]. rewrite ?app_nil_r. split; reflexivity. }
      intros _. split; [reflexivity |].
      intros n. rewrite Hin. intros [H | [H | [H | H]]].
      * exact (proj2 (proj2 (proj2 (proj2 (proj2 (Hbefore _ H))))) n eq_refl).
      * exact (proj2 (proj2 (proj2 (proj2 (proj2 (Hlines _ H))))) n eq_refl).
      * cbn in H. intuition discriminate.
      * discriminate H.
    + clear Hs Hcalls Hquiet Hbefore Hlines before.
      destruct p as [i g c es wa gl sc sl mt se fs nf pl]. unfold reaches_loads in Hr.
      cbn [ovr_Initialize_ok glfwInit_ok ovr_Create_ok glfwCreateWindow_answer
           glewInit_ok swap_chain_ok swap_chain_length mirror_texture_ok
           scene_exception] in *.
      unfold main, try_block, ExampleApp_ctor, GlfwApp_ctor, RiftManagerApp_ctor, run,
        createWindow, postCreate, ExampleApp_initGl, RiftApp_initGl in Hmain.
      cbn [ovr_Initialize_ok glfwInit_ok ovr_Create_ok glfwCreateWindow_answer
           glewInit_ok swap_chain_ok swap_chain_length mirror_texture_ok
           scene_exception eyeSize polls] in Hmain.
      destruct i; [| failed_start Hmain].
      destruct g; [| failed_start Hmain].
      destruct c; [| failed_start Hmain].
      destruct wa as [| [description |]]; [| failed_start Hmain | failed_start Hmain].
      destruct gl; [| failed_start Hmain].
      destruct sc; [| failed_start Hmain].
      destruct sl as [n |]; [| failed_start Hmain].
      destruct (n =? 0) eqn:Hn; [failed_start Hmain |].
      destruct mt; [| failed_start Hmain].
      destruct se as [what |]; [| discriminate Hr].
      unfold new_scene in Hmain.
      cbn [scene_exception] in Hmain.
      failed_start Hmain.
Qed.

Lemma to_uint_add (a b : Z) :
  RiftLayout.to_uint (RiftLayout.to_uint a + b) = RiftLayout.to_uint (a + b).
Proof. unfold RiftLayout.to_uint. apply Z.add_mod_idemp_l. lia. Qed.

Lemma draws_app (a b : list Call) : draws (a ++ b) = draws a ++ draws b.
Proof. unfold draws. apply flat_map_app. Qed.

Lemma poll_count_app (a b : list Call) : poll_count (a ++ b) = (poll_count a + poll_count b)%nat.
Proof. unfold poll_count. rewrite filter_app, length_app. reflexivity. Qed.

Ltac handled_step :=
  eexists; split; [reflexivity |];
  cbn [should_close frame calls log set_should_close snd];
  rewrite ?draws_app, ?poll_count_app;
  cbn [draws flat_map poll_count filter List.length app];
  rewrite ?app_nil_r, ?orb_false_r, ?orb_true_r, ?Nat.add_0_r;
  repeat split.

Lemma deliver_quiet (e : Event) (st : AppState) :
  quiet [e] = true ->
  exists st', deliver e st = (Returned tt, st') /\ handled st st' (closes [e]).
Proof.
  unfold handled.
  destruct e as [key action | | description]; cbn [quiet forallb closes existsb deliver];
    intros Hq; [| | discriminate].
  - unfold RiftApp_onKey, GlfwApp_onKey.
    destruct (action =? GLFW_PRESS) eqn:Ha; cbn [andb negb].
    + destruct (key =? GLFW_KEY_R) eqn:Hr.
      * apply Z.eqb_eq in Hr. subst key.
        change (GLFW_KEY_R =? GLFW_KEY_ESCAPE) with false.
        unfold call. handled_step.
      * destruct (key =? GLFW_KEY_ESCAPE) eqn:He.
        -- unfold bind, call, modify. handled_step.
        -- unfold ret. handled_step.
    + unfold ret. handled_step.
  - unfold modify. handled_step.
Qed.

Lemma deliver_all_quiet (events : list Event) (st : AppState) :
  quiet events = true ->
  exists st', deliver_all events st = (Returned tt, st') /\ handled st st' (closes events).
Proof.
  revert st. induction events as [| e rest IH]; intros st Hq.
  - exists st. split; [reflexivity |]. unfold handled. cbn. rewrite orb_false_r.
    repeat split.
  - assert (Hq1 : quiet [e] = true /\ quiet rest = true).
    { unfold quiet in *. cbn [forallb] in *. apply andb_true_iff in Hq.
      destruct Hq as [-> ->]. split; reflexivity. }
    destruct Hq1 as [Hqe Hqr].
    destruct (deliver_quiet e st Hqe) as (st1 & E1 & C1 & F1 & D1 & P1).
    destruct (IH st1 Hqr) as (st2 & E2 & C2 & F2 & D2 & P2).
    exists st2. cbn [deliver_all]. unfold bind. rewrite E1, E2.
    split; [reflexivity |]. unfold handled.
    rewrite C2, C1, F2, F1, D2, D1, P2, P1.
    repeat split.
    unfold closes. cbn [existsb]. rewrite orb_false_r, orb_assoc. reflexivity.
Qed.

(** One pass of the loop over a poll without an error. *)
Lemma frame_loop_pass (events : list Event) (rest : list (list Event)) (st : AppState) :
  should_close st = false -> quiet events = true ->
  exists st',
    frame_loop (events :: rest) st = frame_loop rest st' /\
    should_close st' = closes events /\
    frame st' = RiftLayout.to_uint (frame st + 1) /\
    draws (calls st') = draws (calls st) ++ [RiftLayout.to_uint (frame st + 1)] /\
    poll_count (calls st') = S (poll_count (calls st)).
Proof.
  intros Hc Hq. cbn [frame_loop]. rewrite Hc.
  set (st1 := log glfwPollEvents (set_frame (RiftLayout.to_uint (frame st + 1)) st)).
  destruct (deliver_all_quiet events st1 Hq) as (st2 & E & C & F & D & P).
  exists (log glfwSwapBuffers (log (draw (frame st2)) st2)).
  split.
  - unfold bind, modify, call, get. fold st1. rewrite E. reflexivity.
  - cbn [should_close frame calls log]. rewrite C, F, !draws_app, !poll_count_app, D, P.
    subst st1. cbn [should_close frame calls log set_frame].
    rewrite Hc, draws_app, poll_count_app. cbn.
    rewrite !app_nil_r. repeat split. lia.
Qed.

(** X18: the frame loop ends by a request to close and by nothing else
    that is quiet.  Over polls that bring no error, the loop is still
    running after polls without a press of Escape or a close request; with
    such a press or request in the next poll it returns after that pass,
    having polled once and drawn one frame for every poll up to and
    including that one, the frames numbered on from [frame], and it reads
    no later poll.  Releases and repeats of Escape, and presses of R, do
    not end it. *)
Theorem close_ends_frame_loop
        (before : list (list Event)) (events : list Event) (rest : list (list Event))
        (st : AppState) :
  should_close st = false ->
  forallb (fun evs => quiet evs && negb (closes evs)) before = true ->
  quiet events = true ->
  (closes events = true ->
   exists st',
     frame_loop (before ++ events :: rest) st = (Returned tt, st') /\
     draws (calls st')
     = draws (calls st) ++ frame_numbers (frame st) (S (List.length before)) /\
     poll_count (calls st') = (poll_count (calls st) + S (List.length before))%nat) /\
  (exists st', frame_loop before st = (Running, st')).
Proof.
  revert st. induction before as [| evs before IH]; intros st Hc Hb Hq.
  - split.
    + intros Hcl.
      destruct (frame_loop_pass events rest st Hc Hq) as (st1 & E & C & F & D & P).
      exists st1. cbn [app]. rewrite E. rewrite Hcl in C.
      split; [destruct rest; cbn [frame_loop]; rewrite C; reflexivity |].
      rewrite D, P. unfold frame_numbers. cbn. split; [reflexivity | lia].
    + exists st. cbn. rewrite Hc. reflexivity.
  - cbn [forallb] in Hb. apply andb_true_iff in Hb. destruct Hb as [Hevs Hb].
    apply andb_true_iff in Hevs. destruct Hevs as [Hqe Hne].
    apply negb_true_iff in Hne.
    destruct (frame_loop_pass evs (before ++ events :: rest) st Hc Hqe)
      as (st1 & E & C & F & D & P).
    destruct (frame_loop_pass evs before st Hc Hqe)
      as (st1' & E' & C' & F' & D' & P').
    rewrite Hne in C, C'.
    destruct (IH st1 C Hb Hq) as [IHclose _].
    destruct (IH st1' C' Hb Hq) as [_ IHrun].
    split.
    + intros Hcl. destruct (IHclose Hcl) as (st2 & E2 & D2 & P2).
      exists st2. cbn [app]. rewrite E, E2. split; [reflexivity |].
      rewrite D2, P2, D, P, F. cbn [List.length].
      split; [| lia].
      rewrite <- app_assoc. f_equal.
      unfold frame_numbers.
      change (seq 1 (S (S (List.length before))))
        with (1%nat :: seq 2 (S (List.length before))).
      cbn [map app]. f_equal.
      rewrite <- (seq_shift (S (List.length before)) 1), map_map.
      apply map_ext. intros k. rewrite to_uint_add. f_equal. lia.
    + destruct IHrun as (st2 & E2). exists st2. rewrite E'. exact E2.
Qed.

(** X18 with a press of A in the first poll and of Escape in the second. *)
Lemma close_ends_frame_loop_witness :
  exists st', frame_loop [[KeyEvent 65 GLFW_PRESS]] app0 = (Running, st').
Proof.
  exact (proj2 (close_ends_frame_loop [[KeyEvent 65 GLFW_PRESS]]
                  [KeyEvent GLFW_KEY_ESCAPE GLFW_PRESS] [] app0
                  eq_refl eq_refl eq_refl)).
Defined.

Lemma sample_platform_returns :
  main sample_platform = (Returned 0, snd (main sample_platform)).
Proof. vm_compute. reflexivity. Qed.

(** X19 on [sample_platform]: the run ends with [ovr_Shutdown]. *)
Lemma main_tears_down_witness :
  last (snd (main sample_platform)) ovr_Initialize = ovr_Shutdown.
Proof.
  exact (proj1 (proj1 (main_tears_down sample_platform 0 (snd (main sample_platform))
                         sample_platform_returns))).
Defined.
End AppFacts.
